(** * A chat server over SQLite: model of auth.py, database.py and server.py

    The development embeds the three server-side modules of the chat
    application as Rocq functions and proves the properties its
    specification states about them.

    - Python [str] values are represented by their UTF-8 encoding, a
      [string]; [s.encode("utf-8")] is then the list of bytes of the string.
    - Python exceptions are the [Raise] results of [result].
    - The SQLite file behind the SQLAlchemy [engine] is the record
      [Database]; the table [users] is a finite map keyed by its primary
      key, the table [messages] is a list of rows.
    - The library calls whose bodies are not part of the application
      ([hashlib.pbkdf2_hmac], [str.strip], [str.lower]) are the fields of
      the class [PyLib]; every theorem holds for every instance.
    - What the operating system decides (clock reading, random bytes,
      whether a peer is still reachable, whether the store answers) is
      data of the [World], which other threads may change between two
      reads of a handler.
    - Two calls of [broadcast_message] that overlap in time are two
      threads taking steps under a schedule; [sendall] is then the loop
      of [send] calls it is, each handing the socket a piece of the
      line. *)

From stdpp Require Import gmap strings list finite.
From Stdlib Require Import ZArith Lia Sorted.
From Stdlib.Strings Require Import Ascii String Byte.

Local Open Scope string_scope.
Local Open Scope Z_scope.
Local Open Scope list_scope.

(** ** Python values *)

Inductive exn : Type :=
| OSError            (* socket failures *)
| IntegrityError     (* sqlalchemy.exc.IntegrityError *)
| OperationalError   (* sqlalchemy.exc.OperationalError: the store does not answer *)
| ValueError         (* bytes.fromhex on a malformed string *)
| OverflowError      (* sqlite3: Python int too large to convert to SQLite INTEGER *)
| UnicodeDecodeError (* readline on bytes that are not UTF-8 *).

Inductive result (A : Type) : Type :=
| Ok (a : A)
| Raise (e : exn).

Arguments Ok {A} a.
Arguments Raise {A} e.

Definition bytes := list byte.

#[export] Instance byte_eq_decision : EqDecision byte := Byte.byte_eq_dec.

(** [s.encode("utf-8")] *)
Definition encode_utf8 (s : string) : bytes := list_byte_of_string s.

(** One hexadecimal digit, lower case, as [bytes.hex] prints it. *)
Definition hex_digit (n : nat) : ascii :=
  match n with
  | 0 => "0" | 1 => "1" | 2 => "2" | 3 => "3" | 4 => "4" | 5 => "5"
  | 6 => "6" | 7 => "7" | 8 => "8" | 9 => "9" | 10 => "a" | 11 => "b"
  | 12 => "c" | 13 => "d" | 14 => "e" | _ => "f"
  end%char%nat.

(** [bytes.hex()] *)
Fixpoint hex (bs : bytes) : string :=
  match bs with
  | [] => EmptyString
  | b :: rest =>
      let n := Byte.to_nat b in
      String (hex_digit (n / 16)%nat) (String (hex_digit (n mod 16)%nat) (hex rest))
  end.

(** Value of a hexadecimal digit; [bytes.fromhex] takes both cases. *)
Definition hex_value (c : ascii) : option nat :=
  let n := nat_of_ascii c in
  if ((48 <=? n) && (n <=? 57))%nat then Some (n - 48)%nat
  else if ((97 <=? n) && (n <=? 102))%nat then Some (n - 87)%nat
  else if ((65 <=? n) && (n <=? 70))%nat then Some (n - 55)%nat
  else None.

(** ASCII white space, which [bytes.fromhex] skips between two bytes. *)
Definition is_ascii_space (c : ascii) : bool :=
  let n := nat_of_ascii c in
  ((n =? 32) || ((9 <=? n) && (n <=? 13)))%nat.

(** [bytes.fromhex(s)]; [None] stands for the [ValueError] it raises. *)
Fixpoint fromhex (s : string) : option bytes :=
  match s with
  | EmptyString => Some []
  | String c rest =>
      if is_ascii_space c then fromhex rest
      else
        match rest with
        | EmptyString => None
        | String d rest' =>
            match hex_value c, hex_value d with
            | Some hi, Some lo =>
                match Byte.of_nat (16 * hi + lo), fromhex rest' with
                | Some b, Some bs => Some (b :: bs)
                | _, _ => None
                end
            | _, _ => None
            end
        end
  end.

(** The library functions the application calls but does not define. *)
Class PyLib : Type := {
  (** [hashlib.pbkdf2_hmac(hash_name, password, salt, iterations)] *)
  pbkdf2_hmac : string -> bytes -> bytes -> Z -> bytes;
  (** [str.strip()] *)
  str_strip : string -> string;
  (** [str.lower()] *)
  str_lower : string -> string;
}.

(** ** auth.py *)

Section Auth.
Context `{PyLib}.

(** [hash_password(password)]. The 16 bytes of [os.urandom(16)] are the
    argument [salt]. *)
Definition hash_password (salt : bytes) (password : string) : string * string :=
  let hash_bytes := pbkdf2_hmac "sha256" (encode_utf8 password) salt 100000 in
  let salt_hex := hex salt in
  let hash_hex := hex hash_bytes in
  (salt_hex, hash_hex).

(** [verify_password(password, salt_hex, stored_hash_hex)] *)
Definition verify_password (password salt_hex stored_hash_hex : string) : result bool :=
  match fromhex salt_hex with
  | None => Raise ValueError
  | Some salt =>
      let new_hash_bytes := pbkdf2_hmac "sha256" (encode_utf8 password) salt 100000 in
      let new_hash_hex := hex new_hash_bytes in
      Ok (String.eqb new_hash_hex stored_hash_hex)
  end.
End Auth.

(** ** database.py *)

(** A row of [messages]. *)
Record message_row : Type := {
  message_id : Z;
  msg_username : string;
  msg_content : string;
  created_at : string;
}.

(** The database file behind [engine]. [sqlite_sequence] is the counter
    SQLite keeps for the AUTOINCREMENT column; [online] tells whether the
    engine can open a connection and run a statement. *)
Record Database : Type := {
  users : gmap string (string * string);
  messages : list message_row;
  sqlite_sequence : Z;
  online : bool;
}.

(** [chat.db] as [init_db()] leaves a new file: both tables, no row. *)
Definition fresh_db : Database :=
  {| users := ∅; messages := []; sqlite_sequence := 0; online := true |}.

(** The store goes down ([up = false]) or comes back. *)
Definition set_online (up : bool) (db : Database) : Database :=
  {| users := users db; messages := messages db;
     sqlite_sequence := sqlite_sequence db; online := up |}.

(** The rowid an AUTOINCREMENT insert takes: one more than the largest
    rowid the table ever held. *)
Definition next_message_id (db : Database) : Z :=
  1 + fold_right Z.max (sqlite_sequence db) (map message_id (messages db)).

(** [ORDER BY message_id DESC]: insertion into a list sorted downwards. *)
Fixpoint insert_desc (r : message_row) (sorted : list message_row) : list message_row :=
  match sorted with
  | [] => [r]
  | r' :: rest =>
      if message_id r' <=? message_id r then r :: sorted
      else r' :: insert_desc r rest
  end.

Definition order_by_id_desc (rows : list message_row) : list message_row :=
  fold_right insert_desc [] rows.

(** The integers SQLite stores: 64 bits, signed. *)
Definition sqlite_integer (n : Z) : bool := (- 2 ^ 63 <=? n) && (n <? 2 ^ 63).

(** [LIMIT :limit] with [n] bound to the parameter. Binding raises
    [OverflowError] when [n] is no SQLite INTEGER, before the statement
    runs; SQLite puts no bound on the rows when [n] is negative. *)
Definition sql_limit {A : Type} (n : Z) (rows : list A) : result (list A) :=
  if sqlite_integer n then
    Ok (if n <? 0 then rows else firstn (Z.to_nat n) rows)
  else Raise OverflowError.

Section DatabaseOps.
Context `{PyLib}.

(** The statement [INSERT INTO users ...] run inside [engine.begin()]:
    the PRIMARY KEY constraint on [username] makes it raise
    [IntegrityError] when the key is taken. *)
Definition insert_user (username salt_hex hash_hex : string) (db : Database)
  : result unit * Database :=
  if online db then
    match users db !! username with
    | Some _ => (Raise IntegrityError, db)
    | None =>
        (Ok tt,
         {| users := <[username := (salt_hex, hash_hex)]> (users db);
            messages := messages db;
            sqlite_sequence := sqlite_sequence db;
            online := online db |})
    end
  else (Raise OperationalError, db).

(** [create_user(username, password)]; [salt] is what [os.urandom(16)]
    returns inside [hash_password]. *)
Definition create_user (salt : bytes) (username password : string) (db : Database)
  : result bool * Database :=
  let '(salt_hex, hash_hex) := hash_password salt password in
  match insert_user username salt_hex hash_hex db with
  | (Ok _, db') => (Ok true, db')
  | (Raise IntegrityError, db') => (Ok false, db')
  | (Raise e, db') => (Raise e, db')
  end.

(** [_get_user_credentials(username)] *)
Definition _get_user_credentials (username : string) (db : Database)
  : result (option (string * string)) :=
  if online db then Ok (users db !! username) else Raise OperationalError.

(** [authenticate_user(username, password)] *)
Definition authenticate_user (username password : string) (db : Database) : result bool :=
  match _get_user_credentials username db with
  | Raise e => Raise e
  | Ok None => Ok false
  | Ok (Some (salt_hex, stored_hash_hex)) =>
      verify_password password salt_hex stored_hash_hex
  end.
End DatabaseOps.

(** [save_message(username, content)]; [now] is
    [datetime.now().strftime("%Y-%m-%d %H:%M:%S")]. *)
Definition save_message (now username content : string) (db : Database)
  : result unit * Database :=
  let created := now in
  if online db then
    let id := next_message_id db in
    (Ok tt,
     {| users := users db;
        messages := messages db ++
          [{| message_id := id; msg_username := username;
              msg_content := content; created_at := created |}];
        sqlite_sequence := id;
        online := online db |})
  else (Raise OperationalError, db).

(** [get_recent_messages(limit)] *)
Definition get_recent_messages (limit : Z) (db : Database)
  : result (list (string * string * string)) :=
  if online db then
    match sql_limit limit (order_by_id_desc (messages db)) with
    | Ok rows =>
        let rows := rev rows in
        Ok (map (fun row => (msg_username row, msg_content row, created_at row)) rows)
    | Raise e => Raise e
    end
  else Raise OperationalError.

(** ** server.py *)

(** An entry of the global list [clients]: the dictionary
    [{"conn": conn, "username": username}]. A socket object is named by a
    number; [c["conn"] is conn] is equality of these numbers. *)
Record Client : Type := {
  client_conn : nat;
  client_username : string;
}.

(** A connected socket: the payloads [sendall] delivered so far, whether
    the peer can still be written to, and whether [close()] was called. *)
Record Socket : Type := {
  delivered : list string;
  peer_ok : bool;
  closed : bool;
}.

(** Everything the threads of the server share, and what the operating
    system answers: the reading of [datetime.now()] and the bytes of the
    next [os.urandom(16)]. *)
Record World : Type := {
  engine : Database;
  clients : list Client;
  sockets : gmap nat Socket;
  clock : string;
  urandom16 : bytes;
}.

Definition set_engine (db : Database) (w : World) : World :=
  {| engine := db; clients := clients w; sockets := sockets w;
     clock := clock w; urandom16 := urandom16 w |}.

Definition set_clients (cs : list Client) (w : World) : World :=
  {| engine := engine w; clients := cs; sockets := sockets w;
     clock := clock w; urandom16 := urandom16 w |}.

Definition set_sockets (ss : gmap nat Socket) (w : World) : World :=
  {| engine := engine w; clients := clients w; sockets := ss;
     clock := clock w; urandom16 := urandom16 w |}.

(** What a thread does to its collaborators, in the order it does it:
    a call of [conn.sendall] (whether or not it succeeds), the calls into
    database.py with what they returned, a call of [broadcast_message],
    the two updates of [clients], and [conn.close()]. *)
Inductive Event : Type :=
| EvSendall (conn : nat) (data : string)
| EvCreateUser (username password : string) (r : result bool)
| EvAuthenticate (username password : string) (r : result bool)
| EvSaveMessage (username content : string) (r : result unit)
| EvRecentMessages (limit : Z)
| EvBroadcast (sender content : string)
| EvAppend (conn : nat) (username : string)
| EvRemove (conn : nat)
| EvClose (conn : nat).

(** A statement of a thread: it reads and changes the world, returns or
    raises, and leaves the events it caused. *)
Definition M (A : Type) : Type := World -> result A * World * list Event.

#[export] Instance M_ret : MRet M := fun A a w => (Ok a, w, []).

#[export] Instance M_bind : MBind M := fun A B k m w =>
  match m w with
  | (Ok a, w1, t1) => let '(r, w2, t2) := k a w1 in (r, w2, t1 ++ t2)
  | (Raise e, w1, t1) => (Raise e, w1, t1)
  end.

Definition raise {A : Type} (e : exn) : M A := fun w => (Raise e, w, []).

Definition emit (ev : Event) : M unit := fun w => (Ok tt, w, [ev]).

(** [try: m  except OSError: continue] *)
Definition except_OSError (m : M unit) : M unit := fun w =>
  match m w with
  | (Raise OSError, w1, t1) => (Ok tt, w1, t1)
  | other => other
  end.

(** [try: m  except Exception as exc: print(...)]; the value tells how
    the block ended. *)
Definition attempt {A : Type} (m : M A) : M (result A) := fun w =>
  let '(r, w1, t1) := m w in (Ok r, w1, t1).

Definition LF : string := String (ascii_of_nat 10) EmptyString.

(** [conn.sendall(data)]: the payload reaches the peer, or the call
    raises [OSError] (peer gone, socket closed, no such socket) and the
    peer gets nothing of it. *)
Definition sendall (conn : nat) (data : string) : M unit := fun w =>
  match sockets w !! conn with
  | Some s =>
      if peer_ok s && negb (closed s) then
        (Ok tt,
         set_sockets (<[conn := {| delivered := delivered s ++ [data];
                                   peer_ok := peer_ok s;
                                   closed := closed s |}]> (sockets w)) w,
         [EvSendall conn data])
      else (Raise OSError, w, [EvSendall conn data])
  | None => (Raise OSError, w, [EvSendall conn data])
  end.

(** [conn.close()] *)
Definition close (conn : nat) : M unit := fun w =>
  (Ok tt,
   set_sockets (alter (fun s => {| delivered := delivered s;
                                   peer_ok := peer_ok s;
                                   closed := true |}) conn (sockets w)) w,
   [EvClose conn]).

(** [send_line(conn, text)] *)
Definition send_line (conn : nat) (text : string) : M unit :=
  let data := text +:+ LF in
  sendall conn data.

(** [for x in xs: body(x)] *)
Fixpoint for_each {A : Type} (xs : list A) (body : A -> M unit) : M unit :=
  match xs with
  | [] => mret tt
  | x :: rest => body x ;; for_each rest body
  end.

(** The calls into database.py, run on the shared [engine]. *)
Definition call_save_message (username content : string) : M unit := fun w =>
  let '(r, db) := save_message (clock w) username content (engine w) in
  (r, set_engine db w, [EvSaveMessage username content r]).

Definition call_get_recent_messages (limit : Z) : M (list (string * string * string)) :=
  fun w => (get_recent_messages limit (engine w), w, [EvRecentMessages limit]).

Section Server.
Context `{PyLib}.

Definition call_create_user (username password : string) : M bool := fun w =>
  let '(r, db) := create_user (urandom16 w) username password (engine w) in
  (r, set_engine db w, [EvCreateUser username password r]).

Definition call_authenticate_user (username password : string) : M bool := fun w =>
  let r := authenticate_user username password (engine w) in
  (r, w, [EvAuthenticate username password r]).

(** [broadcast_message(sender_username, content)] *)
Definition broadcast_message (sender_username content : string) : M unit :=
  emit (EvBroadcast sender_username content) ;;
  call_save_message sender_username content ;;
  let line := "[" +:+ sender_username +:+ "] " +:+ content in
  current_clients ← (fun w => (Ok (clients w), w, [])) ;
  for_each current_clients (fun client =>
    let conn := client_conn client in
    except_OSError (send_line conn line)).

(** The lines a handler reads from [file_obj]. Before each line arrives
    the other threads and the operating system may have changed the
    world ([before]); the read returns a line or raises ([got]). When the
    list is used up, [readline()] returns the empty string: end of
    stream. *)
Record Read : Type := {
  before : World -> World;
  got : result string;
}.

(** [x = file_obj.readline()] followed by the test [if not x: ...]:
    [at_eof] is the branch taken when [x] is empty, [k] the rest of the
    block with [x] and the lines still to come. *)
Definition readline {A : Type} (input : list Read) (at_eof : M A)
    (k : string -> list Read -> M A) : M A :=
  match input with
  | [] => at_eof
  | r :: rest =>
      (fun w => (Ok tt, before r w, [])) ;;
      match got r with
      | Raise e => raise e
      | Ok EmptyString => at_eof
      | Ok x => k x rest
      end
  end.

Definition is_empty (s : string) : bool :=
  match s with EmptyString => true | _ => false end.

(** The loop [while username is None] of [handle_client]. The value is
    [None] when the handler returns from inside the loop, and
    [Some (username, rest)] when [username = uname] is executed, with
    the lines not read yet. *)
Fixpoint auth_loop (conn : nat) (input : list Read) : M (option (string * list Read)) :=
  readline input (mret None) (fun command input =>
    let command := str_lower (str_strip command) in
    if String.eqb command "register" then
      send_line conn "Choose a username:" ;;
      readline input (mret None) (fun uname input =>
        let uname := str_strip uname in
        send_line conn "Choose a password:" ;;
        readline input (mret None) (fun pw input =>
          let pw := str_strip pw in
          if is_empty uname || is_empty pw then
            send_line conn "Username and password cannot be empty. Try again." ;;
            auth_loop conn input
          else
            created ← call_create_user uname pw ;
            (if created : bool then
               send_line conn "Account created successfully! Type 'login' to sign in."
             else
               send_line conn "Username already exists. Try another username.") ;;
            auth_loop conn input))
    else if String.eqb command "login" then
      send_line conn "Username:" ;;
      readline input (mret None) (fun uname input =>
        let uname := str_strip uname in
        send_line conn "Password:" ;;
        readline input (mret None) (fun pw input =>
          let pw := str_strip pw in
          ok ← call_authenticate_user uname pw ;
          if ok : bool then
            mret (Some (uname, input))
          else
            send_line conn "Invalid username or password. Try again." ;;
            auth_loop conn input))
    else
      send_line conn "Please type either 'register' or 'login'." ;;
      auth_loop conn input).

(** Step 1 of the [try] block: the two lines of welcome, then the
    loop. *)
Definition welcome_and_auth (conn : nat) (input : list Read)
  : M (option (string * list Read)) :=
  send_line conn "Welcome to the chat server!" ;;
  send_line conn "Type 'register' to create an account or 'login' to sign in:" ;;
  auth_loop conn input.

(** [with clients_lock: clients.append({"conn": conn, "username": username})] *)
Definition clients_append (conn : nat) (username : string) : M unit := fun w =>
  (Ok tt,
   set_clients (clients w ++ [{| client_conn := conn; client_username := username |}]) w,
   [EvAppend conn username]).

(** [with clients_lock: clients[:] = [c for c in clients if c["conn"] is not conn]] *)
Definition clients_remove (conn : nat) : M unit := fun w =>
  (Ok tt,
   set_clients (filter (fun c => client_conn c ≠ conn) (clients w)) w,
   [EvRemove conn]).

(** The loop [while True] of [handle_client]. *)
Fixpoint chat_loop (conn : nat) (username : string) (input : list Read) : M unit :=
  readline input (mret tt) (fun line input =>
    let message := str_strip line in
    if is_empty message then chat_loop conn username input
    else if String.eqb message "/quit" then send_line conn "Goodbye!"
    else
      broadcast_message username message ;;
      chat_loop conn username input).

(** The block "Optionally send recent history" of [handle_client];
    [get_recent_messages()] is called with its default limit. *)
Definition send_history (conn : nat) : M unit :=
  send_line conn "--- Recent messages ---" ;;
  history ← call_get_recent_messages 20 ;
  for_each history (fun '(u, content, created_at) =>
    send_line conn ("[" +:+ created_at +:+ "] " +:+ u +:+ ": " +:+ content)) ;;
  send_line conn "--- End of history ---".

(** What the [try] block does once [username] is set: from the line
    "Login successful" to the end of the chat loop. *)
Definition after_login (conn : nat) (username : string) (input : list Read) : M unit :=
  send_line conn ("Login successful. Welcome, " +:+ username +:+ "!") ;;
  clients_append conn username ;;
  send_history conn ;;
  broadcast_message "SYSTEM" (username +:+ " has joined the chat.") ;;
  send_line conn "You are now in the chatroom. Type messages and press Enter." ;;
  send_line conn "Type '/quit' to exit." ;;
  chat_loop conn username input.

(** The [finally] block of [handle_client]. *)
Definition finally_block (conn : nat) (username : option string) : M unit :=
  match username with
  | Some username =>
      clients_remove conn ;;
      broadcast_message "SYSTEM" (username +:+ " has left the chat.")
  | None => mret tt
  end ;;
  close conn.

(** [handle_client(conn, addr)] reading the lines [input]. The [try]
    block is [welcome_and_auth] followed by [after_login]; whatever it raises
    is caught by [except Exception] and printed; the [finally] block
    runs with the value [username] has at that point. *)
Definition handle_client (conn : nat) (addr : string) (input : list Read) : M unit :=
  r ← attempt (welcome_and_auth conn input) ;
  match r with
  | Ok (Some (username, input)) =>
      attempt (after_login conn username input) ;;
      finally_block conn (Some username)
  | _ => finally_block conn None
  end.
End Server.

(** ** An instance of the library, to run the model

    [str.strip] and [str.lower] restricted to ASCII, and a stand-in for
    the key derivation (it is not PBKDF2: the 32 bytes of its key are the
    first bytes of salt and password). The theorems hold for every
    instance; the examples at the end of the file run on this one. *)

Definition is_py_space (c : ascii) : bool :=
  let n := nat_of_ascii c in
  ((n =? 32) || ((9 <=? n) && (n <=? 13)) || ((28 <=? n) && (n <=? 31)))%nat.

Fixpoint lstrip (s : string) : string :=
  match s with
  | String c rest => if is_py_space c then lstrip rest else s
  | EmptyString => EmptyString
  end.

Fixpoint rstrip (s : string) : string :=
  match s with
  | String c rest =>
      match rstrip rest with
      | EmptyString => if is_py_space c then EmptyString else String c EmptyString
      | rest' => String c rest'
      end
  | EmptyString => EmptyString
  end.

Definition ascii_strip (s : string) : string := rstrip (lstrip s).

Definition ascii_lower_char (c : ascii) : ascii :=
  let n := nat_of_ascii c in
  if ((65 <=? n) && (n <=? 90))%nat then ascii_of_nat (n + 32) else c.

Fixpoint ascii_lower (s : string) : string :=
  match s with
  | String c rest => String (ascii_lower_char c) (ascii_lower rest)
  | EmptyString => EmptyString
  end.

Definition demo_lib : PyLib := {|
  pbkdf2_hmac := fun _ password salt _ => take 32 (salt ++ password ++ repeat x00 32);
  str_strip := ascii_strip;
  str_lower := ascii_lower;
|}.

(** A world to run the model in: a new store, two registered sessions,
    of which the second has lost its peer. *)
Definition open_socket : Socket := {| delivered := []; peer_ok := true; closed := false |}.

Definition lost_socket : Socket := {| delivered := []; peer_ok := false; closed := false |}.

Definition alice : Client := {| client_conn := 1; client_username := "alice" |}.

Definition bob : Client := {| client_conn := 2; client_username := "bob" |}.

Definition demo_world : World :=
  {| engine := fresh_db;
     clients := [alice; bob];
     sockets := {[ 1%nat := open_socket; 2%nat := lost_socket ]};
     clock := "2025-01-01 12:00:00";
     urandom16 := repeat x00 16 |}.

(** The same world with the store down. *)
Definition demo_world_offline : World := set_engine (set_online false fresh_db) demo_world.

(** ** Histories of calls into database.py *)

(** What happens to the store, one step at a time: a call of
    [create_user] (with the salt it draws), a call of [save_message] (with
    the clock reading it takes), or the store going down or coming back. *)
Inductive db_op : Type :=
| OpCreateUser (salt : bytes) (username password : string)
| OpSaveMessage (now username content : string)
| OpStore (up : bool).

(** A step as it went: the database it met and what the call returned. *)
Inductive db_call : Type :=
| Created (salt : bytes) (username password : string) (met : Database) (r : result bool)
| Saved (now username content : string) (met : Database) (r : result unit)
| StoreSet (up : bool).

Section Histories.
Context `{PyLib}.

Definition run_op (op : db_op) (db : Database) : db_call * Database :=
  match op with
  | OpCreateUser salt u p =>
      let '(r, db') := create_user salt u p db in (Created salt u p db r, db')
  | OpSaveMessage now u c =>
      let '(r, db') := save_message now u c db in (Saved now u c db r, db')
  | OpStore up => (StoreSet up, set_online up db)
  end.

Fixpoint run_ops (ops : list db_op) (db : Database) : list db_call * Database :=
  match ops with
  | [] => ([], db)
  | op :: rest =>
      let '(c, db1) := run_op op db in
      let '(cs, db2) := run_ops rest db1 in
      (c :: cs, db2)
  end.
End Histories.

(** The calls of [create_user] for [u] that returned [True]. *)
Definition created_ok (u : string) (c : db_call) : bool :=
  match c with
  | Created _ u' _ _ (Ok true) => bool_decide (u' = u)
  | _ => false
  end.

(** The messages whose [save_message] returned, oldest first, as
    [(username, content, created_at)]. *)
Fixpoint saved_messages (log : list db_call) : list (string * string * string) :=
  match log with
  | [] => []
  | Saved now u c _ (Ok _) :: rest => (u, c, now) :: saved_messages rest
  | _ :: rest => saved_messages rest
  end.

(** The [n] last items of a list; all of them when [n] is negative, as
    [LIMIT] has it. *)
Definition most_recent {A : Type} (n : Z) (l : list A) : list A :=
  if n <? 0 then l else drop (List.length l - Z.to_nat n) l.

(** Timestamps in the format ["%Y-%m-%d %H:%M:%S"] compare as strings. *)
Definition timestamps_nondecreasing (l : list (string * string * string)) : Prop :=
  Sorted (fun a b => String.leb a b = true) (map snd l).

(** The rows of [messages] carry rowids that grow along the table and
    never pass the AUTOINCREMENT counter. *)
Definition wf_messages (db : Database) : Prop :=
  StronglySorted Z.lt (map message_id (messages db)) ∧
  Forall (fun i => i <= sqlite_sequence db) (map message_id (messages db)).

Definition row_tuple (row : message_row) : string * string * string :=
  (msg_username row, msg_content row, created_at row).

(** ** Observations on worlds and traces *)

(** Whether [sendall] on the socket succeeds. *)
Definition writable (w : World) (conn : nat) : bool :=
  match sockets w !! conn with
  | Some s => peer_ok s && negb (closed s)
  | None => false
  end.

(** What the peer of a socket was sent so far. *)
Definition received (w : World) (conn : nat) : list string :=
  match sockets w !! conn with
  | Some s => delivered s
  | None => []
  end.

(** The payloads a trace hands to [sendall] on one socket, in order. *)
Fixpoint payloads_to (conn : nat) (tr : list Event) : list string :=
  match tr with
  | [] => []
  | EvSendall c data :: rest =>
      if decide (c = conn) then data :: payloads_to conn rest
      else payloads_to conn rest
  | _ :: rest => payloads_to conn rest
  end.

(** The events a handler may cause before [username] is set: writes to
    its own socket and calls of [create_user] and [authenticate_user]
    that did not return [True] for a login. *)
Definition pre_auth_event (conn : nat) (ev : Event) : bool :=
  match ev with
  | EvSendall c _ => bool_decide (c = conn)
  | EvCreateUser _ _ _ => true
  | EvAuthenticate _ _ (Ok true) => false
  | EvAuthenticate _ _ _ => true
  | _ => false
  end.

(** The events of a session between login and teardown: everything but
    closing a socket, removing an entry of [clients] and the calls that
    belong to authentication. *)
Definition session_event (ev : Event) : bool :=
  match ev with
  | EvClose _ | EvRemove _ | EvAuthenticate _ _ _ | EvCreateUser _ _ _ => false
  | _ => true
  end.

(** A handler reached the state Authenticated when one of its calls of
    [authenticate_user] returned [True]. *)
Definition authenticated (tr : list Event) : Prop :=
  ∃ u pw, EvAuthenticate u pw (Ok true) ∈ tr.

(** The leave notice of the teardown, for the user [u]: the entry of the
    connection is removed from [clients] and [broadcast_message] is
    called next with the notice that [u] has left. *)
Definition leave_notice_at_teardown (conn : nat) (u : string) (tr : list Event) : Prop :=
  ∃ t1 t2,
    tr = t1 ++ EvRemove conn ::
               EvBroadcast "SYSTEM" (u +:+ " has left the chat.") :: t2.

(** [post m w Q]: running [m] in [w] ends in a result, a world and a
    trace that satisfy [Q]. *)
Definition post {A : Type} (m : M A) (w : World)
    (Q : result A -> World -> list Event -> Prop) : Prop :=
  let '(r, w1, t) := m w in Q r w1 t.

Definition is_close (ev : Event) : bool :=
  match ev with EvClose _ => true | _ => false end.


(** The payload of a broadcast: the line and its newline. *)
Definition broadcast_line (sender content : string) : string :=
  ("[" +:+ sender +:+ "] " +:+ content) +:+ LF.

(** Statements that cause session events only. *)
Definition session_only {A : Type} (m : M A) : Prop :=
  ∀ w, post m w (fun _ _ t => Forall (fun ev => session_event ev = true) t).

(** What the authentication loop leaves: events of the time before login
    only, but for the one successful call of [authenticate_user] that
    ends the loop and names the user. *)
Definition auth_shape (conn : nat) (r : result (option (string * list Read)))
    (t : list Event) : Prop :=
  match r with
  | Ok (Some (u, _)) =>
      ∃ t0 pw, t = t0 ++ [EvAuthenticate u pw (Ok true)] ∧
               Forall (fun ev => pre_auth_event conn ev = true) t0
  | _ => Forall (fun ev => pre_auth_event conn ev = true) t
  end.

(** The threads that run between the reads of a handler leave [clients]
    alone. *)
Definition quiet (input : list Read) : Prop :=
  Forall (fun rd => ∀ w, clients (before rd w) = clients w) input.

(** What a statement of the authentication phase leaves, [clients]
    being tracked under the assumption [P]. *)
Definition auth_post (conn : nat) (P : Prop) (w : World)
    (r : result (option (string * list Read))) (w1 : World) (t : list Event) : Prop :=
  auth_shape conn r t ∧ (P -> clients w1 = clients w).

(** Statements that cause events of the time before login only. *)
Definition pre_only (conn : nat) (P : Prop) {A : Type} (m : M A) : Prop :=
  ∀ w, post m w (fun _ w1 t =>
    Forall (fun ev => pre_auth_event conn ev = true) t ∧ (P -> clients w1 = clients w)).

(** ** The claim on passwords, and what decides it *)

(** A password of the characters 0 and 1. *)
Definition bits_password (bits : list bool) : string :=
  string_of_list_ascii (map (fun b : bool => if b then "1"%char else "0"%char) bits).

(** The key PBKDF2 derives with SHA-256 has the size of the digest, 32
    bytes ([dklen] is left to its default). *)
Definition sha256_key_size (L : PyLib) : Prop :=
  ∀ password salt iterations,
    List.length (pbkdf2_hmac "sha256" password salt iterations) = 32%nat.

(** "[authenticate_user(u, p)] is true iff [p] is the password the account
    was created with", on a store that holds no other account. *)
Definition accepts_only_same_password (L : PyLib) : Prop :=
  ∀ salt u p p',
    authenticate_user u p (create_user salt u p' fresh_db).2 = Ok true <-> p = p'.

(** ** database.py: [init_db] and the file it prepares *)

(** The file [chat.db] as SQLite finds it: each of the two tables exists
    or not. A [Database] is such a file with both tables. *)
Record DbFile : Type := {
  users_table : option (gmap string (string * string));
  messages_table : option (list message_row);
  file_sequence : Z;
  file_online : bool;
}.

(** The file [create_engine] makes when there is none. *)
Definition new_file : DbFile :=
  {| users_table := None; messages_table := None;
     file_sequence := 0; file_online := true |}.

(** [CREATE TABLE IF NOT EXISTS users (...)] *)
Definition create_users_if_not_exists (f : DbFile) : DbFile :=
  {| users_table := Some (default ∅ (users_table f));
     messages_table := messages_table f;
     file_sequence := file_sequence f;
     file_online := file_online f |}.

(** [CREATE TABLE IF NOT EXISTS messages (...)] *)
Definition create_messages_if_not_exists (f : DbFile) : DbFile :=
  {| users_table := users_table f;
     messages_table := Some (default [] (messages_table f));
     file_sequence := file_sequence f;
     file_online := file_online f |}.

(** [init_db()]: both statements in one transaction of [engine.begin()]. *)
Definition init_db (f : DbFile) : result unit * DbFile :=
  if file_online f then
    (Ok tt, create_messages_if_not_exists (create_users_if_not_exists f))
  else (Raise OperationalError, f).

(** The database the other functions of database.py work on, once both
    tables exist. *)
Definition opened (f : DbFile) : option Database :=
  match users_table f, messages_table f with
  | Some us, Some ms =>
      Some {| users := us; messages := ms;
              sqlite_sequence := file_sequence f; online := file_online f |}
  | _, _ => None
  end.

(** A character [bytes.hex] can print. *)
Definition is_lower_hex (c : ascii) : bool :=
  let n := nat_of_ascii c in
  (((48 <=? n) && (n <=? 57)) || ((97 <=? n) && (n <=? 102)))%nat.

(** The salts kept in [users] are strings [bytes.fromhex] reads. *)
Definition salts_readable (db : Database) : Prop :=
  ∀ u salt_hex hash_hex,
    users db !! u = Some (salt_hex, hash_hex) -> is_Some (fromhex salt_hex).

(** The rowids of [messages] are 1, 2, ... in the order of the rows, and
    the AUTOINCREMENT counter is the last of them. *)
Definition rowids_consecutive (db : Database) : Prop :=
  map message_id (messages db) =
    map Z.of_nat (seq 1 (List.length (messages db))) ∧
  sqlite_sequence db = Z.of_nat (List.length (messages db)).

(** ** Histories without the calls that failed *)

(** The call a log entry records. *)
Definition op_of (c : db_call) : db_op :=
  match c with
  | Created salt u p _ _ => OpCreateUser salt u p
  | Saved now u c _ _ => OpSaveMessage now u c
  | StoreSet up => OpStore up
  end.

(** The steps that changed the store: a [create_user] that returned
    [True], a [save_message] that returned, the store going down or
    coming back. *)
Definition took_effect (c : db_call) : bool :=
  match c with
  | Created _ _ _ _ (Ok true) => true
  | Saved _ _ _ _ (Ok _) => true
  | StoreSet _ => true
  | _ => false
  end.

(** ** server.py: what a handler may do *)

(** The events the handler of connection [conn] may cause when the user
    it logs in, if any, is [u]: it writes to sockets, calls
    [create_user] with a username and a password that are not empty,
    reads the history with the default limit, broadcasts the join and leave
    notices of [u] and what [u] typed (never a blank line, never the quit
    command), and touches no entry of [clients] and no socket but its
    own. *)
Definition handler_event (conn : nat) (u : string) (ev : Event) : Prop :=
  match ev with
  | EvSendall _ _ => True
  | EvCreateUser a b _ => a ≠ "" ∧ b ≠ ""
  | EvAuthenticate _ _ _ => True
  | EvSaveMessage s c _ | EvBroadcast s c =>
      (s = "SYSTEM" ∧ (c = u +:+ " has joined the chat." ∨
                       c = u +:+ " has left the chat.")) ∨
      (s = u ∧ c ≠ "" ∧ c ≠ "/quit")
  | EvRecentMessages limit => limit = 20
  | EvAppend c a => c = conn ∧ a = u
  | EvRemove c | EvClose c => c = conn
  end.

(** Statements all of whose events satisfy [P]. *)
Definition emits (P : Event -> Prop) {A : Type} (m : M A) : Prop :=
  ∀ w, post m w (fun _ _ t => Forall P t).

(** ** server.py: two calls of [broadcast_message] at once

    [handle_client] runs in one thread per connection, so two calls of
    [broadcast_message] can overlap. [clients_lock] is held for the
    snapshot only; the loop over the snapshot and [send_line] run without
    a lock. [conn.sendall(data)] is a loop of [send] calls: each hands
    the socket a piece from the front of what is left, as many bytes as
    the kernel takes, at least one. *)

Fixpoint str_take (n : nat) (s : string) : string :=
  match n, s with
  | S n, String c s => String c (str_take n s)
  | _, _ => EmptyString
  end.

Fixpoint str_drop (n : nat) (s : string) : string :=
  match n, s with
  | S n, String _ s => str_drop n s
  | _, _ => s
  end.

(** Where a thread stands in [broadcast_message]: before
    [save_message], before the snapshot under [clients_lock], at the head
    of the loop with the entries still to serve, inside [sendall] with
    the bytes not sent yet, or at its end. *)
Inductive Pc : Type :=
| AtSave (sender content : string)
| AtSnapshot (line : string)
| AtFor (line : string) (todo : list Client)
| InSendall (conn : nat) (unsent : string) (line : string) (todo : list Client)
| Returned
| Raised (e : exn).

(** One step of a thread. In [sendall] a step is one [send]: the socket
    takes the first [S taken] bytes of what is left (all of it when
    there is less), and they reach the peer as one piece; [OSError] ends
    the [sendall] and the loop goes on with the next entry. *)
Definition thread_step (taken : nat) (pc : Pc) (w : World) : Pc * World :=
  match pc with
  | AtSave sender content =>
      match call_save_message sender content w with
      | (Ok _, w1, _) => (AtSnapshot ("[" +:+ sender +:+ "] " +:+ content), w1)
      | (Raise e, w1, _) => (Raised e, w1)
      end
  | AtSnapshot line => (AtFor line (clients w), w)
  | AtFor line [] => (Returned, w)
  | AtFor line (client :: todo) =>
      (InSendall (client_conn client) (line +:+ LF) line todo, w)
  | InSendall conn EmptyString line todo => (AtFor line todo, w)
  | InSendall conn unsent line todo =>
      match sendall conn (str_take (S taken) unsent) w with
      | (Ok _, w1, _) => (InSendall conn (str_drop (S taken) unsent) line todo, w1)
      | (Raise OSError, w1, _) => (AtFor line todo, w1)
      | (Raise e, w1, _) => (Raised e, w1)
      end
  | Returned => (Returned, w)
  | Raised e => (Raised e, w)
  end.

(** Two threads and the world they share. *)
Record Conf : Type := {
  thread1 : Pc;
  thread2 : Pc;
  world : World;
}.

(** The scheduler picks the thread that takes the next step, and the
    kernel how much a [send] of that step takes. *)
Inductive Pick : Type :=
| First (taken : nat)
| Second (taken : nat).

Definition step (p : Pick) (c : Conf) : Conf :=
  match p with
  | First taken =>
      let '(pc, w) := thread_step taken (thread1 c) (world c) in
      {| thread1 := pc; thread2 := thread2 c; world := w |}
  | Second taken =>
      let '(pc, w) := thread_step taken (thread2 c) (world c) in
      {| thread1 := thread1 c; thread2 := pc; world := w |}
  end.

Definition run (schedule : list Pick) (c : Conf) : Conf :=
  fold_left (fun c p => step p c) schedule c.

Definition two_broadcasts (s1 c1 s2 c2 : string) (w : World) : Conf :=
  {| thread1 := AtSave s1 c1; thread2 := AtSave s2 c2; world := w |}.

Definition finished (pc : Pc) : bool :=
  match pc with Returned | Raised _ => true | _ => false end.

Definition taken_of (p : Pick) : nat :=
  match p with First k | Second k => k end.

(** The bytes a peer reads: the pieces it was sent, one after the
    other. *)
Fixpoint join (pieces : list string) : string :=
  match pieces with
  | [] => EmptyString
  | p :: rest => p +:+ join rest
  end.

Definition stream (w : World) (conn : nat) : string := join (received w conn).

(** Bytes that are whole lines out of [lines], one after the other. *)
Definition whole_lines (lines : list string) (s : string) : Prop :=
  ∃ ls, Forall (fun l => l ∈ lines) ls ∧ s = join ls.

(** A piece cut out of a line. *)
Definition piece_of (line piece : string) : Prop :=
  ∃ before after, line = before +:+ piece +:+ after.

(** C9 as the specification states it: whatever the schedule, once both
    broadcasts are over each socket has been sent whole lines only. *)
Definition writes_serialized : Prop :=
  ∀ (w : World) (s1 c1 s2 c2 : string) (schedule : list Pick) (conn : nat),
    let c' := run schedule (two_broadcasts s1 c1 s2 c2 w) in
    finished (thread1 c') = true -> finished (thread2 c') = true ->
    ∃ new, stream (world c') conn = stream w conn +:+ new ∧
           whole_lines [broadcast_line s1 c1; broadcast_line s2 c2] new.

(** What a thread that broadcasts the line [payload] keeps true: inside
    [sendall] the bytes not sent yet are an end of the line. *)
Definition pc_inv (payload : string) (pc : Pc) : Prop :=
  match pc with
  | AtSave sender content => broadcast_line sender content = payload
  | AtSnapshot line | AtFor line _ => line +:+ LF = payload
  | InSendall _ unsent line _ =>
      line +:+ LF = payload ∧ ∃ sent, payload = sent +:+ unsent
  | Returned | Raised _ => True
  end.

(** Inside [sendall] nothing of the line was sent yet, or all of it. *)
Definition pc_whole (payload : string) (pc : Pc) : Prop :=
  match pc with
  | InSendall _ unsent _ _ => unsent = payload ∨ unsent = EmptyString
  | _ => True
  end.

(** A schedule in which the first [send] of alice's line takes six
    bytes, and bob's line goes out before the rest of it. *)
Definition torn_schedule : list Pick :=
  [First 0; First 0; First 0; First 5;
   Second 0; Second 0; Second 0; Second 100; Second 0; Second 0; Second 0; Second 0;
   First 100; First 0; First 0; First 0; First 0].

(** A schedule in which the two threads alternate and every [send]
    takes all it is given. *)
Definition fair_schedule : list Pick :=
  [First 100; Second 100; First 100; Second 100; First 100; Second 100;
   First 100; Second 100; First 100; Second 100; First 100; Second 100;
   First 100; Second 100; First 100; Second 100].

(** * Proofs *)

(** ** Hexadecimal round trip *)

Lemma fromhex_hex_byte (b : byte) (s : string) :
  fromhex (hex [b] +:+ s) =
  match fromhex s with Some bs => Some (b :: bs) | None => None end.
Proof. destruct b; reflexivity. Qed.

Lemma hex_cons (b : byte) (bs : bytes) : hex (b :: bs) = hex [b] +:+ hex bs.
Proof. reflexivity. Qed.

Lemma fromhex_hex (bs : bytes) : fromhex (hex bs) = Some bs.
Proof.
  induction bs as [|b bs IH]; [reflexivity|].
  rewrite hex_cons, fromhex_hex_byte, IH. reflexivity.
Qed.

Lemma hex_inj (a b : bytes) : hex a = hex b -> a = b.
Proof.
  intros E. apply (f_equal fromhex) in E.
  rewrite !fromhex_hex in E. congruence.
Qed.

(** ** auth.py *)

Section AuthFacts.
Context `{PyLib}.

(** What [verify_password] answers on a pair made by [hash_password]:
    whether the two passwords derive the same key under the salt. *)
Lemma verify_hash_password (salt : bytes) (p p' : string) :
  verify_password p (hash_password salt p').1 (hash_password salt p').2 =
  Ok (bool_decide (pbkdf2_hmac "sha256" (encode_utf8 p) salt 100000 =
                   pbkdf2_hmac "sha256" (encode_utf8 p') salt 100000)).
Proof.
  unfold verify_password, hash_password. cbn [fst snd].
  rewrite fromhex_hex. f_equal.
  case_bool_decide as E.
  - rewrite E. apply String.eqb_refl.
  - apply String.eqb_neq. intros E'. apply E, hex_inj, E'.
Qed.

Lemma verify_own_password (salt : bytes) (p : string) :
  verify_password p (hash_password salt p).1 (hash_password salt p).2 = Ok true.
Proof. rewrite verify_hash_password. by rewrite bool_decide_eq_true_2. Qed.
End AuthFacts.

(** ** database.py: the table [users] *)

Section UsersFacts.
Context `{PyLib}.

Lemma create_user_unfold (salt : bytes) (u p : string) (db : Database) :
  create_user salt u p db =
  if online db then
    match users db !! u with
    | Some _ => (Ok false, db)
    | None =>
        (Ok true,
         {| users := <[u := hash_password salt p]> (users db);
            messages := messages db;
            sqlite_sequence := sqlite_sequence db;
            online := online db |})
    end
  else (Raise OperationalError, db).
Proof.
  unfold create_user, insert_user, hash_password.
  destruct (online db); [|reflexivity].
  destruct (users db !! u); reflexivity.
Qed.

(** An account, once in the table, stays as it is. *)
Lemma run_op_keeps_user (op : db_op) (db : Database) (u : string) (cred : string * string) :
  users db !! u = Some cred -> users (run_op op db).2 !! u = Some cred.
Proof.
  intros Hu. destruct op as [salt u' p'|now u' c|up]; cbn [run_op].
  - rewrite create_user_unfold.
    destruct (online db); [|exact Hu].
    destruct (users db !! u') eqn:Hu'; [exact Hu|].
    cbn. rewrite lookup_insert_ne; [exact Hu|]. congruence.
  - unfold save_message. destruct (online db); exact Hu.
  - exact Hu.
Qed.

Lemma run_ops_cons (op : db_op) (ops : list db_op) (db : Database) :
  run_ops (op :: ops) db =
  ((run_op op db).1 :: (run_ops ops (run_op op db).2).1,
   (run_ops ops (run_op op db).2).2).
Proof.
  cbn [run_ops]. destruct (run_op op db) as [c db1]. cbn [fst snd].
  destruct (run_ops ops db1) as [cs db2]. reflexivity.
Qed.

Lemma run_ops_keeps_user (ops : list db_op) (db : Database) (u : string)
    (cred : string * string) :
  users db !! u = Some cred -> users (run_ops ops db).2 !! u = Some cred.
Proof.
  revert db. induction ops as [|op ops IH]; intros db Hu; [exact Hu|].
  rewrite run_ops_cons. cbn [snd]. apply IH, run_op_keeps_user, Hu.
Qed.

(** Every entry of a log records the call as [create_user] answers it on
    the database the call met. *)
Lemma log_created (ops : list db_op) (db : Database) salt u p met r :
  Created salt u p met r ∈ (run_ops ops db).1 ->
  r = (create_user salt u p met).1.
Proof.
  revert db. induction ops as [|op ops IH]; intros db.
  - cbn. intros Hin. by apply elem_of_nil in Hin.
  - rewrite run_ops_cons. cbn [fst]. intros [Hhd|Htl]%elem_of_cons.
    + destruct op as [salt' u' p'|now u' c|up]; cbn [run_op] in Hhd.
      * destruct (create_user salt' u' p' db) as [r' db'] eqn:E.
        cbn in Hhd. injection Hhd as -> -> -> -> ->. by rewrite E.
      * destruct (save_message now u' c db). discriminate.
      * discriminate.
    + eapply IH, Htl.
Qed.

(** Once [u] has an account, no later [create_user] for [u] returns
    [True]. *)
Lemma taken_never_created (ops : list db_op) (db : Database) (u : string) :
  is_Some (users db !! u) ->
  Forall (fun c => created_ok u c = false) (run_ops ops db).1.
Proof.
  revert db. induction ops as [|op ops IH]; intros db [cred Hu].
  - constructor.
  - rewrite run_ops_cons. cbn [fst]. constructor.
    + destruct op as [salt u' p'|now u' c|up]; cbn [run_op].
      * rewrite create_user_unfold. destruct (online db); [|reflexivity].
        destruct (users db !! u') eqn:Hu'; [reflexivity|].
        cbn. apply bool_decide_eq_false. congruence.
      * unfold save_message. destruct (online db); reflexivity.
      * reflexivity.
    + apply IH. exists cred. apply run_op_keeps_user, Hu.
Qed.

(** A call that returned [True] for [u] left [u] in the table. *)
Lemma created_ok_taken (op : db_op) (db : Database) (u : string) :
  created_ok u (run_op op db).1 = true -> is_Some (users (run_op op db).2 !! u).
Proof.
  destruct op as [salt u' p'|now u' c|up]; cbn [run_op].
  - rewrite create_user_unfold. destruct (online db); [|discriminate].
    destruct (users db !! u') eqn:Hu'; [discriminate|].
    cbn. intros ->%bool_decide_eq_true. rewrite lookup_insert_eq. eauto.
  - unfold save_message. destruct (online db); discriminate.
  - discriminate.
Qed.

Lemma filter_created_nil (u : string) (log : list db_call) :
  Forall (fun c => created_ok u c = false) log ->
  filter (fun c => created_ok u c = true) log = [].
Proof.
  induction 1 as [|c log Hc _ IH]; [reflexivity|].
  rewrite filter_cons_False; [exact IH|]. congruence.
Qed.

Lemma created_at_most_once (ops : list db_op) (db : Database) (u : string) :
  (List.length (filter (fun c => created_ok u c = true) (run_ops ops db).1) <= 1)%nat.
Proof.
  revert db. induction ops as [|op ops IH]; intros db; [cbn; lia|].
  rewrite run_ops_cons. cbn [fst].
  destruct (created_ok u (run_op op db).1) eqn:E.
  - rewrite filter_cons_True by exact E.
    rewrite filter_created_nil; [cbn; lia|].
    apply taken_never_created, created_ok_taken, E.
  - rewrite filter_cons_False by congruence. apply IH.
Qed.
End UsersFacts.

(** C4. In every history of calls into the store, at most one call of
    [create_user] returns [True] per username, every other call with that
    username that returns a value returns [False], and a call returns
    [False] exactly when the username is already in the table [users] (it
    returns a value whenever the store answers). *)
Theorem create_user_at_most_once `{PyLib} (ops : list db_op) (db : Database) :
  let log := (run_ops ops db).1 in
  (∀ u, (List.length (filter (fun c => created_ok u c = true) log) <= 1)%nat) ∧
  (∀ (i j : nat) salt salt' u p p' met met' b,
      i ≠ j ->
      log !! i = Some (Created salt u p met (Ok true)) ->
      log !! j = Some (Created salt' u p' met' (Ok b)) ->
      b = false) ∧
  (∀ salt u p met r,
      Created salt u p met r ∈ log ->
      (online met = true -> r = Ok (bool_decide (users met !! u = None))) ∧
      (∀ b, r = Ok b -> (b = false <-> is_Some (users met !! u)))).
Proof.
  cbn zeta. split; [|split].
  - intros u. apply created_at_most_once.
  - revert db. induction ops as [|op ops IH]; intros db i j salt salt' u p p' met met' b Hij.
    + cbn. intros Hi. by rewrite lookup_nil in Hi.
    + rewrite run_ops_cons. cbn [fst].
      destruct i as [|i], j as [|j]; cbn [lookup list_lookup]; [done| | |].
      * intros [= Hhd] Hj.
        assert (Hok : created_ok u (run_op op db).1 = true).
        { rewrite Hhd. cbn. by apply bool_decide_eq_true. }
        pose proof (taken_never_created ops _ u (created_ok_taken _ _ _ Hok)) as Hall.
        rewrite Forall_forall in Hall.
        specialize (Hall _ (list_elem_of_lookup_2 _ _ _ Hj)).
        cbn in Hall. destruct b; [|reflexivity].
        apply bool_decide_eq_false in Hall. congruence.
      * intros Hi [= Hhd]. destruct b; [|reflexivity].
        assert (Hok : created_ok u (run_op op db).1 = true).
        { rewrite Hhd. cbn. by apply bool_decide_eq_true. }
        pose proof (taken_never_created ops _ u (created_ok_taken _ _ _ Hok)) as Hall.
        rewrite Forall_forall in Hall.
        specialize (Hall _ (list_elem_of_lookup_2 _ _ _ Hi)).
        cbn in Hall. apply bool_decide_eq_false in Hall. congruence.
      * intros Hi Hj. eapply (IH _ i j); eauto.
  - intros salt u p met r Hin. apply log_created in Hin. subst r.
    rewrite create_user_unfold. destruct (online met).
    + destruct (users met !! u) as [cred|] eqn:Hu; cbn [fst]; split.
      * intros _. by rewrite bool_decide_eq_false_2.
      * intros b [= <-]. split; eauto.
      * intros _. by rewrite bool_decide_eq_true_2.
      * intros b [= <-]. split; [discriminate|]. intros [? ?]. discriminate.
    + cbn [fst]. split; [discriminate|]. intros b. discriminate.
Qed.

(** ** database.py: authentication *)

Section AuthenticationFacts.
Context `{PyLib}.

Lemma created_true_stored (op : db_op) (db : Database) salt u p met :
  (run_op op db).1 = Created salt u p met (Ok true) ->
  users (run_op op db).2 !! u = Some (hash_password salt p).
Proof.
  destruct op as [salt' u' p'|now u' c|up]; cbn [run_op].
  - rewrite create_user_unfold. destruct (online db); [|discriminate].
    destruct (users db !! u') eqn:Hu'; [discriminate|].
    cbn. intros [= -> -> -> _]. by rewrite lookup_insert_eq.
  - unfold save_message. destruct (online db); discriminate.
  - discriminate.
Qed.

(** The account of [u] holds the pair derived by the call that created
    it. *)
Lemma log_created_stored (ops : list db_op) (db : Database) salt u p met :
  Created salt u p met (Ok true) ∈ (run_ops ops db).1 ->
  users (run_ops ops db).2 !! u = Some (hash_password salt p).
Proof.
  revert db. induction ops as [|op ops IH]; intros db.
  - cbn. intros Hin. by apply elem_of_nil in Hin.
  - rewrite run_ops_cons. cbn [fst snd]. intros [Hhd|Htl]%elem_of_cons.
    + apply run_ops_keeps_user. eapply created_true_stored. symmetry. exact Hhd.
    + apply IH, Htl.
Qed.

Lemma not_created_unchanged (op : db_op) (db : Database) (u : string) :
  created_ok u (run_op op db).1 = false ->
  users (run_op op db).2 !! u = users db !! u.
Proof.
  destruct op as [salt' u' p'|now u' c|up]; cbn [run_op].
  - rewrite create_user_unfold. destruct (online db); [|reflexivity].
    destruct (users db !! u') eqn:Hu'; [reflexivity|].
    cbn. intros Hne%bool_decide_eq_false. by rewrite lookup_insert_ne.
  - unfold save_message. destruct (online db); reflexivity.
  - reflexivity.
Qed.

Lemma log_never_created (ops : list db_op) (db : Database) (u : string) :
  Forall (fun c => created_ok u c = false) (run_ops ops db).1 ->
  users (run_ops ops db).2 !! u = users db !! u.
Proof.
  revert db. induction ops as [|op ops IH]; intros db; [reflexivity|].
  rewrite run_ops_cons. cbn [fst snd]. intros [Hhd Htl]%Forall_cons.
  rewrite IH by exact Htl. apply not_created_unchanged, Hhd.
Qed.

Lemma authenticate_user_unfold (u p : string) (db : Database) :
  online db = true ->
  authenticate_user u p db =
  match users db !! u with
  | None => Ok false
  | Some (salt_hex, stored_hash_hex) => verify_password p salt_hex stored_hash_hex
  end.
Proof.
  intros Hon. unfold authenticate_user, _get_user_credentials. rewrite Hon.
  destruct (users db !! u) as [[? ?]|]; reflexivity.
Qed.
End AuthenticationFacts.

(** C5, as the code has it. After any history of the store,
    [authenticate_user(u, p)] returns [True] exactly when [p] derives,
    under the salt stored for [u], the key stored by the successful
    [create_user(u, p')]. So it returns [True] for [p = p'] (the pair made
    by [hash_password] verifies its own password), for another password
    only when the two derive the same key, and it returns [False] for a
    user that was never created. *)
Theorem authenticate_user_correct `{PyLib} (ops : list db_op) (db : Database)
    (u p : string) :
  let log := (run_ops ops db).1 in
  let db' := (run_ops ops db).2 in
  online db' = true ->
  (∀ salt p' met,
      Created salt u p' met (Ok true) ∈ log ->
      authenticate_user u p db' =
        Ok (bool_decide (pbkdf2_hmac "sha256" (encode_utf8 p) salt 100000 =
                         pbkdf2_hmac "sha256" (encode_utf8 p') salt 100000)) ∧
      (p = p' -> authenticate_user u p db' = Ok true) ∧
      verify_password p' (hash_password salt p').1 (hash_password salt p').2 = Ok true) ∧
  (users db !! u = None ->
   Forall (fun c => created_ok u c = false) log ->
   authenticate_user u p db' = Ok false).
Proof.
  cbn zeta. intros Hon. split.
  - intros salt p' met Hin.
    assert (Hauth : authenticate_user u p (run_ops ops db).2 =
      Ok (bool_decide (pbkdf2_hmac "sha256" (encode_utf8 p) salt 100000 =
                       pbkdf2_hmac "sha256" (encode_utf8 p') salt 100000))).
    { rewrite authenticate_user_unfold by exact Hon.
      rewrite (log_created_stored _ _ _ _ _ _ Hin).
      rewrite <- verify_hash_password.
      destruct (hash_password salt p'). reflexivity. }
    split; [exact Hauth|]. split.
    + intros ->. rewrite Hauth. by rewrite bool_decide_eq_true_2.
    + apply verify_own_password.
  - intros Hnone Hlog.
    rewrite authenticate_user_unfold by exact Hon.
    rewrite log_never_created by exact Hlog. by rewrite Hnone.
Qed.

(** *** Two passwords with one key *)

Lemma bits_password_inj (a b : list bool) : bits_password a = bits_password b -> a = b.
Proof.
  unfold bits_password. intros E.
  apply (f_equal list_ascii_of_string) in E.
  rewrite !list_ascii_of_string_of_list_ascii in E.
  revert b E. induction a as [|x a IH]; intros [|y b] E; try discriminate; [done|].
  cbn in E. injection E as Exy E. f_equal; [|by apply IH].
  by destruct x, y.
Qed.

Lemma byte_to_nat_lt (b : byte) : (Byte.to_nat b < 256)%nat.
Proof. pose proof (Byte.to_nat_bounded b). lia. Qed.

Lemma byte_to_nat_inj (a b : byte) : Byte.to_nat a = Byte.to_nat b -> a = b.
Proof.
  intros E. pose proof (Byte.of_to_nat a) as Ha. rewrite E, Byte.of_to_nat in Ha.
  congruence.
Qed.

(** There are more passwords of 257 characters than keys of 32 bytes:
    two of them derive the same key, whatever the salt. *)
Lemma kdf_collides (L : PyLib) (salt : bytes) :
  sha256_key_size L ->
  ∃ p p', p ≠ p' ∧
    pbkdf2_hmac "sha256" (encode_utf8 p) salt 100000 =
    pbkdf2_hmac "sha256" (encode_utf8 p') salt 100000.
Proof.
  intros Hsize.
  pose (tofin := fun b : byte => nat_to_fin (byte_to_nat_lt b)).
  assert (Htofin : Inj eq eq tofin).
  { intros a b E. apply byte_to_nat_inj.
    apply (f_equal fin_to_nat) in E. unfold tofin in E.
    by rewrite !fin_to_nat_to_fin in E. }
  pose (key := fun bits : list bool =>
    pbkdf2_hmac "sha256" (encode_utf8 (bits_password bits)) salt 100000).
  assert (Hlen : ∀ bits, List.length (tofin <$> key bits) = 32%nat).
  { intros bits. rewrite length_fmap. apply Hsize. }
  pose (f := fun x : {l : list bool | List.length l = 257%nat} =>
    (tofin <$> key (`x)) ↾ Hlen (`x) : {l : list (fin 256) | List.length l = 32%nat}).
  destruct (finite_pigeonhole f) as (x1 & x2 & Hne & Heq).
  { rewrite !list_card, bool_card, fin_card.
    change (256 ^ 32)%nat with ((2 ^ 8) ^ 32)%nat.
    rewrite <- Nat.pow_mul_r. apply Nat.pow_lt_mono_r; lia. }
  exists (bits_password (`x1)), (bits_password (`x2)). split.
  - intros E. apply Hne. apply (sig_eq_pi _). by apply bits_password_inj.
  - apply (f_equal proj1_sig) in Heq. cbn [proj1_sig f] in Heq.
    by apply (inj (fmap tofin)) in Heq.
Qed.

(** The size of the key is an assumption some library meets. *)
Lemma demo_lib_key_size : sha256_key_size demo_lib.
Proof.
  intros password salt iterations. unfold demo_lib, pbkdf2_hmac.
  rewrite length_take, !length_app, repeat_length. lia.
Qed.

(** C5 as stated fails. With keys of 32 bytes, whatever [pbkdf2_hmac]
    computes, some account accepts a password other than the one it was
    created with. *)
Lemma authenticate_user_accepts_collisions :
  ¬ ∃ L : PyLib, sha256_key_size L ∧ accepts_only_same_password L.
Proof.
  intros (L & Hsize & Hclaim).
  destruct (kdf_collides L [] Hsize) as (p & p' & Hne & Heq).
  apply Hne, (Hclaim [] "alice" p p').
  rewrite create_user_unfold. cbn [online fresh_db users snd].
  rewrite lookup_empty. cbn [snd].
  rewrite authenticate_user_unfold by reflexivity. cbn [users].
  rewrite lookup_insert_eq.
  pose proof (verify_hash_password [] p p') as Hv.
  destruct (hash_password [] p') as [s h]. cbn [fst snd] in Hv. rewrite Hv.
  by rewrite bool_decide_eq_true_2.
Qed.

(** ** database.py: the table [messages] *)

Lemma insert_desc_smallest (r : message_row) (l : list message_row) :
  Forall (fun r' => message_id r < message_id r') l ->
  insert_desc r l = l ++ [r].
Proof.
  induction 1 as [|r' l Hlt _ IH]; [reflexivity|].
  cbn [insert_desc]. destruct (Z.leb_spec (message_id r') (message_id r)); [lia|].
  by rewrite IH.
Qed.

(** On a table whose rowids grow, [ORDER BY message_id DESC] is the table
    read backwards. *)
Lemma order_by_id_desc_rev (rows : list message_row) :
  StronglySorted Z.lt (map message_id rows) ->
  order_by_id_desc rows = rev rows.
Proof.
  induction rows as [|r rows IH]; [reflexivity|].
  cbn [map]. intros Hs. apply StronglySorted_inv in Hs as [Hs Hall].
  cbn [order_by_id_desc fold_right rev].
  fold (order_by_id_desc rows). rewrite IH by exact Hs.
  apply insert_desc_smallest.
  rewrite Forall_forall. intros r' Hin.
  rewrite List.Forall_forall in Hall. apply Hall.
  apply in_map. apply in_rev. by apply list_elem_of_In.
Qed.

Lemma fold_max_bounded (seq : Z) (ids : list Z) :
  Forall (fun i => i <= seq) ids -> fold_right Z.max seq ids = seq.
Proof.
  induction 1 as [|i ids Hi _ IH]; [reflexivity|].
  cbn [fold_right]. rewrite IH. lia.
Qed.

Lemma StronglySorted_snoc (ids : list Z) (i : Z) :
  StronglySorted Z.lt ids -> Forall (fun j => j < i) ids ->
  StronglySorted Z.lt (ids ++ [i]).
Proof.
  induction 1 as [|j ids Hs IH Hall]; intros Hlt.
  - cbn. constructor; constructor.
  - apply Forall_cons in Hlt as [Hj Hlt]. cbn. constructor; [by apply IH|].
    apply List.Forall_app. split; [exact Hall|]. by constructor.
Qed.

Lemma save_message_unfold (now u c : string) (db : Database) :
  wf_messages db ->
  save_message now u c db =
  if online db then
    (Ok tt,
     {| users := users db;
        messages := messages db ++
          [{| message_id := 1 + sqlite_sequence db; msg_username := u;
              msg_content := c; created_at := now |}];
        sqlite_sequence := 1 + sqlite_sequence db;
        online := online db |})
  else (Raise OperationalError, db).
Proof.
  intros [_ Hb]. unfold save_message, next_message_id.
  by rewrite fold_max_bounded.
Qed.

Lemma save_message_wf (now u c : string) (db : Database) :
  wf_messages db -> wf_messages (save_message now u c db).2.
Proof.
  intros Hwf. rewrite save_message_unfold by exact Hwf.
  destruct (online db); [|exact Hwf]. destruct Hwf as [Hs Hb].
  split; cbn; rewrite map_app; cbn.
  - apply StronglySorted_snoc; [exact Hs|].
    eapply Forall_impl; [exact Hb|]. cbn. intros. lia.
  - apply Forall_app. split.
    + eapply Forall_impl; [exact Hb|]. cbn. intros. lia.
    + constructor; [lia|constructor].
Qed.

Lemma fresh_db_wf : wf_messages fresh_db.
Proof. split; cbn; constructor. Qed.

Section MessagesFacts.
Context `{PyLib}.

Lemma run_op_wf (op : db_op) (db : Database) :
  wf_messages db -> wf_messages (run_op op db).2.
Proof.
  intros Hwf. destruct op as [salt u p|now u c|up]; cbn [run_op].
  - rewrite create_user_unfold. destruct (online db); [|exact Hwf].
    destruct (users db !! u); exact Hwf.
  - pose proof (save_message_wf now u c db Hwf) as Hwf'.
    destruct (save_message now u c db). exact Hwf'.
  - exact Hwf.
Qed.

Lemma run_ops_wf (ops : list db_op) (db : Database) :
  wf_messages db -> wf_messages (run_ops ops db).2.
Proof.
  revert db. induction ops as [|op ops IH]; intros db Hwf; [exact Hwf|].
  rewrite run_ops_cons. cbn [snd]. apply IH, run_op_wf, Hwf.
Qed.

Lemma run_op_messages (op : db_op) (db : Database) :
  wf_messages db ->
  map row_tuple (messages (run_op op db).2) =
  map row_tuple (messages db) ++ saved_messages [(run_op op db).1].
Proof.
  intros Hwf. destruct op as [salt u p|now u c|up]; cbn [run_op].
  - rewrite create_user_unfold. destruct (online db); cbn; [|by rewrite app_nil_r].
    destruct (users db !! u); cbn; by rewrite app_nil_r.
  - rewrite save_message_unfold by exact Hwf.
    destruct (online db); cbn; [|by rewrite app_nil_r].
    by rewrite map_app.
  - cbn. by rewrite app_nil_r.
Qed.

Lemma saved_messages_cons (c : db_call) (log : list db_call) :
  saved_messages (c :: log) = saved_messages [c] ++ saved_messages log.
Proof. destruct c as [| ? ? ? ? [|]|]; reflexivity. Qed.

(** The table holds, in order, the messages whose save returned. *)
Lemma run_ops_messages (ops : list db_op) (db : Database) :
  wf_messages db ->
  map row_tuple (messages (run_ops ops db).2) =
  map row_tuple (messages db) ++ saved_messages (run_ops ops db).1.
Proof.
  revert db. induction ops as [|op ops IH]; intros db Hwf.
  - cbn. by rewrite app_nil_r.
  - rewrite run_ops_cons. cbn [fst snd].
    rewrite IH by (apply run_op_wf, Hwf).
    rewrite run_op_messages by exact Hwf.
    rewrite (saved_messages_cons (run_op op db).1 (run_ops ops (run_op op db).2).1).
    by rewrite <- app_assoc.
Qed.
End MessagesFacts.

Lemma most_recent_map {A B : Type} (f : A -> B) (n : Z) (l : list A) :
  map f (most_recent n l) = most_recent n (map f l).
Proof.
  unfold most_recent. destruct (n <? 0); [reflexivity|].
  by rewrite skipn_map, length_map.
Qed.

Lemma sqlite_integer_true (n : Z) : sqlite_integer n = true <-> - 2 ^ 63 <= n < 2 ^ 63.
Proof. unfold sqlite_integer. rewrite andb_true_iff, Z.leb_le, Z.ltb_lt. done. Qed.

Lemma sqlite_integer_false (n : Z) :
  sqlite_integer n = false <-> n < - 2 ^ 63 ∨ 2 ^ 63 <= n.
Proof. unfold sqlite_integer. rewrite andb_false_iff, Z.leb_gt, Z.ltb_ge. done. Qed.

Lemma rev_limit_rev {A : Type} (n : Z) (l : list A) :
  sqlite_integer n = true ->
  sql_limit n (rev l) = Ok (rev (most_recent n l)).
Proof.
  intros Hn. unfold sql_limit, most_recent. rewrite Hn. f_equal. destruct (n <? 0).
  - reflexivity.
  - rewrite firstn_rev. reflexivity.
Qed.

Lemma get_recent_messages_unfold (n : Z) (db : Database) :
  wf_messages db -> online db = true -> sqlite_integer n = true ->
  get_recent_messages n db = Ok (most_recent n (map row_tuple (messages db))).
Proof.
  intros [Hs _] Hon Hn. unfold get_recent_messages. rewrite Hon.
  rewrite order_by_id_desc_rev by exact Hs.
  rewrite rev_limit_rev by exact Hn. rewrite rev_involutive.
  f_equal. apply (most_recent_map row_tuple).
Qed.

(** Outside the 64 bits the limit cannot be bound: the call raises, with
    the store up, whatever the table holds. *)
Lemma get_recent_messages_overflow (n : Z) (db : Database) :
  online db = true -> sqlite_integer n = false ->
  get_recent_messages n db = Raise OverflowError.
Proof.
  intros Hon Hn. unfold get_recent_messages, sql_limit. by rewrite Hon, Hn.
Qed.

Lemma most_recent_length {A : Type} (n : Z) (l : list A) :
  0 <= n -> Z.of_nat (List.length (most_recent n l)) <= n.
Proof.
  intros Hn. unfold most_recent.
  destruct (Z.ltb_spec n 0); [lia|]. rewrite length_skipn. lia.
Qed.

Lemma Sorted_drop {A : Type} (R : A -> A -> Prop) (k : nat) (l : list A) :
  Sorted R l -> Sorted R (drop k l).
Proof.
  revert l. induction k as [|k IH]; intros l Hs; [exact Hs|].
  destruct l as [|a l]; [exact Hs|]. cbn. apply IH.
  by apply Sorted_inv in Hs as [Hs _].
Qed.

Lemma most_recent_timestamps (n : Z) (l : list (string * string * string)) :
  timestamps_nondecreasing l -> timestamps_nondecreasing (most_recent n l).
Proof.
  unfold timestamps_nondecreasing. rewrite most_recent_map.
  unfold most_recent. destruct (n <? 0); [done|]. apply Sorted_drop.
Qed.

(** C6, as the code has it. After any history of the store since
    [init_db] created it, and for every [n] that SQLite can take as an
    INTEGER ([-2^63 <= n < 2^63]), [get_recent_messages(n)] returns, oldest
    first in the order of their rowids, the [n] last messages whose save
    returned (all of them when [n] is negative, none missing, none
    added): at most [n] items for [n >= 0]. Their timestamps are
    non-decreasing when the clock readings of the successive saves are.
    For every other [n] the call raises [OverflowError] and returns
    nothing. *)
Theorem get_recent_messages_history `{PyLib} (ops : list db_op) (n : Z) :
  let log := (run_ops ops fresh_db).1 in
  let db := (run_ops ops fresh_db).2 in
  online db = true ->
  (- 2 ^ 63 <= n < 2 ^ 63 ->
   ∃ items,
     get_recent_messages n db = Ok items ∧
     items = most_recent n (saved_messages log) ∧
     (0 <= n -> Z.of_nat (List.length items) <= n) ∧
     (n < 0 -> items = saved_messages log) ∧
     (timestamps_nondecreasing (saved_messages log) -> timestamps_nondecreasing items)) ∧
  (n < - 2 ^ 63 ∨ 2 ^ 63 <= n -> get_recent_messages n db = Raise OverflowError).
Proof.
  cbn zeta. intros Hon. split.
  - intros Hn. eexists. split; [|split; [reflexivity|]].
    + rewrite get_recent_messages_unfold;
        [|apply run_ops_wf, fresh_db_wf|exact Hon|by apply sqlite_integer_true].
      rewrite run_ops_messages by apply fresh_db_wf. reflexivity.
    + split; [|split].
      * apply most_recent_length.
      * intros Hneg. unfold most_recent. by destruct (Z.ltb_spec n 0); [|lia].
      * apply most_recent_timestamps.
  - intros Hn. apply get_recent_messages_overflow; [exact Hon|].
    by apply sqlite_integer_false.
Qed.

(** C6 as stated fails. Two saves whose clock readings go backwards (the
    local time of [datetime.now()] does so when daylight saving ends) are
    returned in the order of their rowids, the later timestamp first; and
    with [n = -1] the query returns both rows, more than [n] items. *)
Lemma get_recent_messages_not_by_timestamp :
  let db1 := (save_message "2025-11-02 01:59:59" "alice" "one" fresh_db).2 in
  let db2 := (save_message "2025-11-02 01:00:00" "alice" "two" db1).2 in
  let items := [("alice", "one", "2025-11-02 01:59:59");
                ("alice", "two", "2025-11-02 01:00:00")] in
  get_recent_messages 2 db2 = Ok items ∧
  ¬ timestamps_nondecreasing items ∧
  get_recent_messages (-1) db2 = Ok items ∧
  ¬ (Z.of_nat (List.length items) <= -1).
Proof.
  cbn zeta. split; [reflexivity|]. split; [|split; [reflexivity|cbn; lia]].
  intros Hs. unfold timestamps_nondecreasing in Hs. cbn [map snd] in Hs.
  apply Sorted_inv in Hs as [_ Hhd]. apply HdRel_inv in Hhd.
  vm_compute in Hhd. discriminate.
Qed.

(** ** server.py: statements *)

Lemma bind_ok {A B : Type} (m : M A) (k : A -> M B) (w w1 : World) (a : A)
    (t1 : list Event) :
  m w = (Ok a, w1, t1) ->
  (m ≫= k) w = (let '(r, w2, t2) := k a w1 in (r, w2, t1 ++ t2)).
Proof. intros E. unfold mbind, M_bind. by rewrite E. Qed.

Lemma bind_raise {A B : Type} (m : M A) (k : A -> M B) (w w1 : World) (e : exn)
    (t1 : list Event) :
  m w = (Raise e, w1, t1) -> (m ≫= k) w = (Raise e, w1, t1).
Proof. intros E. unfold mbind, M_bind. by rewrite E. Qed.

Lemma sendall_writable (conn : nat) (data : string) (w : World) :
  writable w conn = true ->
  ∃ w', sendall conn data w = (Ok tt, w', [EvSendall conn data]) ∧
        engine w' = engine w ∧ clients w' = clients w ∧ clock w' = clock w ∧
        (∀ c, writable w' c = writable w c) ∧
        received w' conn = received w conn ++ [data] ∧
        (∀ c, c ≠ conn -> received w' c = received w c).
Proof.
  unfold writable, received, sendall. intros Hw.
  destruct (sockets w !! conn) as [s|] eqn:Hs; [|discriminate].
  rewrite Hw. eexists. split; [reflexivity|].
  repeat split; cbn.
  - intros c. destruct (decide (c = conn)) as [->|Hne].
    + by rewrite lookup_insert_eq, Hs.
    + by rewrite lookup_insert_ne.
  - by rewrite lookup_insert_eq.
  - intros c Hne. by rewrite lookup_insert_ne.
Qed.

Lemma sendall_broken (conn : nat) (data : string) (w : World) :
  writable w conn = false ->
  sendall conn data w = (Raise OSError, w, [EvSendall conn data]).
Proof.
  unfold writable, sendall. intros Hw.
  destruct (sockets w !! conn) as [s|]; [|reflexivity]. by rewrite Hw.
Qed.

(** The loop of [broadcast_message] over the snapshot: it ends normally,
    tries every entry once and in order, and each socket that can be
    written to gets the line once per entry that names it. *)
Lemma fanout_run (line : string) (cs : list Client) (w : World) :
  ∃ w',
    for_each cs (fun client => except_OSError (send_line (client_conn client) line)) w =
    (Ok tt, w', map (fun c => EvSendall (client_conn c) (line +:+ LF)) cs) ∧
    engine w' = engine w ∧ clients w' = clients w ∧ clock w' = clock w ∧
    (∀ c, writable w' c = writable w c) ∧
    (∀ c, received w' c =
          received w c ++
          if writable w c
          then repeat (line +:+ LF) (count_occ Nat.eq_dec (map client_conn cs) c)
          else []).
Proof.
  revert w. induction cs as [|cl cs IH]; intros w.
  - exists w. cbn. repeat split; try done.
    intros c. destruct (writable w c); by rewrite app_nil_r.
  - cbn [for_each map].
    destruct (writable w (client_conn cl)) eqn:Hw.
    + destruct (sendall_writable (client_conn cl) (line +:+ LF) w Hw)
        as (w1 & Hrun & He & Hc & Hk & Hwr & Hrc & Hro).
      destruct (IH w1) as (w2 & Hrun2 & He2 & Hc2 & Hk2 & Hwr2 & Hr2).
      exists w2. split.
      { erewrite bind_ok; [|unfold except_OSError, send_line; rewrite Hrun; reflexivity].
        cbn beta. rewrite Hrun2. reflexivity. }
      split; [congruence|]. split; [congruence|]. split; [congruence|]. split.
      * intros c. by rewrite Hwr2, Hwr.
      * intros c. rewrite Hr2, Hwr. cbn [count_occ].
        destruct (Nat.eq_dec (client_conn cl) c) as [<-|Hne].
        -- rewrite Hrc, Hw, <- app_assoc. reflexivity.
        -- rewrite Hro by congruence. reflexivity.
    + destruct (IH w) as (w2 & Hrun2 & He2 & Hc2 & Hk2 & Hwr2 & Hr2).
      exists w2. split.
      { erewrite bind_ok;
          [|unfold except_OSError, send_line; rewrite sendall_broken by exact Hw; reflexivity].
        cbn beta. rewrite Hrun2. reflexivity. }
      split; [congruence|]. split; [congruence|]. split; [congruence|].
      split; [exact Hwr2|].
      intros c. rewrite Hr2. cbn [count_occ].
      destruct (Nat.eq_dec (client_conn cl) c) as [<-|Hne]; [|reflexivity].
      by rewrite Hw.
Qed.

(** ** server.py: [broadcast_message] *)

Lemma call_save_message_online (sender content : string) (w : World) :
  online (engine w) = true ->
  call_save_message sender content w =
  (Ok tt,
   set_engine
     {| users := users (engine w);
        messages := messages (engine w) ++
          [{| message_id := next_message_id (engine w); msg_username := sender;
              msg_content := content; created_at := clock w |}];
        sqlite_sequence := next_message_id (engine w);
        online := online (engine w) |} w,
   [EvSaveMessage sender content (Ok tt)]).
Proof.
  intros Hon. unfold call_save_message, save_message. by rewrite Hon.
Qed.

(** A broadcast whose save returns. *)
Lemma broadcast_message_online (sender content : string) (w : World) :
  online (engine w) = true ->
  ∃ w',
    broadcast_message sender content w =
    (Ok tt, w',
     EvBroadcast sender content :: EvSaveMessage sender content (Ok tt) ::
     map (fun c => EvSendall (client_conn c) (broadcast_line sender content)) (clients w)) ∧
    engine w' = (save_message (clock w) sender content (engine w)).2 ∧
    clients w' = clients w ∧
    (∀ c, writable w' c = writable w c) ∧
    (∀ c, received w' c =
          received w c ++
          if writable w c
          then repeat (broadcast_line sender content)
                 (count_occ Nat.eq_dec (map client_conn (clients w)) c)
          else []).
Proof.
  intros Hon. unfold broadcast_message.
  pose proof (call_save_message_online sender content w Hon) as Hsave.
  set (w1 := set_engine _ w) in Hsave.
  destruct (fanout_run ("[" +:+ sender +:+ "] " +:+ content) (clients w) w1)
    as (w2 & Hrun & He & Hc & Hk & Hwr & Hr).
  exists w2. split.
  - erewrite bind_ok by reflexivity. cbn beta.
    erewrite bind_ok by exact Hsave. cbn beta zeta.
    erewrite bind_ok by reflexivity. cbn beta.
    change (clients w1) with (clients w). rewrite Hrun. reflexivity.
  - split; [|split; [|split]].
    + rewrite He. unfold save_message.
      destruct (online (engine w)); [reflexivity|discriminate].
    + rewrite Hc. reflexivity.
    + intros c. rewrite Hwr. reflexivity.
    + intros c. rewrite Hr. reflexivity.
Qed.

Lemma payloads_to_map (data : string) (cs : list Client) (c : nat) :
  payloads_to c (map (fun cl => EvSendall (client_conn cl) data) cs) =
  repeat data (count_occ Nat.eq_dec (map client_conn cs) c).
Proof.
  induction cs as [|cl cs IH]; [reflexivity|]. cbn.
  destruct (decide (client_conn cl = c)) as [E|E];
    destruct (Nat.eq_dec (client_conn cl) c); try contradiction; cbn; by rewrite IH.
Qed.

Lemma count_occ_NoDup (l : list nat) (c : nat) :
  NoDup l -> c ∈ l -> count_occ Nat.eq_dec l c = 1%nat.
Proof.
  intros Hnd Hin. apply NoDup_ListNoDup in Hnd.
  apply list_elem_of_In in Hin.
  pose proof (proj1 (List.NoDup_count_occ Nat.eq_dec l) Hnd c) as Hle.
  pose proof (proj1 (count_occ_In Nat.eq_dec l c) Hin). lia.
Qed.

(** C1. A broadcast taken while the store answers and a set of sessions
    is registered first saves the message, once, and then hands to every
    registered session, the sender's included, the line ["[sender]
    content"] exactly once: the trace is the save followed by one write
    per session, the table [messages] grows by the one row, and a session
    that can be written to receives the line once. *)
Theorem broadcast_message_fanout (sender content : string) (w : World) :
  online (engine w) = true ->
  NoDup (map client_conn (clients w)) ->
  ∃ w' tr,
    broadcast_message sender content w = (Ok tt, w', tr) ∧
    tr = EvBroadcast sender content :: EvSaveMessage sender content (Ok tt) ::
         map (fun c => EvSendall (client_conn c) (broadcast_line sender content)) (clients w) ∧
    messages (engine w') =
      messages (engine w) ++
      [{| message_id := next_message_id (engine w); msg_username := sender;
          msg_content := content; created_at := clock w |}] ∧
    ∀ cl, cl ∈ clients w ->
      payloads_to (client_conn cl) tr = [broadcast_line sender content] ∧
      (writable w (client_conn cl) = true ->
       received w' (client_conn cl) =
       received w (client_conn cl) ++ [broadcast_line sender content]).
Proof.
  intros Hon Hnd.
  destruct (broadcast_message_online sender content w Hon) as (w' & Hrun & He & Hc & Hwr & Hr).
  eexists w', _. split; [exact Hrun|]. split; [reflexivity|]. split.
  - rewrite He. unfold save_message. by rewrite Hon.
  - intros cl Hcl.
    assert (Hone : count_occ Nat.eq_dec (map client_conn (clients w)) (client_conn cl) = 1%nat).
    { apply count_occ_NoDup; [exact Hnd|]. by apply list_elem_of_fmap_2. }
    split.
    + cbn [payloads_to]. rewrite payloads_to_map, Hone. reflexivity.
    + intros Hw. rewrite Hr, Hw, Hone. reflexivity.
Qed.

(** C2. When the save of a broadcast raises, the broadcast raises the
    same exception at once: the loop over the sessions is not reached, no
    write is attempted and no socket receives anything. *)
Theorem broadcast_message_save_raises (sender content : string) (w w1 : World)
    (e : exn) (t1 : list Event) :
  call_save_message sender content w = (Raise e, w1, t1) ->
  broadcast_message sender content w = (Raise e, w1, EvBroadcast sender content :: t1) ∧
  t1 = [EvSaveMessage sender content (Raise e)] ∧
  (∀ c, payloads_to c (EvBroadcast sender content :: t1) = []) ∧
  sockets w1 = sockets w ∧
  (∀ c, received w1 c = received w c).
Proof.
  intros Hsave. split.
  - unfold broadcast_message. erewrite bind_ok by reflexivity. cbn beta.
    erewrite bind_raise by exact Hsave. reflexivity.
  - unfold call_save_message in Hsave.
    destruct (save_message (clock w) sender content (engine w)) as [r db].
    injection Hsave as -> <- <-. split; [reflexivity|].
    split; [reflexivity|]. split; [reflexivity|]. reflexivity.
Qed.

(** C3. In every broadcast whose save returned, a write that fails on one
    session is skipped for that session only: the broadcast still ends
    normally, it still tries every session of the snapshot in order, every
    session that can be written to gets the line, and a session that
    cannot be written to gets nothing. *)
Theorem broadcast_message_skips_failed_writes (sender content : string) (w : World) :
  online (engine w) = true ->
  ∃ w',
    broadcast_message sender content w =
    (Ok tt, w',
     EvBroadcast sender content :: EvSaveMessage sender content (Ok tt) ::
     map (fun c => EvSendall (client_conn c) (broadcast_line sender content)) (clients w)) ∧
    ∀ cl, cl ∈ clients w ->
      (writable w (client_conn cl) = false ->
       received w' (client_conn cl) = received w (client_conn cl)) ∧
      (writable w (client_conn cl) = true ->
       ∃ k, (0 < k)%nat ∧
         k = count_occ Nat.eq_dec (map client_conn (clients w)) (client_conn cl) ∧
         received w' (client_conn cl) =
         received w (client_conn cl) ++ repeat (broadcast_line sender content) k).
Proof.
  intros Hon.
  destruct (broadcast_message_online sender content w Hon) as (w' & Hrun & He & Hc & Hwr & Hr).
  exists w'. split; [exact Hrun|].
  intros cl Hcl. split; intros Hw; rewrite Hr, Hw.
  - apply app_nil_r.
  - eexists. split; [|split; reflexivity].
    apply count_occ_In, list_elem_of_In. by apply list_elem_of_fmap_2.
Qed.

(** ** server.py: the session between login and teardown *)

Lemma session_only_ret {A : Type} (a : A) : session_only (mret a).
Proof. intros w. cbn. constructor. Qed.

Lemma session_only_bind {A B : Type} (m : M A) (k : A -> M B) :
  session_only m -> (∀ a, session_only (k a)) -> session_only (m ≫= k).
Proof.
  intros Hm Hk w. specialize (Hm w). unfold post, mbind, M_bind in *.
  destruct (m w) as [[[a|e] w1] t1]; [|exact Hm].
  specialize (Hk a w1). unfold post in Hk.
  destruct (k a w1) as [[r w2] t2]. apply Forall_app. by split.
Qed.

Lemma session_only_send_line (conn : nat) (text : string) :
  session_only (send_line conn text).
Proof.
  intros w. unfold post, send_line, sendall.
  destruct (sockets w !! conn) as [s|]; [destruct (peer_ok s && negb (closed s))|];
    by repeat constructor.
Qed.

Lemma session_only_for_each {A : Type} (xs : list A) (body : A -> M unit) :
  (∀ x, session_only (body x)) -> session_only (for_each xs body).
Proof.
  intros Hb. induction xs as [|x xs IH]; cbn [for_each].
  - apply session_only_ret.
  - apply session_only_bind; [apply Hb|]. intros _. exact IH.
Qed.

Lemma session_only_broadcast (sender content : string) :
  session_only (broadcast_message sender content).
Proof.
  unfold broadcast_message.
  apply session_only_bind; [intros w; by repeat constructor|]. intros _.
  apply session_only_bind.
  { intros w. unfold post, call_save_message.
    destruct (save_message _ _ _ _). by repeat constructor. }
  intros _. apply session_only_bind; [intros w; by constructor|]. intros cs.
  apply session_only_for_each. intros cl w.
  pose proof (session_only_send_line (client_conn cl)
                ("[" +:+ sender +:+ "] " +:+ content) w) as Hs.
  unfold post, except_OSError in *. cbn zeta.
  destruct (send_line _ _ w) as [[[?|[]] ?] ?]; exact Hs.
Qed.

Section SessionFacts.
Context `{PyLib}.

Lemma session_only_readline {A : Type} (input : list Read) (at_eof : M A)
    (k : string -> list Read -> M A) :
  session_only at_eof -> (∀ x rest, session_only (k x rest)) ->
  session_only (readline input at_eof k).
Proof.
  intros He Hk. destruct input as [|rd rest]; [exact He|]. cbn [readline].
  apply session_only_bind; [intros w; by constructor|]. intros _.
  destruct (got rd) as [[|c x]|e]; [exact He|apply Hk|].
  intros w. by constructor.
Qed.

Lemma session_only_chat_loop (conn : nat) (username : string) (input : list Read) :
  session_only (chat_loop conn username input).
Proof.
  induction input as [|rd rest IH]; [apply session_only_ret|].
  cbn [chat_loop readline].
  apply session_only_bind; [intros w; by constructor|]. intros _.
  destruct (got rd) as [[|c x]|e];
    [apply session_only_ret| |intros w; by constructor].
  destruct (is_empty _); [exact IH|].
  destruct (String.eqb _ _); [apply session_only_send_line|].
  apply session_only_bind; [apply session_only_broadcast|]. intros _. exact IH.
Qed.

Lemma session_only_send_history (conn : nat) : session_only (send_history conn).
Proof.
  unfold send_history.
  apply session_only_bind; [apply session_only_send_line|]. intros _.
  apply session_only_bind; [intros w; by repeat constructor|]. intros history.
  apply session_only_bind; [|intros _; apply session_only_send_line].
  apply session_only_for_each. intros [[u c] t]. apply session_only_send_line.
Qed.

Lemma session_only_after_login (conn : nat) (username : string) (input : list Read) :
  session_only (after_login conn username input).
Proof.
  unfold after_login.
  repeat first
    [ apply session_only_chat_loop
    | apply session_only_send_line
    | apply session_only_send_history
    | apply session_only_broadcast
    | apply session_only_bind; [|intros ?] ].
  intros w. by repeat constructor.
Qed.
End SessionFacts.

(** ** server.py: the handler before login *)

Section AuthPhase.
Context `{PyLib}.
Variable conn : nat.
(** The assumption under which [clients] is tracked. *)
Variable P : Prop.

Lemma auth_shape_prefix (t1 t2 : list Event) r :
  Forall (fun ev => pre_auth_event conn ev = true) t1 ->
  auth_shape conn r t2 -> auth_shape conn r (t1 ++ t2).
Proof.
  intros H1 H2. unfold auth_shape in *.
  destruct r as [[[u rest]|]|e]; try (apply Forall_app; by split).
  destruct H2 as (t0 & pw & -> & H0). exists (t1 ++ t0), pw.
  split; [by rewrite <- app_assoc|]. apply Forall_app. by split.
Qed.

Lemma auth_bind {A : Type} (m : M A) (k : A -> M (option (string * list Read)))
    (w : World) :
  pre_only conn P m -> (∀ a w1, post (k a) w1 (auth_post conn P w1)) ->
  post (m ≫= k) w (auth_post conn P w).
Proof.
  intros Hm Hk. specialize (Hm w). unfold post, mbind, M_bind in *.
  destruct (m w) as [[[a|e] w1] t1].
  - specialize (Hk a w1). unfold post in Hk.
    destruct (k a w1) as [[r w2] t2]. destruct Hm as [Ht1 Hc1], Hk as [Ht2 Hc2].
    split; [by apply auth_shape_prefix|].
    intros HP. rewrite Hc2, Hc1; done.
  - destruct Hm as [Ht1 Hc1]. split; [exact Ht1|exact Hc1].
Qed.

Lemma pre_only_send_line (text : string) : pre_only conn P (send_line conn text).
Proof.
  intros w. unfold post, send_line, sendall.
  destruct (sockets w !! conn) as [s|]; [destruct (peer_ok s && negb (closed s))|];
    (split; [repeat constructor; cbn; by apply bool_decide_eq_true|done]).
Qed.

Lemma pre_only_create_user (u p : string) : pre_only conn P (call_create_user u p).
Proof.
  intros w. unfold post, call_create_user.
  destruct (create_user _ _ _ _) as [r db]. split; [by repeat constructor|done].
Qed.

Lemma auth_ret_None (w : World) : post (mret None) w (auth_post conn P w).
Proof. cbn. split; [constructor|done]. Qed.

Lemma auth_readline (input : list Read) (k : string -> list Read -> M _) (w : World) :
  (P -> quiet input) ->
  (∀ x rest w1,
      (P -> quiet rest) -> (List.length rest < List.length input)%nat ->
      post (k x rest) w1 (auth_post conn P w1)) ->
  post (readline input (mret None) k) w (auth_post conn P w).
Proof.
  intros Hq Hk. destruct input as [|rd rest]; [apply auth_ret_None|].
  cbn [readline]. apply auth_bind.
  - intros w0. cbn. split; [constructor|]. intros HP.
    specialize (Hq HP). apply Forall_cons in Hq as [Hrd _]. apply Hrd.
  - intros _ w1. destruct (got rd) as [[|c x]|e].
    + apply auth_ret_None.
    + apply Hk; [|cbn; lia]. intros HP. specialize (Hq HP).
      by apply Forall_cons in Hq as [_ Hq].
    + cbn. split; [constructor|done].
Qed.

(** The call of [authenticate_user] that decides the loop. *)
Lemma auth_authenticate (u pw : string) (rest : list Read)
    (retry : M (option (string * list Read))) (w : World) :
  (∀ w1, post retry w1 (auth_post conn P w1)) ->
  post (ok ← call_authenticate_user u pw ;
        if ok : bool then mret (Some (u, rest)) else retry) w (auth_post conn P w).
Proof.
  intros Hretry. unfold post, mbind, M_bind, call_authenticate_user.
  destruct (authenticate_user u pw (engine w)) as [[|]|e].
  - cbn. split; [|done]. exists [], pw. split; [reflexivity|constructor].
  - specialize (Hretry w). unfold post in Hretry.
    destruct (retry w) as [[r w2] t2]. destruct Hretry as [Ht Hc].
    split; [|exact Hc]. apply auth_shape_prefix; [by repeat constructor|exact Ht].
  - split; [by repeat constructor|done].
Qed.

Lemma auth_loop_post (n : nat) :
  ∀ (input : list Read) (w : World),
    (List.length input <= n)%nat -> (P -> quiet input) ->
    post (auth_loop conn input) w (auth_post conn P w).
Proof.
  induction n as [|n IH]; intros input w Hlen Hq.
  - destruct input; [apply auth_ret_None|cbn in Hlen; lia].
  - destruct input as [|rd input]; [apply auth_ret_None|].
    cbn [auth_loop]. apply auth_readline; [exact Hq|].
    intros command rest1 w1 Hq1 Hlen1. cbn in Hlen, Hlen1.
    destruct (String.eqb _ "register").
    + apply auth_bind; [apply pre_only_send_line|]. intros _ w2.
      apply auth_readline; [exact Hq1|]. intros uname rest2 w3 Hq2 Hlen2.
      apply auth_bind; [apply pre_only_send_line|]. intros _ w4.
      apply auth_readline; [exact Hq2|]. intros pw rest3 w5 Hq3 Hlen3.
      destruct (is_empty _ || is_empty _).
      * apply auth_bind; [apply pre_only_send_line|]. intros _ w6.
        apply IH; [lia|exact Hq3].
      * apply auth_bind; [apply pre_only_create_user|]. intros created w6.
        apply auth_bind; [destruct created; apply pre_only_send_line|]. intros _ w7.
        apply IH; [lia|exact Hq3].
    + destruct (String.eqb _ "login").
      * apply auth_bind; [apply pre_only_send_line|]. intros _ w2.
        apply auth_readline; [exact Hq1|]. intros uname rest2 w3 Hq2 Hlen2.
        apply auth_bind; [apply pre_only_send_line|]. intros _ w4.
        apply auth_readline; [exact Hq2|]. intros pw rest3 w5 Hq3 Hlen3.
        apply auth_authenticate. intros w6.
        apply auth_bind; [apply pre_only_send_line|]. intros _ w7.
        apply IH; [lia|exact Hq3].
      * apply auth_bind; [apply pre_only_send_line|]. intros _ w2.
        apply IH; [lia|exact Hq1].
Qed.

Lemma welcome_and_auth_post (input : list Read) (w : World) :
  (P -> quiet input) ->
  post (welcome_and_auth conn input) w (auth_post conn P w).
Proof.
  intros Hq. unfold welcome_and_auth.
  apply auth_bind; [apply pre_only_send_line|]. intros _ w1.
  apply auth_bind; [apply pre_only_send_line|]. intros _ w2.
  by apply (auth_loop_post (List.length input)).
Qed.
End AuthPhase.

(** ** server.py: teardown *)

Lemma broadcast_message_head (sender content : string) (w : World) :
  ∃ r w' t, broadcast_message sender content w = (r, w', EvBroadcast sender content :: t).
Proof.
  unfold broadcast_message. erewrite bind_ok by reflexivity. cbn beta.
  destruct ((call_save_message sender content ≫= _) w) as [[r w'] t].
  by exists r, w', t.
Qed.

Lemma finally_block_None (conn : nat) (w : World) :
  ∃ w', finally_block conn None w = (Ok tt, w', [EvClose conn]) ∧
        clients w' = clients w.
Proof. eexists. split; reflexivity. Qed.

Lemma finally_block_Some (conn : nat) (u : string) (w : World) :
  ∃ r w' tb closing,
    finally_block conn (Some u) w =
      (r, w', EvRemove conn :: EvBroadcast "SYSTEM" (u +:+ " has left the chat.") ::
              tb ++ closing) ∧
    Forall (fun ev => session_event ev = true) tb ∧
    ((r = Ok tt ∧ closing = [EvClose conn]) ∨ ((∃ e, r = Raise e) ∧ closing = [])).
Proof.
  unfold finally_block.
  set (w1 := set_clients (filter (fun c => client_conn c ≠ conn) (clients w)) w).
  assert (Hrm : clients_remove conn w = (Ok tt, w1, [EvRemove conn])) by reflexivity.
  destruct (broadcast_message_head "SYSTEM" (u +:+ " has left the chat.") w1)
    as (rb & w2 & tb & Hb).
  pose proof (session_only_broadcast "SYSTEM" (u +:+ " has left the chat.") w1) as Hs.
  unfold post in Hs. rewrite Hb in Hs. apply Forall_cons in Hs as [_ Hs].
  destruct rb as [[]|e].
  - exists (Ok tt), (close conn w2).1.2, tb, [EvClose conn].
    split; [|split; [exact Hs|left; done]].
    erewrite bind_ok; [|erewrite bind_ok by exact Hrm; cbn beta; rewrite Hb; reflexivity].
    reflexivity.
  - exists (Raise e), w2, tb, []. split; [|split; [exact Hs|right; eauto]].
    erewrite bind_raise; [|erewrite bind_ok by exact Hrm; cbn beta; rewrite Hb; reflexivity].
    by rewrite app_nil_r.
Qed.

(** The two ways a handler runs: it never logs in, and then only closes
    its socket; or it logs in as [u], and then its teardown removes its
    entry, broadcasts the leave notice and closes the socket when the
    broadcast returns. *)
Lemma handle_client_shape `{PyLib} (conn : nat) (addr : string) (input : list Read)
    (w : World) :
  post (handle_client conn addr input) w (fun r w' tr =>
    (∃ t0, tr = t0 ++ [EvClose conn] ∧
           Forall (fun ev => pre_auth_event conn ev = true) t0 ∧
           r = Ok tt ∧ (quiet input -> clients w' = clients w)) ∨
    (∃ u pw t0 t2 tb closing,
        tr = t0 ++ EvAuthenticate u pw (Ok true) ::
             t2 ++ EvRemove conn ::
             EvBroadcast "SYSTEM" (u +:+ " has left the chat.") :: tb ++ closing ∧
        Forall (fun ev => pre_auth_event conn ev = true) t0 ∧
        Forall (fun ev => session_event ev = true) t2 ∧
        Forall (fun ev => session_event ev = true) tb ∧
        ((r = Ok tt ∧ closing = [EvClose conn]) ∨ ((∃ e, r = Raise e) ∧ closing = [])))).
Proof.
  pose proof (welcome_and_auth_post conn (quiet input) input w (fun HP => HP)) as Hauth.
  unfold post, handle_client, mbind, M_bind, attempt in *.
  destruct (welcome_and_auth conn input w) as [[r1 w1] t1].
  destruct Hauth as [Hshape Hkept].
  assert (Hnone : ∀ r w' t,
    finally_block conn None w1 = (r, w', t) ->
    Forall (fun ev => pre_auth_event conn ev = true) t1 ->
    ∃ t0, t1 ++ t = t0 ++ [EvClose conn] ∧
          Forall (fun ev => pre_auth_event conn ev = true) t0 ∧
          r = Ok tt ∧ (quiet input -> clients w' = clients w)).
  { intros r w' t Hf Ht1.
    destruct (finally_block_None conn w1) as (w2 & Hf' & Hc).
    rewrite Hf' in Hf. injection Hf as <- <- <-.
    exists t1. repeat split; [exact Ht1|]. intros Hq. by rewrite Hc, Hkept. }
  destruct r1 as [[[u rest]|]|e].
  - unfold auth_shape in Hshape. destruct Hshape as (t0 & pw & -> & Ht0).
    pose proof (session_only_after_login conn u rest w1) as Hs2. unfold post in Hs2.
    destruct (after_login conn u rest w1) as [[r2 w2] t2]. cbn beta iota.
    destruct (finally_block_Some conn u w2) as (r & w' & tb & closing & Hf & Htb & Hr).
    rewrite Hf. cbn beta iota. right. exists u, pw, t0, t2, tb, closing.
    split; [|done]. rewrite <- !app_assoc. reflexivity.
  - destruct (finally_block conn None w1) as [[r w'] t] eqn:Hf. left.
    by apply Hnone.
  - destruct (finally_block conn None w1) as [[r w'] t] eqn:Hf. left.
    by apply Hnone.
Qed.

Lemma pre_auth_not_close (conn : nat) (ev : Event) :
  pre_auth_event conn ev = true -> is_close ev = false.
Proof. by destruct ev. Qed.

Lemma session_not_close (ev : Event) : session_event ev = true -> is_close ev = false.
Proof. by destruct ev. Qed.

(** A close event of a trace whose other events are no close events is
    its last event. *)
Lemma close_is_last (A t1 t2 : list Event) (x y : Event) :
  Forall (fun ev => is_close ev = false) A -> is_close y = true ->
  A ++ [x] = t1 ++ y :: t2 -> t1 = A ∧ y = x ∧ t2 = [].
Proof.
  intros HA Hy. revert t1. induction HA as [|a A Ha _ IH]; intros t1 E.
  - destruct t1 as [|b t1]; cbn in E.
    + injection E as <- <-. done.
    + injection E as _ E. by destruct t1.
  - destruct t1 as [|b t1]; cbn in E.
    + injection E as -> _. congruence.
    + injection E as <- E. destruct (IH _ E) as (-> & -> & ->). done.
Qed.

(** ** server.py: the list [clients] *)

(** C8, as the code has it. Adding a session to [clients] appends one
    entry whatever the list holds, so the list always grows by one; the
    connection has a single entry afterwards, and the connections stay
    distinct, when it had none before. *)
Theorem clients_append_adds_entry (conn : nat) (u : string) (w : World) :
  post (clients_append conn u) w (fun r w' tr =>
    r = Ok tt ∧ tr = [EvAppend conn u] ∧
    clients w' = clients w ++ [{| client_conn := conn; client_username := u |}] ∧
    List.length (clients w') = S (List.length (clients w)) ∧
    (conn ∉ map client_conn (clients w) ->
     NoDup (map client_conn (clients w)) ->
     NoDup (map client_conn (clients w')) ∧
     count_occ Nat.eq_dec (map client_conn (clients w')) conn = 1%nat)).
Proof.
  cbn. split; [done|]. split; [done|]. split; [done|].
  split; [rewrite length_app; cbn; lia|].
  intros Hnew Hnd. rewrite map_app. cbn [map].
  assert (Hnd' : NoDup (map client_conn (clients w) ++ [conn])).
  { apply NoDup_app. split; [exact Hnd|]. split.
    - intros c Hc ->%list_elem_of_singleton. by apply Hnew.
    - apply NoDup_singleton. }
  split; [exact Hnd'|].
  apply count_occ_NoDup; [exact Hnd'|]. apply elem_of_app. right. left.
Qed.

(** C8 as stated fails: adding the session of a connection that is
    already in [clients] leaves two entries for it. *)
Lemma clients_append_not_idempotent :
  let alice := {| client_conn := 1; client_username := "alice" |} in
  let w := {| engine := fresh_db; clients := [alice]; sockets := ∅;
              clock := "2025-01-01 12:00:00"; urandom16 := [] |} in
  clients (clients_append 1 "alice" w).1.2 = [alice; alice] ∧
  clients (clients_append 1 "alice" w).1.2 ≠ clients w.
Proof. cbn. split; [reflexivity|discriminate]. Qed.

(** ** server.py: broadcasts end up in the history *)






(** * Further properties of the code *)

(** ** auth.py: what [hash_password] returns, what [verify_password] refuses *)

Lemma hex_length (bs : bytes) : String.length (hex bs) = (2 * List.length bs)%nat.
Proof.
  induction bs as [|b bs IH]; [reflexivity|].
  cbn [hex String.length List.length]. lia.
Qed.

Lemma hex_lower (bs : bytes) :
  Forall (fun c => is_lower_hex c = true) (list_ascii_of_string (hex bs)).
Proof.
  induction bs as [|b bs IH]; [constructor|].
  cbn [hex list_ascii_of_string].
  constructor; [by destruct b|]. constructor; [by destruct b|]. exact IH.
Qed.

(** X1. The two strings [hash_password] returns are lowercase
    hexadecimal, two characters for every byte of the salt and of the
    derived key; [bytes.fromhex] reads the salt back from the first, and
    two salts never give the same first string. *)
Theorem hash_password_format `{PyLib} (salt : bytes) (password : string) :
  let '(salt_hex, hash_hex) := hash_password salt password in
  String.length salt_hex = (2 * List.length salt)%nat ∧
  String.length hash_hex =
    (2 * List.length (pbkdf2_hmac "sha256" (encode_utf8 password) salt 100000))%nat ∧
  Forall (fun c => is_lower_hex c = true) (list_ascii_of_string salt_hex) ∧
  Forall (fun c => is_lower_hex c = true) (list_ascii_of_string hash_hex) ∧
  fromhex salt_hex = Some salt ∧
  (∀ salt', (hash_password salt' password).1 = salt_hex -> salt' = salt).
Proof.
  unfold hash_password. split; [apply hex_length|]. split; [apply hex_length|].
  split; [apply hex_lower|]. split; [apply hex_lower|]. split; [apply fromhex_hex|].
  cbn [fst]. intros salt'. apply hex_inj.
Qed.

(** One character that is neither a hexadecimal digit nor white space
    makes [bytes.fromhex] fail, wherever it stands. *)
Lemma fromhex_bad_char (n : nat) :
  ∀ (s : string) (c : ascii),
    (String.length s <= n)%nat ->
    In c (list_ascii_of_string s) ->
    hex_value c = None -> is_ascii_space c = false ->
    fromhex s = None.
Proof.
  induction n as [|n IH]; intros s c Hlen Hin Hv Hs.
  - destruct s; [destruct Hin|cbn in Hlen; lia].
  - destruct s as [|a s]; [destruct Hin|]. cbn [fromhex].
    cbn [String.length] in Hlen.
    destruct (is_ascii_space a) eqn:Ha.
    + apply (IH s c); [lia| |done|done].
      destruct Hin as [->|Hin]; [congruence|exact Hin].
    + destruct s as [|d s]; [reflexivity|].
      destruct (hex_value a) as [hi|] eqn:Hhi; [|reflexivity].
      destruct (hex_value d) as [lo|] eqn:Hlo; [|reflexivity].
      assert (Hin' : In c (list_ascii_of_string s)).
      { destruct Hin as [->|[->|Hin]]; [congruence|congruence|exact Hin]. }
      cbn [String.length] in Hlen.
      rewrite (IH s c) by (done || lia).
      by destruct (Byte.of_nat _).
Qed.

(** X2. [verify_password] raises [ValueError], whatever the password and
    the stored hash, when the stored salt holds a character that is
    neither a hexadecimal digit nor ASCII white space: it does not answer
    [False] for a damaged salt. *)
Theorem verify_password_malformed_salt `{PyLib} (password salt_hex stored : string)
    (c : ascii) :
  In c (list_ascii_of_string salt_hex) ->
  hex_value c = None -> is_ascii_space c = false ->
  verify_password password salt_hex stored = Raise ValueError.
Proof.
  intros Hin Hv Hs. unfold verify_password.
  by rewrite (fromhex_bad_char (String.length salt_hex) salt_hex c).
Qed.

(** ** database.py: [init_db] *)

(** X3. [init_db] can be run again: a second run changes nothing. When
    the store answers it returns and both tables exist afterwards; when
    it does not, it raises and the file is as before. A table that exists
    keeps its rows, so a database that was in use is the same database
    afterwards; on a new file the result is the empty database. *)
Theorem init_db_keeps_data (f : DbFile) :
  init_db (init_db f).2 = init_db f ∧
  (file_online f = true ->
     (init_db f).1 = Ok tt ∧ is_Some (opened (init_db f).2)) ∧
  (file_online f = false -> init_db f = (Raise OperationalError, f)) ∧
  (∀ us, users_table f = Some us -> users_table (init_db f).2 = Some us) ∧
  (∀ ms, messages_table f = Some ms -> messages_table (init_db f).2 = Some ms) ∧
  (∀ db, opened f = Some db -> opened (init_db f).2 = Some db) ∧
  opened (init_db new_file).2 = Some fresh_db.
Proof.
  unfold init_db. destruct f as [us ms sq on]. cbn.
  destruct on; cbn.
  - split; [by destruct us, ms|]. split; [split; [done|by destruct us, ms; cbn; eauto]|].
    split; [done|]. split; [by intros ? ->|]. split; [by intros ? ->|].
    split; [|done]. intros db. unfold opened. cbn. by destruct us, ms.
  - split; [done|]. split; [done|]. split; [done|]. split; [done|]. split; [done|].
    split; done.
Qed.

(** ** database.py: the store over a history *)

Lemma save_message_cases (now u c : string) (db : Database) :
  (online db = true ∧
   save_message now u c db =
   (Ok tt,
    {| users := users db;
       messages := messages db ++
         [{| message_id := next_message_id db; msg_username := u;
             msg_content := c; created_at := now |}];
       sqlite_sequence := next_message_id db;
       online := online db |})) ∨
  (online db = false ∧ save_message now u c db = (Raise OperationalError, db)).
Proof. unfold save_message. destruct (online db); [left|right]; done. Qed.

Section StoreFacts.
Context `{PyLib}.

Lemma run_op_messages_prefix (op : db_op) (db : Database) :
  messages db `prefix_of` messages (run_op op db).2.
Proof.
  destruct op as [salt u p|now u c|up]; cbn [run_op].
  - rewrite create_user_unfold. destruct (online db); [|done].
    by destruct (users db !! u).
  - destruct (save_message_cases now u c db) as [[_ ->]|[_ ->]]; cbn [snd messages].
    + by apply prefix_app_r.
    + done.
  - done.
Qed.

Lemma op_of_run_op (op : db_op) (db : Database) : op_of (run_op op db).1 = op.
Proof.
  destruct op as [salt u p|now u c|up]; cbn [run_op].
  - by destruct (create_user salt u p db).
  - by destruct (save_message now u c db).
  - done.
Qed.

Lemma run_op_no_effect (op : db_op) (db : Database) :
  took_effect (run_op op db).1 = false -> (run_op op db).2 = db.
Proof.
  destruct op as [salt u p|now u c|up]; cbn [run_op].
  - rewrite create_user_unfold. destruct (online db); [|done].
    by destruct (users db !! u).
  - by destruct (save_message_cases now u c db) as [[_ ->]|[_ ->]].
  - done.
Qed.

Lemma run_op_salts_readable (op : db_op) (db : Database) :
  salts_readable db -> salts_readable (run_op op db).2.
Proof.
  intros Hs. destruct op as [salt u p|now u c|up]; cbn [run_op].
  - rewrite create_user_unfold. destruct (online db); [|exact Hs].
    destruct (users db !! u) eqn:Hu; [exact Hs|]. cbn [snd].
    intros u' sh hh. cbn [users]. destruct (decide (u = u')) as [->|Hne].
    + rewrite lookup_insert_eq. intros [= <- _]. rewrite fromhex_hex. eauto.
    + rewrite lookup_insert_ne by done. apply Hs.
  - unfold save_message. destruct (online db); exact Hs.
  - exact Hs.
Qed.
End StoreFacts.

(** X4. Nothing in database.py deletes or rewrites: over any history of
    calls an account keeps the salt and hash it was stored with, the rows
    of [messages] stay where they are and new ones come after them. So
    the answer of [authenticate_user] for an account that exists is the
    same after the history as before it. *)
Theorem store_is_append_only `{PyLib} (ops : list db_op) (db : Database) :
  let db' := (run_ops ops db).2 in
  (∀ u cred, users db !! u = Some cred -> users db' !! u = Some cred) ∧
  messages db `prefix_of` messages db' ∧
  (List.length (messages db) <= List.length (messages db'))%nat ∧
  (∀ i row, messages db !! i = Some row -> messages db' !! i = Some row) ∧
  (online db = true -> online db' = true ->
   ∀ u p, is_Some (users db !! u) ->
     authenticate_user u p db' = authenticate_user u p db).
Proof.
  cbn zeta.
  assert (Hpre : messages db `prefix_of` messages (run_ops ops db).2).
  { revert db. induction ops as [|op ops IH]; intros db; [done|].
    rewrite run_ops_cons. cbn [snd].
    etrans; [apply run_op_messages_prefix|apply IH]. }
  split; [intros u cred; apply run_ops_keeps_user|]. split; [exact Hpre|].
  split; [by apply prefix_length|]. split.
  - intros i row Hi. by eapply prefix_lookup_Some.
  - intros Hon Hon' u p [cred Hu].
    rewrite !authenticate_user_unfold by done.
    by rewrite (run_ops_keeps_user ops db u cred Hu), Hu.
Qed.

(** X5. A call that fails leaves no trace in the store: running only the
    calls of a history that took effect (the [create_user] that returned
    [True], the [save_message] that returned, the changes of
    availability) goes through the same steps with the same answers and
    ends in the same database as the whole history. *)
Theorem failed_calls_change_nothing `{PyLib} (ops : list db_op) (db : Database) :
  let log := (run_ops ops db).1 in
  let effective := filter (fun c => took_effect c = true) log in
  run_ops (map op_of effective) db = (effective, (run_ops ops db).2).
Proof.
  cbn zeta. revert db. induction ops as [|op ops IH]; intros db; [reflexivity|].
  rewrite run_ops_cons. cbn [fst snd].
  destruct (took_effect (run_op op db).1) eqn:E.
  - rewrite filter_cons_True by done. cbn [map].
    rewrite run_ops_cons, op_of_run_op, IH. reflexivity.
  - rewrite filter_cons_False by (by rewrite E).
    rewrite (run_op_no_effect op db E). apply IH.
Qed.

(** X6. The two tables do not interfere: saving a message changes no
    answer of [authenticate_user], creating an account changes no answer
    of [get_recent_messages], and a [create_user] and a [save_message]
    leave the same tables in either order. *)
Theorem tables_do_not_interfere `{PyLib} (db : Database) :
  (∀ now a c u p,
     authenticate_user u p (save_message now a c db).2 = authenticate_user u p db) ∧
  (∀ salt a b n,
     get_recent_messages n (create_user salt a b db).2 = get_recent_messages n db) ∧
  (∀ salt a b now u c,
     messages (save_message now u c (create_user salt a b db).2).2 =
     messages (create_user salt a b (save_message now u c db).2).2 ∧
     users (save_message now u c (create_user salt a b db).2).2 =
     users (create_user salt a b (save_message now u c db).2).2).
Proof.
  split; [|split].
  - intros now a c u p.
    by destruct (save_message_cases now a c db) as [[Hon ->]|[_ ->]].
  - intros salt a b n. rewrite create_user_unfold.
    destruct (online db) eqn:Hon; [|done].
    destruct (users db !! a); [done|].
    unfold get_recent_messages. cbn. by rewrite Hon.
  - intros salt a b now u c. rewrite !create_user_unfold. unfold save_message.
    destruct (online db) eqn:Hon; cbn; rewrite ?Hon; [|done].
    destruct (users db !! a); cbn; by rewrite ?Hon.
Qed.

(** ** database.py: the rowids of [messages] *)

Lemma fold_max_consecutive (k : nat) :
  fold_right Z.max (Z.of_nat k) (map Z.of_nat (seq 1 k)) = Z.of_nat k.
Proof.
  apply fold_max_bounded. rewrite Forall_forall. intros i Hi.
  apply list_elem_of_fmap in Hi as (j & -> & Hj).
  apply elem_of_seq in Hj. lia.
Qed.

Lemma save_message_consecutive (now u c : string) (db : Database) :
  rowids_consecutive db -> rowids_consecutive (save_message now u c db).2.
Proof.
  intros [Hids Hseq]. unfold save_message, next_message_id.
  destruct (online db); [|done]. cbn [snd].
  rewrite Hids, Hseq, fold_max_consecutive.
  split; cbn [messages sqlite_sequence].
  - rewrite map_app, length_app, Hids. cbn [List.length map].
    rewrite Nat.add_1_r, seq_S, map_app. cbn. do 3 f_equal. lia.
  - rewrite length_app. cbn. lia.
Qed.

Lemma run_ops_consecutive `{PyLib} (ops : list db_op) (db : Database) :
  rowids_consecutive db -> rowids_consecutive (run_ops ops db).2.
Proof.
  revert db. induction ops as [|op ops IH]; intros db Hc; [exact Hc|].
  rewrite run_ops_cons. cbn [snd]. apply IH.
  destruct op as [salt u p|now u c|up]; cbn [run_op].
  - rewrite create_user_unfold. destruct (online db); [|exact Hc].
    by destruct (users db !! u).
  - pose proof (save_message_consecutive now u c db Hc) as Hc'.
    by destruct (save_message now u c db).
  - exact Hc.
Qed.

(** X7. On a database that started empty the rowids count the saves:
    after any history the table holds one row for every [save_message]
    that returned and none for one that raised, the row at place [i] has
    [message_id] [i + 1] and is the [i]-th message saved, no two rows
    share an id, and the AUTOINCREMENT counter is the number of rows. *)
Theorem message_ids_count_the_saves `{PyLib} (ops : list db_op) :
  let log := (run_ops ops fresh_db).1 in
  let db := (run_ops ops fresh_db).2 in
  List.length (messages db) = List.length (saved_messages log) ∧
  sqlite_sequence db = Z.of_nat (List.length (saved_messages log)) ∧
  (∀ (i : nat) row, messages db !! i = Some row ->
     message_id row = Z.of_nat (S i) ∧
     saved_messages log !! i = Some (row_tuple row)) ∧
  NoDup (map message_id (messages db)).
Proof.
  cbn zeta.
  assert (Hc : rowids_consecutive (run_ops ops fresh_db).2).
  { apply run_ops_consecutive. by split. }
  pose proof (run_ops_messages ops fresh_db fresh_db_wf) as Hm.
  cbn [fresh_db messages map app] in Hm.
  assert (Hlen : List.length (messages (run_ops ops fresh_db).2) =
                 List.length (saved_messages (run_ops ops fresh_db).1)).
  { by rewrite <- Hm, length_map. }
  destruct Hc as [Hids Hseq].
  split; [exact Hlen|]. split; [by rewrite Hseq, Hlen|]. split.
  - intros i row Hi. split.
    + assert (Hid : map message_id (messages (run_ops ops fresh_db).2) !! i
                    = Some (message_id row)).
      { by rewrite list_lookup_fmap, Hi. }
      rewrite Hids, list_lookup_fmap in Hid.
      destruct (seq 1 _ !! i) as [j|] eqn:Hj; [|done].
      apply lookup_seq in Hj as [-> _]. cbn in Hid. injection Hid as <-. lia.
    + rewrite <- Hm, list_lookup_fmap, Hi. done.
  - rewrite Hids. apply NoDup_fmap; [intros a b; lia|]. apply NoDup_seq.
Qed.

(** ** database.py: what [authenticate_user] and [get_recent_messages] return *)

(** X8. On a database filled by [create_user] and [save_message] alone,
    [authenticate_user] returns [True] or [False] whenever the store
    answers, for every username and password (the empty ones and
    usernames never seen among them); it raises [OperationalError] when
    the store is down, and never the [ValueError] of a salt that cannot
    be read, since every stored salt was written by [hash_password]. *)
Theorem authenticate_user_returns `{PyLib} (ops : list db_op) (u p : string) :
  let db := (run_ops ops fresh_db).2 in
  (online db = true -> ∃ b, authenticate_user u p db = Ok b) ∧
  (online db = false -> authenticate_user u p db = Raise OperationalError) ∧
  authenticate_user u p db ≠ Raise ValueError.
Proof.
  cbn zeta.
  assert (Hs : salts_readable (run_ops ops fresh_db).2).
  { generalize fresh_db (ltac:(by intros ? ? ? ?) : salts_readable fresh_db).
    induction ops as [|op ops IH]; intros db Hdb; [exact Hdb|].
    rewrite run_ops_cons. cbn [snd]. apply IH, run_op_salts_readable, Hdb. }
  set (db := (run_ops ops fresh_db).2) in *.
  assert (Hon : online db = true -> ∃ b, authenticate_user u p db = Ok b).
  { intros Hon. rewrite authenticate_user_unfold by exact Hon.
    destruct (users db !! u) as [[sh hh]|] eqn:Hu; [|eauto].
    destruct (Hs _ _ _ Hu) as [salt Hsalt]. unfold verify_password. rewrite Hsalt. eauto. }
  split; [exact Hon|]. split.
  - intros Hoff. unfold authenticate_user, _get_user_credentials. by rewrite Hoff.
  - destruct (online db) eqn:E.
    + destruct (Hon eq_refl) as [b ->]. done.
    + unfold authenticate_user, _get_user_credentials. by rewrite E.
Qed.

(** X9. The limit of [get_recent_messages] at its bounds, the limit
    being an SQLite INTEGER: with limit 0 the list is empty; with a limit
    that is at least the number of stored messages all of them are
    returned; a larger limit returns what a smaller one returns, with
    older messages in front; and for every positive limit the last item
    is the newest row of the table. A limit of [2^63] or more, or below
    [-2^63], cannot be bound: the call raises [OverflowError]. *)
Theorem get_recent_messages_limits (db : Database) (n m : Z) :
  wf_messages db -> online db = true ->
  get_recent_messages 0 db = Ok [] ∧
  (Z.of_nat (List.length (messages db)) <= n < 2 ^ 63 ->
     get_recent_messages n db = Ok (map row_tuple (messages db))) ∧
  (0 <= n <= m -> m < 2 ^ 63 ->
     ∃ some more, get_recent_messages n db = Ok some ∧
                  get_recent_messages m db = Ok (more ++ some)) ∧
  (0 < n < 2 ^ 63 -> ∀ row, last (messages db) = Some row ->
     ∃ some, get_recent_messages n db = Ok some ∧ last some = Some (row_tuple row)) ∧
  (n < - 2 ^ 63 ∨ 2 ^ 63 <= n -> get_recent_messages n db = Raise OverflowError).
Proof.
  intros Hwf Hon.
  set (l := map row_tuple (messages db)).
  assert (Hl : List.length l = List.length (messages db)) by apply length_map.
  assert (Hget : ∀ k, - 2 ^ 63 <= k < 2 ^ 63 ->
                      get_recent_messages k db = Ok (most_recent k l)).
  { intros k Hk. apply get_recent_messages_unfold; [done|done|].
    by apply sqlite_integer_true. }
  split; [|split; [|split; [|split]]].
  - rewrite Hget by lia. unfold most_recent. cbn. rewrite Nat.sub_0_r. by rewrite drop_all.
  - intros Hn. rewrite Hget by lia. unfold most_recent. destruct (Z.ltb_spec n 0); [lia|].
    replace (List.length l - Z.to_nat n)%nat with 0%nat by lia. done.
  - intros Hnm Hm. rewrite !Hget by lia. unfold most_recent.
    destruct (Z.ltb_spec n 0); [lia|]. destruct (Z.ltb_spec m 0); [lia|].
    set (a := (List.length l - Z.to_nat m)%nat).
    set (b := (List.length l - Z.to_nat n)%nat).
    exists (drop b l), (take (b - a) (drop a l)).
    split; [done|]. f_equal.
    rewrite <- (take_drop (b - a) (drop a l)) at 1.
    f_equal. rewrite drop_drop. f_equal. subst a b.
    generalize (List.length l). intros L. lia.
  - intros Hn row Hlast. rewrite Hget by lia. eexists. split; [done|].
    unfold most_recent. destruct (Z.ltb_spec n 0); [lia|].
    apply last_Some in Hlast as [l' Hl']. subst l. rewrite Hl', map_app. cbn [map].
    rewrite length_app, length_map. cbn [List.length].
    rewrite drop_app_le by (rewrite length_map; lia).
    by rewrite last_snoc.
  - intros Hn. apply get_recent_messages_overflow; [exact Hon|].
    by apply sqlite_integer_false.
Qed.

(** ** server.py: removing an entry of [clients] *)

Lemma remove_conn_absent (conn : nat) (cs : list Client) :
  (conn ∉ map client_conn cs) -> filter (fun c => client_conn c ≠ conn) cs = cs.
Proof.
  induction cs as [|cl cs IH]; [done|]. cbn [map]. intros Hnot.
  apply not_elem_of_cons in Hnot as [Hne Hnot].
  rewrite filter_cons_True by done. by rewrite IH.
Qed.

Lemma remove_conn_gone (conn : nat) (cs : list Client) :
  conn ∉ map client_conn (filter (fun c => client_conn c ≠ conn) cs).
Proof.
  intros Hin. apply list_elem_of_fmap in Hin as (cl & -> & Hcl).
  apply list_elem_of_filter in Hcl as [Hne _]. done.
Qed.

Lemma remove_conn_length (conn : nat) (cs : list Client) :
  NoDup (map client_conn cs) -> conn ∈ map client_conn cs ->
  S (List.length (filter (fun c => client_conn c ≠ conn) cs)) = List.length cs.
Proof.
  induction cs as [|cl cs IH]; cbn [map]; intros Hnd Hin.
  - by apply elem_of_nil in Hin.
  - apply NoDup_cons in Hnd as [Hcl Hnd].
    destruct (decide (client_conn cl = conn)) as [E|E].
    + rewrite filter_cons_False by (intros Hne; by apply Hne). cbn [List.length].
      rewrite remove_conn_absent; [done|]. by rewrite <- E.
    + rewrite filter_cons_True by done. cbn [List.length]. f_equal. apply IH; [done|].
      apply elem_of_cons in Hin as [Hin|Hin]; [congruence|done].
Qed.

Lemma remove_conn_NoDup (conn : nat) (cs : list Client) :
  NoDup (map client_conn cs) ->
  NoDup (map client_conn (filter (fun c => client_conn c ≠ conn) cs)).
Proof.
  intros Hnd. eapply sublist_NoDup; [exact Hnd|].
  apply fmap_sublist, sublist_filter.
Qed.

(** X10. The removal of the [finally] block takes every entry of the
    connection out of [clients], however many there are, and no other:
    the entries that stay are those of the other connections, in their
    order. It changes nothing when the connection has no entry, takes
    exactly one entry when connections are distinct, never raises, and a
    second removal changes nothing more. Store and sockets are not
    touched. *)
Theorem clients_remove_removes_all (conn : nat) (w : World) :
  post (clients_remove conn) w (fun r w' tr =>
    r = Ok tt ∧ tr = [EvRemove conn] ∧
    (conn ∉ map client_conn (clients w')) ∧
    (∀ cl, cl ∈ clients w' <-> cl ∈ clients w ∧ client_conn cl ≠ conn) ∧
    clients w' `sublist_of` clients w ∧
    ((conn ∉ map client_conn (clients w)) -> clients w' = clients w) ∧
    (NoDup (map client_conn (clients w)) -> conn ∈ map client_conn (clients w) ->
     S (List.length (clients w')) = List.length (clients w)) ∧
    clients (clients_remove conn w').1.2 = clients w' ∧
    engine w' = engine w ∧ sockets w' = sockets w).
Proof.
  cbn. split; [done|]. split; [done|]. split; [apply remove_conn_gone|].
  split; [intros cl; rewrite list_elem_of_filter; tauto|].
  split; [apply sublist_filter|]. split; [apply remove_conn_absent|].
  split; [apply remove_conn_length|]. split; [|done].
  apply remove_conn_absent, remove_conn_gone.
Qed.

(** X11. Append and removal undo each other: a session that is added to
    [clients] and removed again leaves the list without any entry of its
    connection, and exactly as it was when the connection had no entry
    before. *)
Theorem clients_append_then_remove (conn : nat) (u : string) (w : World) :
  post (clients_append conn u ;; clients_remove conn) w (fun r w' tr =>
    r = Ok tt ∧ tr = [EvAppend conn u; EvRemove conn] ∧
    clients w' = filter (fun c => client_conn c ≠ conn) (clients w) ∧
    ((conn ∉ map client_conn (clients w)) -> clients w' = clients w)).
Proof.
  assert (E : filter (fun c => client_conn c ≠ conn)
                (clients w ++ [{| client_conn := conn; client_username := u |}]) =
              filter (fun c => client_conn c ≠ conn) (clients w)).
  { rewrite filter_app, filter_cons_False by (intros Hne; by apply Hne).
    rewrite filter_nil. apply app_nil_r. }
  unfold post, mbind, M_bind, clients_append, clients_remove. cbn [clients set_clients app].
  rewrite E. split; [done|]. split; [done|]. split; [done|]. apply remove_conn_absent.
Qed.

(** ** server.py: what [broadcast_message] leaves alone *)

Lemma broadcast_message_offline (sender content : string) (w : World) :
  online (engine w) = false ->
  ∃ w', broadcast_message sender content w =
        (Raise OperationalError, w',
         [EvBroadcast sender content; EvSaveMessage sender content (Raise OperationalError)]) ∧
        engine w' = engine w ∧ clients w' = clients w ∧ sockets w' = sockets w ∧
        clock w' = clock w.
Proof.
  intros Hoff. eexists. split.
  - unfold broadcast_message. erewrite bind_ok by reflexivity. cbn beta.
    erewrite bind_raise; [reflexivity|].
    unfold call_save_message, save_message. rewrite Hoff. reflexivity.
  - done.
Qed.

Lemma broadcast_message_clock (sender content : string) (w : World) :
  post (broadcast_message sender content) w (fun _ w' _ => clock w' = clock w).
Proof.
  unfold post. destruct (online (engine w)) eqn:Hon.
  - pose proof (call_save_message_online sender content w Hon) as Hsave.
    set (w1 := set_engine _ w) in Hsave.
    destruct (fanout_run ("[" +:+ sender +:+ "] " +:+ content) (clients w) w1)
      as (w2 & Hrun & _ & _ & Hk & _).
    unfold broadcast_message. erewrite bind_ok by reflexivity. cbn beta.
    erewrite bind_ok by exact Hsave. cbn beta zeta.
    erewrite bind_ok by reflexivity. cbn beta.
    change (clients w1) with (clients w). rewrite Hrun. exact Hk.
  - by destruct (broadcast_message_offline sender content w Hon) as (w' & -> & _ & _ & _ & Hk).
Qed.

(** X12. A broadcast changes neither [clients] nor the table [users]; it
    opens and closes no socket; what a peer had received stays, in front
    of what is new; a socket without an entry in [clients] receives
    nothing. It returns exactly when the store answers, whatever happens
    to the writes; otherwise it raises the error of [save_message], and
    then no row was added and no peer received anything. *)
Theorem broadcast_message_frame (sender content : string) (w : World) :
  post (broadcast_message sender content) w (fun r w' tr =>
    clients w' = clients w ∧
    users (engine w') = users (engine w) ∧
    (∀ c, writable w' c = writable w c) ∧
    (∀ c, received w c `prefix_of` received w' c) ∧
    (∀ c, c ∉ map client_conn (clients w) -> received w' c = received w c) ∧
    (r = Ok tt <-> online (engine w) = true) ∧
    (r ≠ Ok tt ->
       r = Raise OperationalError ∧ messages (engine w') = messages (engine w) ∧
       ∀ c, received w' c = received w c)).
Proof.
  unfold post. destruct (online (engine w)) eqn:Hon.
  - destruct (broadcast_message_online sender content w Hon) as (w' & -> & He & Hc & Hwr & Hr).
    split; [exact Hc|]. split.
    { rewrite He. unfold save_message. by rewrite Hon. }
    split; [exact Hwr|]. split.
    { intros c. rewrite Hr. by apply prefix_app_r. }
    split.
    { intros c Hc'. rewrite Hr.
      rewrite (proj1 (count_occ_not_In Nat.eq_dec _ c)).
      - destruct (writable w c); apply app_nil_r.
      - intros Hin. by apply Hc', list_elem_of_In. }
    split; [done|]. done.
  - destruct (broadcast_message_offline sender content w Hon) as (w' & -> & He & Hc & Hs & _).
    unfold writable, received. rewrite He, Hc, Hs. done.
Qed.

(** X13. Two broadcasts in a row, the store answering: every writable
    session in [clients] receives the line of the first before the line
    of the second (as many times each as it has entries), and the history
    ends with the two messages in the order of the calls. *)
Theorem broadcast_message_twice (s1 c1 s2 c2 : string) (w : World) :
  wf_messages (engine w) ->
  online (engine w) = true ->
  post (broadcast_message s1 c1 ;; broadcast_message s2 c2) w (fun r w' tr =>
    r = Ok tt ∧
    (∀ cl, cl ∈ clients w -> writable w (client_conn cl) = true ->
       ∃ k, (0 < k)%nat ∧
         received w' (client_conn cl) =
         received w (client_conn cl) ++
           repeat (broadcast_line s1 c1) k ++ repeat (broadcast_line s2 c2) k) ∧
    (∃ items, get_recent_messages 2 (engine w') = Ok items ∧
              items = [(s1, c1, clock w); (s2, c2, clock w)]) ∧
    clients w' = clients w).
Proof.
  intros Hwf Hon.
  destruct (broadcast_message_online s1 c1 w Hon) as (w1 & Hrun1 & He1 & Hc1 & Hwr1 & Hr1).
  assert (Hon1 : online (engine w1) = true).
  { rewrite He1. unfold save_message. by rewrite Hon. }
  destruct (broadcast_message_online s2 c2 w1 Hon1) as (w2 & Hrun2 & He2 & Hc2 & Hwr2 & Hr2).
  unfold post. erewrite bind_ok by exact Hrun1. cbn beta. rewrite Hrun2.
  split; [done|]. split; [|split].
  - intros cl Hcl Hw. eexists.
    split; [|rewrite Hr2, Hr1, Hwr1, Hw, Hc1, <- app_assoc; reflexivity].
    apply count_occ_In, list_elem_of_In. by apply list_elem_of_fmap_2.
  - assert (Hwf1 : wf_messages (engine w1)) by (rewrite He1; by apply save_message_wf).
    assert (Hwf2 : wf_messages (engine w2)).
    { rewrite He2. by apply save_message_wf. }
    assert (Hon2 : online (engine w2) = true).
    { rewrite He2. unfold save_message. by rewrite Hon1. }
    eexists. split; [apply get_recent_messages_unfold; done|].
    rewrite He2, save_message_unfold by done. rewrite Hon1. cbn [snd messages].
    rewrite He1, save_message_unfold by done. rewrite Hon. cbn [snd messages].
    rewrite !map_app. cbn [map row_tuple msg_username msg_content created_at].
    unfold most_recent. cbn [Z.ltb Z.compare Z.to_nat Pos.to_nat Pos.iter_op Init.Nat.add].
    rewrite <- app_assoc. cbn [app].
    rewrite drop_app_length'; [|rewrite length_app, length_map; cbn; lia].
    assert (Hclock : clock w1 = clock w).
    { pose proof (broadcast_message_clock s1 c1 w) as Hk. unfold post in Hk.
      by rewrite Hrun1 in Hk. }
    by rewrite Hclock.
  - by rewrite Hc2, Hc1.
Qed.

(** ** server.py: the [finally] block *)

Lemma close_effects (conn : nat) (w : World) :
  ∃ w', close conn w = (Ok tt, w', [EvClose conn]) ∧
        writable w' conn = false ∧
        clients w' = clients w ∧ engine w' = engine w ∧
        (∀ c, received w' c = received w c) ∧
        (∀ c, c ≠ conn -> writable w' c = writable w c).
Proof.
  eexists. split; [reflexivity|]. unfold writable, received. cbn [sockets set_sockets].
  split; [|split; [done|split; [done|split]]].
  - rewrite lookup_alter_eq. destruct (sockets w !! conn) as [s|]; [|done].
    cbn. apply andb_false_r.
  - intros c. destruct (decide (conn = c)) as [<-|Hne].
    + rewrite lookup_alter_eq. by destruct (sockets w !! conn).
    + by rewrite lookup_alter_ne.
  - intros c Hne. by rewrite lookup_alter_ne.
Qed.

Lemma payloads_to_app (conn : nat) (t1 t2 : list Event) :
  payloads_to conn (t1 ++ t2) = payloads_to conn t1 ++ payloads_to conn t2.
Proof.
  induction t1 as [|ev t1 IH]; [done|]. destruct ev; cbn; try exact IH.
  destruct (decide _); cbn; by rewrite IH.
Qed.

(** X14. The teardown of a session that had logged in as [u], the store
    answering and the connections in [clients] distinct: the block
    returns, the entry of the connection is gone from [clients] and the
    socket is closed; every other session in [clients] that can be
    written to receives the notice that [u] has left once, and the
    leaving session itself is sent nothing. *)
Theorem teardown_notifies_the_others (conn : nat) (u : string) (w : World) :
  online (engine w) = true ->
  NoDup (map client_conn (clients w)) ->
  post (finally_block conn (Some u)) w (fun r w' tr =>
    r = Ok tt ∧
    clients w' = filter (fun c => client_conn c ≠ conn) (clients w) ∧
    (conn ∈ map client_conn (clients w) ->
       S (List.length (clients w')) = List.length (clients w)) ∧
    writable w' conn = false ∧
    received w' conn = received w conn ∧
    (∀ cl, cl ∈ clients w -> client_conn cl ≠ conn ->
       writable w (client_conn cl) = true ->
       received w' (client_conn cl) =
       received w (client_conn cl) ++
         [broadcast_line "SYSTEM" (u +:+ " has left the chat.")]) ∧
    payloads_to conn tr = []).
Proof.
  intros Hon Hnd. unfold post, finally_block.
  set (w1 := set_clients (filter (fun c => client_conn c ≠ conn) (clients w)) w).
  assert (Hrm : clients_remove conn w = (Ok tt, w1, [EvRemove conn])) by reflexivity.
  destruct (broadcast_message_online "SYSTEM" (u +:+ " has left the chat.") w1 Hon)
    as (w2 & Hrun & He & Hc & Hwr & Hr).
  destruct (close_effects conn w2) as (w3 & Hclose & Hw3 & Hc3 & He3 & Hr3 & Hwr3).
  erewrite bind_ok; [|erewrite bind_ok by exact Hrm; cbn beta; rewrite Hrun; reflexivity].
  cbn beta. rewrite Hclose.
  assert (Hgone : count_occ Nat.eq_dec (map client_conn (clients w1)) conn = 0%nat).
  { apply count_occ_not_In. intros Hin. apply list_elem_of_In in Hin.
    by apply (remove_conn_gone conn (clients w)). }
  split; [done|]. split; [by rewrite Hc3, Hc|]. split.
  { intros Hin. rewrite Hc3, Hc. by apply remove_conn_length. }
  split; [exact Hw3|]. split.
  { rewrite Hr3, Hr, Hgone. destruct (writable w1 conn); apply app_nil_r. }
  split.
  - intros cl Hcl Hne Hw. rewrite Hr3, Hr.
    change (writable w1 (client_conn cl)) with (writable w (client_conn cl)).
    change (received w1 (client_conn cl)) with (received w (client_conn cl)).
    rewrite Hw, count_occ_NoDup; [done|by apply remove_conn_NoDup|].
    apply list_elem_of_fmap_2. by apply list_elem_of_filter.
  - cbn [app payloads_to]. rewrite payloads_to_app. cbn [payloads_to].
    rewrite payloads_to_map, Hgone. done.
Qed.

(** How the [finally] block leaves the world, with or without a user. *)
Lemma finally_block_end (conn : nat) (who : option string) (w : World) :
  post (finally_block conn who) w (fun r w' tr =>
    (r = Ok tt -> writable w' conn = false) ∧
    (is_Some who -> conn ∉ map client_conn (clients w')) ∧
    (∀ e, r = Raise e ->
       e = OperationalError ∧ is_Some who ∧ online (engine w') = false ∧
       writable w' conn = writable w conn)).
Proof.
  unfold post. destruct who as [u|].
  - unfold finally_block.
    set (w1 := set_clients (filter (fun c => client_conn c ≠ conn) (clients w)) w).
    assert (Hrm : clients_remove conn w = (Ok tt, w1, [EvRemove conn])) by reflexivity.
    assert (Hgone : conn ∉ map client_conn (clients w1)) by apply remove_conn_gone.
    destruct (online (engine w1)) eqn:Hon.
    + destruct (broadcast_message_online "SYSTEM" (u +:+ " has left the chat.") w1 Hon)
        as (w2 & Hrun & He & Hc & Hwr & Hr).
      destruct (close_effects conn w2) as (w3 & Hclose & Hw3 & Hc3 & He3 & Hr3 & Hwr3).
      erewrite bind_ok; [|erewrite bind_ok by exact Hrm; cbn beta; rewrite Hrun; reflexivity].
      cbn beta. rewrite Hclose.
      split; [done|]. split; [|done]. intros _. by rewrite Hc3, Hc.
    + destruct (broadcast_message_offline "SYSTEM" (u +:+ " has left the chat.") w1 Hon)
        as (w2 & Hrun & He & Hc & Hs & _).
      erewrite bind_raise; [|erewrite bind_ok by exact Hrm; cbn beta; rewrite Hrun; reflexivity].
      split; [done|]. split; [intros _; by rewrite Hc|].
      intros e [= <-]. split; [done|]. split; [by eexists|]. split; [by rewrite He|].
      unfold writable. by rewrite Hs.
  - destruct (close_effects conn w) as (w3 & Hclose & Hw3 & _).
    unfold finally_block. erewrite bind_ok by reflexivity. cbn beta. rewrite Hclose.
    split; [done|]. split; [by intros [? ?]|done].
Qed.

(** ** server.py: what a handler does, all in all *)

Lemma emits_ret (P : Event -> Prop) {A : Type} (a : A) : emits P (mret a).
Proof. intros w. cbn. constructor. Qed.

Lemma emits_bind (P : Event -> Prop) {A B : Type} (m : M A) (k : A -> M B) :
  emits P m -> (∀ a, emits P (k a)) -> emits P (m ≫= k).
Proof.
  intros Hm Hk w. specialize (Hm w). unfold post, mbind, M_bind in *.
  destruct (m w) as [[[a|e] w1] t1]; [|exact Hm].
  specialize (Hk a w1). unfold post in Hk.
  destruct (k a w1) as [[r w2] t2]. apply Forall_app. by split.
Qed.

Lemma emits_one (P : Event -> Prop) {A : Type} (m : M A) :
  (∀ w, ∃ ev, (m w).2 = [ev] ∧ P ev) -> emits P m.
Proof.
  intros Hm w. unfold post. destruct (Hm w) as (ev & E & Hev).
  destruct (m w) as [[r w1] t]. cbn in E. subst t. by repeat constructor.
Qed.

Lemma emits_send_line (P : Event -> Prop) (conn : nat) (text : string) :
  (∀ data, P (EvSendall conn data)) -> emits P (send_line conn text).
Proof.
  intros HP. apply emits_one. intros w. exists (EvSendall conn (text +:+ LF)).
  split; [|apply HP]. unfold send_line, sendall.
  destruct (sockets w !! conn) as [s|]; [destruct (peer_ok s && negb (closed s))|]; done.
Qed.

Lemma emits_for_each (P : Event -> Prop) {A : Type} (xs : list A) (body : A -> M unit) :
  (∀ x, emits P (body x)) -> emits P (for_each xs body).
Proof.
  intros Hb. induction xs as [|x xs IH]; cbn [for_each].
  - apply emits_ret.
  - apply emits_bind; [apply Hb|]. intros _. exact IH.
Qed.

Lemma emits_except_OSError (P : Event -> Prop) (m : M unit) :
  emits P m -> emits P (except_OSError m).
Proof.
  intros Hm w. specialize (Hm w). unfold post, except_OSError in *.
  by destruct (m w) as [[[?|[]] ?] ?].
Qed.

Lemma emits_broadcast (P : Event -> Prop) (sender content : string) :
  P (EvBroadcast sender content) ->
  (∀ r, P (EvSaveMessage sender content r)) ->
  (∀ c data, P (EvSendall c data)) ->
  emits P (broadcast_message sender content).
Proof.
  intros Hb Hs Hw. unfold broadcast_message.
  apply emits_bind; [apply emits_one; intros w; by exists (EvBroadcast sender content)|].
  intros _. apply emits_bind.
  { apply emits_one. intros w. unfold call_save_message.
    destruct (save_message _ _ _ _) as [r db]. by exists (EvSaveMessage sender content r). }
  intros _. apply emits_bind; [intros w; by constructor|]. intros cs.
  apply emits_for_each. intros cl. apply emits_except_OSError, emits_send_line. apply Hw.
Qed.

Lemma is_empty_false (s : string) : is_empty s = false -> s ≠ "".
Proof. by destruct s. Qed.

Section HandlerEvents.
Context `{PyLib}.
Variable conn : nat.
Variable u : string.

Lemma emits_readline (P : Event -> Prop) {A : Type} (input : list Read) (at_eof : M A)
    (k : string -> list Read -> M A) :
  emits P at_eof ->
  (∀ x rest, (List.length rest < List.length input)%nat -> emits P (k x rest)) ->
  emits P (readline input at_eof k).
Proof.
  intros He Hk. destruct input as [|rd rest]; [exact He|]. cbn [readline].
  apply emits_bind; [intros w; by constructor|]. intros _.
  destruct (got rd) as [[|c x]|e]; [exact He|apply Hk; cbn; lia|].
  intros w. by constructor.
Qed.

Lemma emits_auth_loop (n : nat) :
  ∀ input, (List.length input <= n)%nat ->
    emits (handler_event conn u) (auth_loop conn input).
Proof.
  induction n as [|n IH]; intros input Hlen.
  - destruct input; [apply emits_ret|cbn in Hlen; lia].
  - destruct input as [|rd input]; [apply emits_ret|].
    cbn [auth_loop]. apply emits_readline; [apply emits_ret|].
    intros command rest1 Hlen1. cbn in Hlen, Hlen1.
    destruct (String.eqb _ "register").
    + apply emits_bind; [by apply emits_send_line|]. intros _.
      apply emits_readline; [apply emits_ret|]. intros uname rest2 Hlen2.
      apply emits_bind; [by apply emits_send_line|]. intros _.
      apply emits_readline; [apply emits_ret|]. intros pw rest3 Hlen3.
      destruct (is_empty _ || is_empty _) eqn:Hempty.
      * apply emits_bind; [by apply emits_send_line|]. intros _. apply IH. lia.
      * apply orb_false_iff in Hempty as [Hu Hp].
        apply emits_bind.
        { apply emits_one. intros w. unfold call_create_user.
          destruct (create_user _ _ _ _) as [r db]. eexists. split; [reflexivity|].
          split; by apply is_empty_false. }
        intros created. apply emits_bind; [destruct created; by apply emits_send_line|].
        intros _. apply IH. lia.
    + destruct (String.eqb _ "login").
      * apply emits_bind; [by apply emits_send_line|]. intros _.
        apply emits_readline; [apply emits_ret|]. intros uname rest2 Hlen2.
        apply emits_bind; [by apply emits_send_line|]. intros _.
        apply emits_readline; [apply emits_ret|]. intros pw rest3 Hlen3.
        apply emits_bind; [apply emits_one; intros w; by eexists|]. intros ok.
        destruct ok; [apply emits_ret|].
        apply emits_bind; [by apply emits_send_line|]. intros _. apply IH. lia.
      * apply emits_bind; [by apply emits_send_line|]. intros _. apply IH. lia.
Qed.

Lemma emits_welcome_and_auth (input : list Read) :
  emits (handler_event conn u) (welcome_and_auth conn input).
Proof.
  unfold welcome_and_auth.
  apply emits_bind; [by apply emits_send_line|]. intros _.
  apply emits_bind; [by apply emits_send_line|]. intros _.
  by apply (emits_auth_loop (List.length input)).
Qed.

Lemma emits_chat_loop (input : list Read) :
  emits (handler_event conn u) (chat_loop conn u input).
Proof.
  induction input as [|rd rest IH]; [apply emits_ret|].
  cbn [chat_loop readline].
  apply emits_bind; [intros w; by constructor|]. intros _.
  destruct (got rd) as [[|c x]|e]; [apply emits_ret| |intros w; by constructor].
  destruct (is_empty _) eqn:Hempty; [exact IH|].
  destruct (String.eqb _ _) eqn:Hquit; [by apply emits_send_line|].
  apply is_empty_false in Hempty. apply String.eqb_neq in Hquit.
  apply emits_bind; [|intros _; exact IH].
  apply emits_broadcast; [by right|by right|done].
Qed.

Lemma emits_after_login (input : list Read) :
  emits (handler_event conn u) (after_login conn u input).
Proof.
  unfold after_login, send_history.
  repeat first
    [ apply emits_chat_loop
    | apply emits_send_line; done
    | apply emits_broadcast; [left; split; [done|by left]|left; split; [done|by left]|done]
    | apply emits_bind; [|intros ?] ].
  - apply emits_one. intros w. by eexists.
  - apply emits_one. intros w. by eexists.
  - apply emits_for_each. intros [[x1 x2] x3]. by apply emits_send_line.
Qed.

Lemma emits_finally_block (who : option string) :
  (∀ v, who = Some v -> v = u) ->
  emits (handler_event conn u) (finally_block conn who).
Proof.
  intros Hwho. unfold finally_block.
  apply emits_bind; [|intros _; apply emits_one; intros w; by eexists].
  destruct who as [v|]; [|apply emits_ret]. rewrite (Hwho v eq_refl).
  apply emits_bind; [apply emits_one; intros w; by eexists|]. intros _.
  apply emits_broadcast; [left; split; [done|by right]|left; split; [done|by right]|done].
Qed.
End HandlerEvents.

(** The events of a whole run of the handler: they are those of the one
    user it logs in, if any; without a login they are events of the time
    before login, and the close. *)
Lemma handle_client_events `{PyLib} (conn : nat) (addr : string) (input : list Read)
    (w : World) :
  post (handle_client conn addr input) w (fun _ _ tr =>
    ∃ u, Forall (handler_event conn u) tr ∧
         ((∃ pw, EvAuthenticate u pw (Ok true) ∈ tr) ∨
          Forall (fun ev => pre_auth_event conn ev = true ∨ ev = EvClose conn) tr)).
Proof.
  pose proof (welcome_and_auth_post conn (quiet input) input w (fun HP => HP)) as Hauth.
  assert (Hev : ∀ u, post (welcome_and_auth conn input) w
                       (fun _ _ t => Forall (handler_event conn u) t)).
  { intros u. apply emits_welcome_and_auth. }
  unfold post, handle_client, mbind, M_bind, attempt in *.
  destruct (welcome_and_auth conn input w) as [[r1 w1] t1].
  destruct Hauth as [Hshape _].
  assert (Hnone : ∀ r w' t,
    finally_block conn None w1 = (r, w', t) ->
    Forall (fun ev => pre_auth_event conn ev = true) t1 ->
    ∃ u, Forall (handler_event conn u) (t1 ++ t) ∧
         ((∃ pw, EvAuthenticate u pw (Ok true) ∈ t1 ++ t) ∨
          Forall (fun ev => pre_auth_event conn ev = true ∨ ev = EvClose conn) (t1 ++ t))).
  { intros r w' t Hf Ht1. exists "".
    pose proof (emits_finally_block conn "" None ltac:(done) w1) as Hfin.
    unfold post in Hfin. rewrite Hf in Hfin.
    split; [apply Forall_app; split; [apply Hev|exact Hfin]|]. right.
    destruct (finally_block_None conn w1) as (w2 & Hf' & _).
    rewrite Hf' in Hf. injection Hf as _ _ <-.
    apply Forall_app. split.
    - eapply Forall_impl; [exact Ht1|]. by left.
    - constructor; [by right|constructor]. }
  destruct r1 as [[[u rest]|]|e].
  - unfold auth_shape in Hshape. destruct Hshape as (t0 & pw & Ht1 & Ht0).
    pose proof (emits_after_login conn u rest w1) as Hs2. unfold post in Hs2.
    destruct (after_login conn u rest w1) as [[r2 w2] t2]. cbn beta iota.
    pose proof (emits_finally_block conn u (Some u) ltac:(by intros ? [= ->]) w2) as Hfin.
    unfold post in Hfin.
    destruct (finally_block conn (Some u) w2) as [[r3 w3] t3]. cbn beta iota.
    exists u. split.
    + apply Forall_app. split; [apply Hev|]. apply Forall_app. by split.
    + left. exists pw. rewrite Ht1. apply elem_of_app. left. apply elem_of_app. right. left.
  - destruct (finally_block conn None w1) as [[r w'] t] eqn:Hf.
    exact (Hnone r w' t eq_refl Hshape).
  - destruct (finally_block conn None w1) as [[r w'] t] eqn:Hf.
    exact (Hnone r w' t eq_refl Hshape).
Qed.

(** X15. A handler closes no socket but its own and removes no entry of
    [clients] but its own; what it appends to [clients] is an entry of
    its own connection under a username that [authenticate_user] accepted
    in this very run. This holds for every input, also when reads, writes
    or the store fail on the way. *)
Theorem handle_client_touches_own_session `{PyLib} (conn : nat) (addr : string)
    (input : list Read) (w : World) :
  post (handle_client conn addr input) w (fun _ _ tr =>
    (∀ c, EvClose c ∈ tr -> c = conn) ∧
    (∀ c, EvRemove c ∈ tr -> c = conn) ∧
    (∀ c a, EvAppend c a ∈ tr -> c = conn ∧ ∃ pw, EvAuthenticate a pw (Ok true) ∈ tr)).
Proof.
  pose proof (handle_client_events conn addr input w) as Hev. unfold post in *.
  destruct (handle_client conn addr input w) as [[r w'] tr].
  destruct Hev as (u & Hall & Hlogin). rewrite Forall_forall in Hall.
  split; [|split].
  - intros c Hin. exact (Hall _ Hin).
  - intros c Hin. exact (Hall _ Hin).
  - intros c a Hin. destruct (Hall _ Hin) as [-> ->]. split; [done|].
    destruct Hlogin as [Hlogin|Hpre]; [exact Hlogin|].
    rewrite Forall_forall in Hpre. by destruct (Hpre _ Hin).
Qed.

(** X16. The handler never calls [create_user] with an empty username or
    an empty password: a registration whose name or password is blank
    after [strip()] is answered with a message and does not reach the
    store. *)
Theorem handle_client_never_creates_empty_account `{PyLib} (conn : nat) (addr : string)
    (input : list Read) (w : World) :
  post (handle_client conn addr input) w (fun _ _ tr =>
    ∀ a b r, EvCreateUser a b r ∈ tr -> a ≠ "" ∧ b ≠ "").
Proof.
  pose proof (handle_client_events conn addr input w) as Hev. unfold post in *.
  destruct (handle_client conn addr input w) as [[r w'] tr].
  destruct Hev as (u & Hall & _). rewrite Forall_forall in Hall.
  intros a b r0 Hin. exact (Hall _ Hin).
Qed.

(** X17. Whatever a handler broadcasts, it broadcasts for the user that
    logged in on it: the join and the leave notice of that user under the
    sender SYSTEM, or a line the user typed under the user's name, which
    is never blank and never the command "/quit". *)
Theorem handle_client_broadcasts `{PyLib} (conn : nat) (addr : string)
    (input : list Read) (w : World) :
  post (handle_client conn addr input) w (fun _ _ tr =>
    ∀ s c, EvBroadcast s c ∈ tr ->
      ∃ u pw, EvAuthenticate u pw (Ok true) ∈ tr ∧
        ((s = "SYSTEM" ∧ (c = u +:+ " has joined the chat." ∨
                          c = u +:+ " has left the chat.")) ∨
         (s = u ∧ c ≠ "" ∧ c ≠ "/quit"))).
Proof.
  pose proof (handle_client_events conn addr input w) as Hev. unfold post in *.
  destruct (handle_client conn addr input w) as [[r w'] tr].
  destruct Hev as (u & Hall & Hlogin). rewrite Forall_forall in Hall.
  intros s c Hin. destruct Hlogin as [[pw Hpw]|Hpre].
  - exists u, pw. split; [exact Hpw|]. exact (Hall _ Hin).
  - rewrite Forall_forall in Hpre. by destruct (Hpre _ Hin).
Qed.

(** X18. A client that has not logged in gets nothing out of the chat:
    the handler reads the history (always with the limit 20), saves a
    message or writes to the socket of another session only in a run in
    which [authenticate_user] returned [True]. *)
Theorem handle_client_before_login `{PyLib} (conn : nat) (addr : string)
    (input : list Read) (w : World) :
  post (handle_client conn addr input) w (fun _ _ tr =>
    (∀ n, EvRecentMessages n ∈ tr -> n = 20 ∧ authenticated tr) ∧
    (∀ s c r, EvSaveMessage s c r ∈ tr -> authenticated tr) ∧
    (∀ c data, EvSendall c data ∈ tr -> c ≠ conn -> authenticated tr)).
Proof.
  pose proof (handle_client_events conn addr input w) as Hev. unfold post in *.
  destruct (handle_client conn addr input w) as [[r w'] tr].
  destruct Hev as (u & Hall & Hlogin). rewrite Forall_forall in Hall.
  assert (Hcase : authenticated tr ∨
    ∀ ev, ev ∈ tr -> pre_auth_event conn ev = true ∨ ev = EvClose conn).
  { destruct Hlogin as [[pw Hpw]|Hpre]; [left; by exists u, pw|right].
    by rewrite Forall_forall in Hpre. }
  split; [|split].
  - intros n Hin. split; [exact (Hall _ Hin)|].
    destruct Hcase as [Ha|Hpre]; [exact Ha|]. by destruct (Hpre _ Hin).
  - intros s c r0 Hin. destruct Hcase as [Ha|Hpre]; [exact Ha|]. by destruct (Hpre _ Hin).
  - intros c data Hin Hne. destruct Hcase as [Ha|Hpre]; [exact Ha|].
    destruct (Hpre _ Hin) as [Hc|Hc]; [|done]. cbn in Hc.
    by apply bool_decide_eq_true in Hc.
Qed.

Lemma pre_auth_not_authenticated (conn : nat) (t : list Event) :
  Forall (fun ev => pre_auth_event conn ev = true) t ->
  ¬ authenticated (t ++ [EvClose conn]).
Proof.
  intros Ht (u & pw & Hin). apply elem_of_app in Hin as [Hin|Hin].
  - rewrite Forall_forall in Ht. by specialize (Ht _ Hin).
  - by apply list_elem_of_singleton in Hin.
Qed.

(** X19. How a handler leaves the world. When it returns, its socket
    is closed, and closing was the last thing it did. When it had logged
    in, no entry of its connection is left in [clients], whether it
    returns or raises. It raises in one case only: the store does not
    answer when the leave notice is saved in the [finally] block; the
    error is that of [save_message], and then [conn.close()] is not
    reached: the handler closes no socket at all. *)
Theorem handle_client_end_state `{PyLib} (conn : nat) (addr : string)
    (input : list Read) (w : World) :
  post (handle_client conn addr input) w (fun r w' tr =>
    (r = Ok tt -> writable w' conn = false ∧ ∃ t0, tr = t0 ++ [EvClose conn]) ∧
    (authenticated tr -> conn ∉ map client_conn (clients w')) ∧
    (r ≠ Ok tt ->
       r = Raise OperationalError ∧ authenticated tr ∧
       online (engine w') = false ∧ (∀ c, EvClose c ∉ tr))).
Proof.
  pose proof (handle_client_shape conn addr input w) as Hshape.
  pose proof (welcome_and_auth_post conn (quiet input) input w (fun HP => HP)) as Hauth.
  unfold post, handle_client, mbind, M_bind, attempt in *.
  destruct (welcome_and_auth conn input w) as [[r1 w1] t1].
  destruct Hauth as [Hpre _].
  assert (Hnone : ∀ r w' t,
    finally_block conn None w1 = (r, w', t) ->
    Forall (fun ev => pre_auth_event conn ev = true) t1 ->
    (r = Ok tt -> writable w' conn = false ∧ ∃ t0, t1 ++ t = t0 ++ [EvClose conn]) ∧
    (authenticated (t1 ++ t) -> conn ∉ map client_conn (clients w')) ∧
    (r ≠ Ok tt ->
       r = Raise OperationalError ∧ authenticated (t1 ++ t) ∧
       online (engine w') = false ∧ (∀ c, EvClose c ∉ t1 ++ t))).
  { intros r w' t Hf Ht1.
    pose proof (finally_block_end conn None w1) as Hend. unfold post in Hend.
    destruct (finally_block_None conn w1) as (w2 & Hf' & _).
    rewrite Hf in Hend. rewrite Hf' in Hf. injection Hf as <- <- <-.
    destruct Hend as (Hok & _ & _).
    split; [intros _; split; [by apply Hok|by exists t1]|].
    split; [|done]. intros Ha. by destruct (pre_auth_not_authenticated conn t1 Ht1). }
  destruct r1 as [[[u rest]|]|e].
  - destruct (after_login conn u rest w1) as [[r2 w2] t2]. cbn beta iota in *.
    pose proof (finally_block_end conn (Some u) w2) as Hend. unfold post in Hend.
    destruct (finally_block conn (Some u) w2) as [[r3 w3] t3]. cbn beta iota in *.
    destruct Hend as (Hok & Hgone & Hraise).
    destruct Hshape as [(t0 & E & Ht0 & _)
                       |(u' & pw & t0 & t4 & tb & closing & E & Ht0 & Ht4 & Htb & Hr)].
    { exfalso. apply (pre_auth_not_authenticated conn t0 Ht0). rewrite <- E.
      unfold auth_shape in Hpre. destruct Hpre as (t0' & pw & -> & _).
      exists u, pw. apply elem_of_app. left. apply elem_of_app. right. left. }
    assert (Ha : authenticated (t1 ++ t2 ++ t3)).
    { rewrite E. exists u', pw. apply elem_of_app. right. left. }
    split; [|split].
    + intros ->. split; [by apply Hok|].
      destruct Hr as [[_ ->]|[[e He] _]]; [|done].
      rewrite E. eexists (t0 ++ EvAuthenticate u' pw (Ok true) :: t4 ++ EvRemove conn ::
                          EvBroadcast "SYSTEM" (u' +:+ " has left the chat.") :: tb).
      rewrite <- !app_assoc. cbn. rewrite <- !app_assoc. reflexivity.
    + intros _. apply Hgone. by eexists.
    + intros Hne. destruct r3 as [[]|e]; [done|].
      destruct (Hraise e eq_refl) as (-> & _ & Hoff & _).
      split; [done|]. split; [exact Ha|]. split; [exact Hoff|].
      destruct Hr as [[? _]|[_ ->]]; [done|]. rewrite E, app_nil_r.
      intros c Hin. apply elem_of_app in Hin as [Hin|Hin].
      * rewrite Forall_forall in Ht0. by specialize (Ht0 _ Hin).
      * apply elem_of_cons in Hin as [Hin|Hin]; [done|].
        apply elem_of_app in Hin as [Hin|Hin].
        { rewrite Forall_forall in Ht4. by specialize (Ht4 _ Hin). }
        apply elem_of_cons in Hin as [Hin|Hin]; [done|].
        apply elem_of_cons in Hin as [Hin|Hin]; [done|].
        rewrite Forall_forall in Htb. by specialize (Htb _ Hin).
  - destruct (finally_block conn None w1) as [[r w'] t] eqn:Hf.
    exact (Hnone r w' t eq_refl Hpre).
  - destruct (finally_block conn None w1) as [[r w'] t] eqn:Hf.
    exact (Hnone r w' t eq_refl Hpre).
Qed.

(** * Teardown in full, and broadcasts that overlap *)

(** ** server.py: the teardown of a handler *)

Lemma unique_split {X : Type} (A R t1 R' : list X) (x y : X) :
  A ++ x :: R = t1 ++ y :: R' -> (y ∉ A) -> (y ∉ R) -> t1 = A ∧ y = x ∧ R' = R.
Proof.
  revert t1. induction A as [|a A IH]; intros t1 E HA HR.
  - destruct t1 as [|b t1]; cbn in E.
    + by injection E as <- <-.
    + injection E as _ E. exfalso. apply HR. rewrite E. apply elem_of_app. right. left.
  - destruct t1 as [|b t1]; cbn in E.
    + injection E as E _. exfalso. apply HA. rewrite E. left.
    + injection E as <- E. apply not_elem_of_cons in HA as [_ HA].
      destruct (IH _ E HA HR) as (-> & -> & ->). done.
Qed.

Lemma close_after (B R t1 t3 : list Event) (y : Event) :
  Forall (fun ev => is_close ev = false) B -> is_close y = true ->
  B ++ R = t1 ++ y :: t3 -> ∃ t1', t1 = B ++ t1' ∧ R = t1' ++ y :: t3.
Proof.
  intros HB Hy. revert t1. induction HB as [|b B Hb _ IH]; intros t1 E.
  - by exists t1.
  - destruct t1 as [|b' t1]; cbn in E.
    + injection E as -> _. congruence.
    + injection E as <- E. destruct (IH _ E) as (t1' & -> & ->). by exists t1'.
Qed.

Lemma list_ascii_of_string_app (a b : string) :
  list_ascii_of_string (a +:+ b) = list_ascii_of_string a ++ list_ascii_of_string b.
Proof. induction a as [|c a IH]; [done|]. cbn. by rewrite <- IH. Qed.

Lemma string_app_inv_tail (a b s : string) : a +:+ s = b +:+ s -> a = b.
Proof.
  intros E. apply (f_equal list_ascii_of_string) in E.
  rewrite !list_ascii_of_string_app in E. apply app_inv_tail in E.
  apply (f_equal string_of_list_ascii) in E.
  by rewrite !string_of_list_ascii_of_string in E.
Qed.

Lemma last_app_repeat {A : Type} (l : list A) (x : A) (k : nat) :
  (0 < k)%nat -> last (l ++ repeat x k) = Some x.
Proof.
  destruct k as [|k]; [lia|]. intros _.
  change (repeat x (S k)) with (x :: repeat x k).
  rewrite repeat_cons, app_assoc. apply last_snoc.
Qed.

(** The [finally] block of a session that had logged in, in full: with
    the store up and with the store down. *)
Lemma finally_block_Some_cases (conn : nat) (u : string) (w : World) :
  post (finally_block conn (Some u)) w (fun r w' tr =>
    clients w' = filter (fun c => client_conn c ≠ conn) (clients w) ∧
    ((r = Ok tt ∧
      tr = EvRemove conn :: EvBroadcast "SYSTEM" (u +:+ " has left the chat.") ::
           EvSaveMessage "SYSTEM" (u +:+ " has left the chat.") (Ok tt) ::
           map (fun c => EvSendall (client_conn c)
                           (broadcast_line "SYSTEM" (u +:+ " has left the chat.")))
               (clients w') ++ [EvClose conn] ∧
      (∃ row, last (messages (engine w')) = Some row ∧
              msg_username row = "SYSTEM" ∧
              msg_content row = u +:+ " has left the chat.") ∧
      (∀ cl, cl ∈ clients w' -> writable w' (client_conn cl) = true ->
         last (received w' (client_conn cl)) =
         Some (broadcast_line "SYSTEM" (u +:+ " has left the chat."))) ∧
      writable w' conn = false) ∨
     (r = Raise OperationalError ∧ online (engine w') = false ∧
      tr = [EvRemove conn; EvBroadcast "SYSTEM" (u +:+ " has left the chat.");
            EvSaveMessage "SYSTEM" (u +:+ " has left the chat.")
              (Raise OperationalError)]))).
Proof.
  unfold post, finally_block.
  set (w1 := set_clients (filter (fun c => client_conn c ≠ conn) (clients w)) w).
  assert (Hrm : clients_remove conn w = (Ok tt, w1, [EvRemove conn])) by reflexivity.
  destruct (online (engine w1)) eqn:Hon.
  - destruct (broadcast_message_online "SYSTEM" (u +:+ " has left the chat.") w1 Hon)
      as (w2 & Hrun & He & Hc & Hwr & Hr).
    destruct (close_effects conn w2) as (w3 & Hclose & Hw3 & Hc3 & He3 & Hr3 & Hwr3).
    erewrite bind_ok; [|erewrite bind_ok by exact Hrm; cbn beta; rewrite Hrun; reflexivity].
    cbn beta. rewrite Hclose.
    assert (Hcs : clients w3 = clients w1) by (by rewrite Hc3, Hc).
    split; [exact Hcs|]. left. split; [done|]. split; [by rewrite Hcs|].
    split; [|split; [|exact Hw3]].
    + rewrite He3, He.
      destruct (save_message_cases (clock w1) "SYSTEM" (u +:+ " has left the chat.")
                  (engine w1)) as [[_ ->]|[Hoff _]]; [|congruence].
      cbn [snd messages]. eexists. split; [apply last_snoc|done].
    + intros cl Hcl Hw. rewrite Hr3, Hr. rewrite Hcs in Hcl.
      assert (Hne : client_conn cl ≠ conn).
      { assert (Hin : client_conn cl ∈ map client_conn (clients w1)).
        { apply list_elem_of_fmap_2. exact Hcl. }
        intros E. rewrite E in Hin. exact (remove_conn_gone conn (clients w) Hin). }
      rewrite (Hwr3 _ Hne), Hwr in Hw. rewrite Hw.
      apply last_app_repeat, count_occ_In, list_elem_of_In.
      by apply list_elem_of_fmap_2.
  - destruct (broadcast_message_offline "SYSTEM" (u +:+ " has left the chat.") w1 Hon)
      as (w2 & Hrun & He & Hc & Hs & _).
    erewrite bind_raise; [|erewrite bind_ok by exact Hrm; cbn beta; rewrite Hrun; reflexivity].
    split; [by rewrite Hc|]. right. split; [done|]. split; [by rewrite He|done].
Qed.

(** The two ways a handler runs, with the world its [finally] block
    starts in. *)
Lemma handle_client_cases `{PyLib} (conn : nat) (addr : string) (input : list Read)
    (w : World) :
  post (handle_client conn addr input) w (fun r w' tr =>
    (∃ t0, tr = t0 ++ [EvClose conn] ∧
           Forall (fun ev => pre_auth_event conn ev = true) t0 ∧
           r = Ok tt ∧ writable w' conn = false ∧
           (quiet input -> clients w' = clients w)) ∨
    (∃ u pw t0 t2 w2 tf,
        tr = t0 ++ EvAuthenticate u pw (Ok true) :: t2 ++ tf ∧
        Forall (fun ev => pre_auth_event conn ev = true) t0 ∧
        Forall (fun ev => session_event ev = true) t2 ∧
        finally_block conn (Some u) w2 = (r, w', tf))).
Proof.
  pose proof (welcome_and_auth_post conn (quiet input) input w (fun HP => HP)) as Hauth.
  unfold post, handle_client, mbind, M_bind, attempt in *.
  destruct (welcome_and_auth conn input w) as [[r1 w1] t1].
  destruct Hauth as [Hshape Hkept].
  assert (Hnone : ∀ r w' t,
    finally_block conn None w1 = (r, w', t) ->
    Forall (fun ev => pre_auth_event conn ev = true) t1 ->
    ∃ t0, t1 ++ t = t0 ++ [EvClose conn] ∧
          Forall (fun ev => pre_auth_event conn ev = true) t0 ∧
          r = Ok tt ∧ writable w' conn = false ∧
          (quiet input -> clients w' = clients w)).
  { intros r w' t Hf Ht1.
    destruct (close_effects conn w1) as (w3 & Hclose & Hw3 & Hc3 & _).
    assert (Hf' : finally_block conn None w1 = (Ok tt, w3, [EvClose conn])).
    { unfold finally_block. erewrite bind_ok by reflexivity. cbn beta. by rewrite Hclose. }
    rewrite Hf' in Hf. injection Hf as <- <- <-.
    exists t1. repeat split; [exact Ht1|exact Hw3|]. intros Hq. by rewrite Hc3, Hkept. }
  destruct r1 as [[[u rest]|]|e].
  - unfold auth_shape in Hshape. destruct Hshape as (t0 & pw & -> & Ht0).
    pose proof (session_only_after_login conn u rest w1) as Hs2. unfold post in Hs2.
    destruct (after_login conn u rest w1) as [[r2 w2] t2]. cbn beta iota.
    destruct (finally_block conn (Some u) w2) as [[r w'] tf] eqn:Hf. cbn beta iota.
    right. exists u, pw, t0, t2, w2, tf.
    split; [|done]. rewrite <- !app_assoc. reflexivity.
  - destruct (finally_block conn None w1) as [[r w'] t] eqn:Hf. left.
    exact (Hnone r w' t eq_refl Hshape).
  - destruct (finally_block conn None w1) as [[r w'] t] eqn:Hf. left.
    exact (Hnone r w' t eq_refl Hshape).
Qed.

(** C7, as the code has it. In every run of the handler, the teardown
    removes the entry of the connection from [clients] and calls
    [broadcast_message] with the notice that [u] has left exactly for the
    user [u] whose login succeeded in this run, and afterwards [clients]
    holds no entry of the connection. When the store answers at that
    moment the notice is saved and sent to every session still in
    [clients] (it is the last thing the writable ones received), and the
    socket is closed, last; when the store does not answer the broadcast
    fails like any other: [broadcast_message] raises at the save, nothing
    is saved and nothing is sent. A handler that did not reach
    Authenticated (end of stream before login among the cases) ends
    without raising, causes no broadcast and no change of [clients], and
    closes its socket. A socket is closed last, and for an authenticated
    session after its entry was removed from [clients]. *)
Theorem handle_client_teardown `{PyLib} (conn : nat) (addr : string)
    (input : list Read) (w : World) :
  post (handle_client conn addr input) w (fun r w' tr =>
    (∀ u, (∃ pw, EvAuthenticate u pw (Ok true) ∈ tr) <->
          leave_notice_at_teardown conn u tr) ∧
    (¬ authenticated tr ->
       r = Ok tt ∧
       (∀ s c, EvBroadcast s c ∉ tr) ∧
       (∀ c u, EvAppend c u ∉ tr) ∧
       (∀ c, EvRemove c ∉ tr) ∧
       (∃ t0, tr = t0 ++ [EvClose conn]) ∧
       writable w' conn = false ∧
       (quiet input -> clients w' = clients w)) ∧
    (∀ u, leave_notice_at_teardown conn u tr ->
       (conn ∉ map client_conn (clients w')) ∧
       ((r = Ok tt ∧
         (∃ t1, tr = t1 ++ EvRemove conn ::
                  EvBroadcast "SYSTEM" (u +:+ " has left the chat.") ::
                  EvSaveMessage "SYSTEM" (u +:+ " has left the chat.") (Ok tt) ::
                  map (fun c => EvSendall (client_conn c)
                                  (broadcast_line "SYSTEM" (u +:+ " has left the chat.")))
                      (clients w') ++ [EvClose conn]) ∧
         (∃ row, last (messages (engine w')) = Some row ∧
                 msg_username row = "SYSTEM" ∧
                 msg_content row = u +:+ " has left the chat.") ∧
         (∀ cl, cl ∈ clients w' -> writable w' (client_conn cl) = true ->
            last (received w' (client_conn cl)) =
            Some (broadcast_line "SYSTEM" (u +:+ " has left the chat."))) ∧
         writable w' conn = false) ∨
        (r = Raise OperationalError ∧ online (engine w') = false ∧
         ∃ t1, tr = t1 ++ [EvRemove conn;
                           EvBroadcast "SYSTEM" (u +:+ " has left the chat.");
                           EvSaveMessage "SYSTEM" (u +:+ " has left the chat.")
                             (Raise OperationalError)]))) ∧
    (∀ t1 c t2, tr = t1 ++ EvClose c :: t2 ->
       c = conn ∧ t2 = [] ∧ (authenticated tr -> EvRemove conn ∈ t1))).
Proof.
  pose proof (handle_client_cases conn addr input w) as Hcases.
  unfold post in *. destruct (handle_client conn addr input w) as [[r w'] tr].
  destruct Hcases as [(t0 & -> & Ht0 & -> & Hclosed & Hc)
                     |(u & pw & t0 & t2 & w2 & tf & -> & Ht0 & Ht2 & Hf)].
  - (* the handler never logged in *)
    assert (Hpre : ∀ ev, ev ∈ t0 ++ [EvClose conn] ->
                         pre_auth_event conn ev = true ∨ ev = EvClose conn).
    { intros ev [Hin|Hin]%elem_of_app.
      - left. rewrite Forall_forall in Ht0. by apply Ht0.
      - right. by apply list_elem_of_singleton in Hin. }
    assert (Hna : ¬ authenticated (t0 ++ [EvClose conn])).
    { intros (u & pw & Hin). by destruct (Hpre _ Hin). }
    assert (Hnl : ∀ u, ¬ leave_notice_at_teardown conn u (t0 ++ [EvClose conn])).
    { intros u (t1 & t2 & E).
      assert (Hin : EvRemove conn ∈ t0 ++ [EvClose conn]).
      { rewrite E. apply elem_of_app. right. left. }
      by destruct (Hpre _ Hin). }
    split; [|split; [|split]].
    + intros u. split; [|intros Hl; by destruct (Hnl u)].
      intros [pw Hin]. destruct Hna. by exists u, pw.
    + intros _. split; [done|].
      split; [|split; [|split; [|split; [by exists t0|split; [exact Hclosed|exact Hc]]]]].
      * intros s c Hin. by destruct (Hpre _ Hin).
      * intros c u Hin. by destruct (Hpre _ Hin).
      * intros c Hin. by destruct (Hpre _ Hin).
    + intros u Hl. by destruct (Hnl u).
    + intros t1 c t2 E.
      apply close_is_last in E as (-> & [= ->] & ->); [done| |done].
      eapply Forall_impl; [exact Ht0|]. intros ev. apply pre_auth_not_close.
  - (* the handler logged in as [u] *)
    pose proof (finally_block_Some_cases conn u w2) as Hfin. unfold post in Hfin.
    rewrite Hf in Hfin. destruct Hfin as [Hcs Hfin].
    set (notice := u +:+ " has left the chat.") in *.
    set (A := t0 ++ EvAuthenticate u pw (Ok true) :: t2).
    assert (HA : ∀ ev, ev ∈ A ->
      pre_auth_event conn ev = true ∨ ev = EvAuthenticate u pw (Ok true) ∨
      session_event ev = true).
    { intros ev [Hin|Hin]%elem_of_app.
      - left. rewrite Forall_forall in Ht0. by apply Ht0.
      - apply elem_of_cons in Hin as [->|Hin]; [by right; left|].
        right. right. rewrite Forall_forall in Ht2. by apply Ht2. }
    assert (Htf : ∃ R, tf = EvRemove conn :: EvBroadcast "SYSTEM" notice :: R ∧
                       (∀ c, EvRemove c ∉ R) ∧
                       (∀ a p, EvAuthenticate a p (Ok true) ∉ R) ∧
                       (∀ t1 c t3, R = t1 ++ EvClose c :: t3 -> c = conn ∧ t3 = [])).
    { destruct Hfin as [(_ & -> & _)|(_ & _ & ->)].
      - eexists. split; [reflexivity|].
        assert (Hsend : Forall (fun ev => is_close ev = false ∧
                                 ∀ c, ev ≠ EvRemove c)
                  (EvSaveMessage "SYSTEM" notice (Ok tt) ::
                   map (fun c => EvSendall (client_conn c)
                                   (broadcast_line "SYSTEM" notice)) (clients w'))).
        { constructor; [done|]. apply Forall_fmap, Forall_true. done. }
        split; [|split].
        + intros c [Hin|Hin]%elem_of_cons; [done|].
          apply elem_of_app in Hin as [Hin|Hin].
          * apply list_elem_of_fmap in Hin as (? & ? & _). done.
          * by apply list_elem_of_singleton in Hin.
        + intros a p [Hin|Hin]%elem_of_cons; [done|].
          apply elem_of_app in Hin as [Hin|Hin].
          * apply list_elem_of_fmap in Hin as (? & ? & _). done.
          * by apply list_elem_of_singleton in Hin.
        + intros t1 c t3 E.
          change (EvSaveMessage "SYSTEM" notice (Ok tt) :: ?l ++ [EvClose conn])
            with ((EvSaveMessage "SYSTEM" notice (Ok tt) :: l) ++ [EvClose conn]) in E.
          apply close_is_last in E as (_ & [= ->] & ->); [done| |done].
          eapply Forall_impl; [exact Hsend|]. by intros ev [? _].
      - eexists. split; [reflexivity|]. split; [|split].
        + intros c Hin. by apply list_elem_of_singleton in Hin.
        + intros a p Hin. by apply list_elem_of_singleton in Hin.
        + intros t1 c t3 E. destruct t1 as [|? [|? ?]]; done. }
    destruct Htf as (R & -> & HRr & HRa & HRc).
    assert (Hnorem : EvRemove conn ∉ A).
    { intros Hin. by destruct (HA _ Hin) as [?|[?|?]]. }
    assert (Hsplit : ∀ v t1 t3,
      t0 ++ EvAuthenticate u pw (Ok true) :: t2 ++
        EvRemove conn :: EvBroadcast "SYSTEM" notice :: R =
      t1 ++ EvRemove conn :: EvBroadcast "SYSTEM" (v +:+ " has left the chat.") :: t3 ->
      t1 = A ∧ v = u ∧ t3 = R).
    { intros v t1 t3 E.
      assert (E' : A ++ EvRemove conn :: EvBroadcast "SYSTEM" notice :: R =
                   t1 ++ EvRemove conn ::
                     EvBroadcast "SYSTEM" (v +:+ " has left the chat.") :: t3).
      { rewrite <- E. unfold A. by rewrite <- app_assoc. }
      apply unique_split in E' as (-> & _ & E'); [|exact Hnorem|].
      - injection E' as E1 ->. split; [done|]. split; [|done].
        by apply string_app_inv_tail in E1.
      - intros [Hin|Hin]%elem_of_cons; [done|]. by apply (HRr conn). }
    assert (Ha : authenticated (t0 ++ EvAuthenticate u pw (Ok true) :: t2 ++
                   EvRemove conn :: EvBroadcast "SYSTEM" notice :: R)).
    { exists u, pw. apply elem_of_app. right. left. }
    assert (Hl : leave_notice_at_teardown conn u (t0 ++ EvAuthenticate u pw (Ok true) :: t2 ++
                   EvRemove conn :: EvBroadcast "SYSTEM" notice :: R)).
    { exists A, R. unfold A. by rewrite <- app_assoc. }
    split; [|split; [|split]].
    + intros v. split.
      * intros [p Hin]. assert (v = u) as ->; [|exact Hl].
        apply elem_of_app in Hin as [Hin|Hin].
        { rewrite Forall_forall in Ht0. by specialize (Ht0 _ Hin). }
        apply elem_of_cons in Hin as [[= -> _]|Hin]; [done|].
        apply elem_of_app in Hin as [Hin|Hin].
        { rewrite Forall_forall in Ht2. by specialize (Ht2 _ Hin). }
        apply elem_of_cons in Hin as [?|Hin]; [done|].
        apply elem_of_cons in Hin as [?|Hin]; [done|]. by destruct (HRa v p).
      * intros (t1 & t3 & E). apply Hsplit in E as (_ & -> & _).
        exists pw. apply elem_of_app. right. left.
    + intros Hna. by destruct (Hna Ha).
    + intros v (t1 & t3 & E). apply Hsplit in E as (_ & -> & _).
      split.
      { rewrite Hcs. apply remove_conn_gone. }
      destruct Hfin as [(-> & Etf & Hrow & Hrecv & Hclosed)|(-> & Hoff & Etf)].
      * left. split; [done|]. split; [|done].
        exists A. unfold A. rewrite <- app_assoc. cbn [app]. by rewrite Etf.
      * right. split; [done|]. split; [done|].
        exists A. unfold A. rewrite <- app_assoc. cbn [app]. by rewrite Etf.
    + intros t1 c t3 E.
      assert (E' : (A ++ [EvRemove conn; EvBroadcast "SYSTEM" notice]) ++ R =
                   t1 ++ EvClose c :: t3).
      { rewrite <- E. unfold A. rewrite <- !app_assoc. reflexivity. }
      apply close_after in E' as (t1' & -> & ER); [|..|done].
      * destruct (HRc _ _ _ ER) as [-> ->]. split; [done|]. split; [done|].
        intros _. apply elem_of_app. left. apply elem_of_app. right. left.
      * apply Forall_app. split; [|by repeat constructor].
        rewrite Forall_forall. intros ev Hin.
        destruct (HA _ Hin) as [Hp|[->|Hs]]; [|done|].
        -- by apply (pre_auth_not_close conn).
        -- by apply session_not_close.
Qed.

(** C7 as stated fails. carol logs in, the store goes down, and she
    hangs up: the session had reached Authenticated, and the teardown takes
    her entry out of [clients], but the leave notice is neither saved
    nor sent (alice, registered and reachable, has received the join
    notice only), [handle_client] raises out of its [finally] block, and
    the socket of the connection is still open. *)
Lemma handle_client_leave_notice_lost :
  let line (s : string) := {| before := fun w => w; got := Ok (s +:+ LF) |} in
  let hang_up :=
    {| before := fun w => set_engine (set_online false (engine w)) w; got := Ok "" |} in
  let db := (@create_user demo_lib (repeat x00 16) "carol" "pw" fresh_db).2 in
  let w := set_sockets (<[3%nat := open_socket]> (sockets demo_world))
             (set_engine db demo_world) in
  post (@handle_client demo_lib 3 "10.0.0.3"
          [line "login"; line "carol"; line "pw"; hang_up]) w
    (fun r w' tr =>
       tr =
       [EvSendall 3 ("Welcome to the chat server!" +:+ LF);
        EvSendall 3 ("Type 'register' to create an account or 'login' to sign in:" +:+ LF);
        EvSendall 3 ("Username:" +:+ LF);
        EvSendall 3 ("Password:" +:+ LF);
        EvAuthenticate "carol" "pw" (Ok true);
        EvSendall 3 ("Login successful. Welcome, carol!" +:+ LF);
        EvAppend 3 "carol";
        EvSendall 3 ("--- Recent messages ---" +:+ LF);
        EvRecentMessages 20;
        EvSendall 3 ("--- End of history ---" +:+ LF);
        EvBroadcast "SYSTEM" "carol has joined the chat.";
        EvSaveMessage "SYSTEM" "carol has joined the chat." (Ok tt);
        EvSendall 1 (broadcast_line "SYSTEM" "carol has joined the chat.");
        EvSendall 2 (broadcast_line "SYSTEM" "carol has joined the chat.");
        EvSendall 3 (broadcast_line "SYSTEM" "carol has joined the chat.");
        EvSendall 3 ("You are now in the chatroom. Type messages and press Enter." +:+ LF);
        EvSendall 3 ("Type '/quit' to exit." +:+ LF);
        EvRemove 3;
        EvBroadcast "SYSTEM" "carol has left the chat.";
        EvSaveMessage "SYSTEM" "carol has left the chat." (Raise OperationalError)] ∧
       r = Raise OperationalError ∧
       clients w' = [alice; bob] ∧ writable w' 1 = true ∧
       received w' 1 = [broadcast_line "SYSTEM" "carol has joined the chat."] ∧
       map msg_content (messages (engine w')) = ["carol has joined the chat."] ∧
       writable w' 3 = true).
Proof. vm_compute. repeat split. Qed.

(** ** server.py: two calls of [broadcast_message] at once *)

Lemma str_app_cons (c : ascii) (a b : string) : String c a +:+ b = String c (a +:+ b).
Proof. reflexivity. Qed.

Lemma str_take_drop (n : nat) (s : string) : str_take n s +:+ str_drop n s = s.
Proof.
  revert s. induction n as [|n IH]; intros s; [done|].
  destruct s as [|c s]; [done|]. cbn [str_take str_drop].
  by rewrite str_app_cons, IH.
Qed.

Lemma str_take_all (n : nat) (s : string) :
  (String.length s <= n)%nat -> str_take n s = s.
Proof.
  revert s. induction n as [|n IH]; intros s Hs.
  - destruct s; [done|cbn in Hs; lia].
  - destruct s as [|c s]; [done|]. cbn in *. rewrite IH; [done|lia].
Qed.

Lemma str_drop_all (n : nat) (s : string) :
  (String.length s <= n)%nat -> str_drop n s = EmptyString.
Proof.
  revert s. induction n as [|n IH]; intros s Hs.
  - destruct s; [done|cbn in Hs; lia].
  - destruct s as [|c s]; [done|]. cbn in *. apply IH. lia.
Qed.

Lemma str_app_assoc (a b c : string) : (a +:+ b) +:+ c = a +:+ b +:+ c.
Proof. induction a as [|x a IH]; [done|]. by rewrite !str_app_cons, IH. Qed.

Lemma str_app_empty_r (a : string) : a +:+ "" = a.
Proof. induction a as [|x a IH]; [done|]. by rewrite str_app_cons, IH. Qed.

Lemma join_app (a b : list string) : join (a ++ b) = join a +:+ join b.
Proof.
  induction a as [|x a IH]; [done|]. cbn [app join]. by rewrite IH, str_app_assoc.
Qed.

(** A step of a thread keeps what the thread keeps true, and what it
    hands to a socket is a piece of its line: the whole line when every
    [send] takes all it is given ([W]). *)
Lemma thread_step_pieces (W : Prop) (payload : string) (k : nat) (pc : Pc) (w : World) :
  pc_inv payload pc -> (W -> pc_whole payload pc) ->
  (W -> (String.length payload <= S k)%nat) ->
  pc_inv payload (thread_step k pc w).1 ∧
  (W -> pc_whole payload (thread_step k pc w).1) ∧
  ∀ conn, ∃ pieces,
    received (thread_step k pc w).2 conn = received w conn ++ pieces ∧
    Forall (piece_of payload) pieces ∧
    (W -> Forall (eq payload) pieces).
Proof.
  intros Hinv Hwhole Hk.
  assert (Hsame : ∀ (pc' : Pc),
    pc_inv payload pc' -> pc_whole payload pc' ->
    pc_inv payload (pc', w).1 ∧ (W -> pc_whole payload (pc', w).1) ∧
    ∀ conn, ∃ pieces, received (pc', w).2 conn = received w conn ++ pieces ∧
      Forall (piece_of payload) pieces ∧ (W -> Forall (eq payload) pieces)).
  { intros pc' H1 H2. split; [done|]. split; [done|]. intros conn. exists [].
    by rewrite app_nil_r. }
  destruct pc as [s c|line|line [|cl todo]|conn [|a unsent] line todo| |e];
    cbn [thread_step pc_inv pc_whole] in *.
  - unfold call_save_message.
    destruct (save_message (clock w) s c (engine w)) as [[[]|e] db].
    + split; [exact Hinv|]. split; [done|]. intros conn. exists []. by rewrite app_nil_r.
    + split; [done|]. split; [done|]. intros conn. exists []. by rewrite app_nil_r.
  - by apply Hsame.
  - by apply Hsame.
  - apply Hsame; [|by left]. split; [done|]. by exists "".
  - apply Hsame; [|done]. by destruct Hinv.
  - destruct Hinv as [Hline [sent Hsent]].
    set (data := String a unsent) in *.
    destruct (writable w conn) eqn:Hw.
    + destruct (sendall_writable conn (str_take (S k) data) w Hw)
        as (w1 & Hrun & _ & _ & _ & _ & Hrc & Hro).
      rewrite Hrun. cbn [fst snd pc_inv pc_whole].
      split; [|split].
      * split; [done|]. exists (sent +:+ str_take (S k) data).
        by rewrite str_app_assoc, str_take_drop.
      * intros HW. right. apply str_drop_all.
        destruct (Hwhole HW) as [->|E]; [by apply Hk|by rewrite E; cbn; lia].
      * intros c. destruct (decide (c = conn)) as [->|Hne].
        -- exists [str_take (S k) data]. split; [done|]. split.
           ++ constructor; [|done]. exists sent, (str_drop (S k) data).
              by rewrite str_take_drop.
           ++ intros HW. constructor; [|done].
              destruct (Hwhole HW) as [E|E]; [|done].
              rewrite E. symmetry. apply str_take_all. by apply Hk.
        -- exists []. rewrite app_nil_r. split; [by apply Hro|done].
    + rewrite (sendall_broken conn _ w Hw). by apply Hsame.
  - by apply Hsame.
  - by apply Hsame.
Qed.

Lemma run_cons (p : Pick) (schedule : list Pick) (c : Conf) :
  run (p :: schedule) c = run schedule (step p c).
Proof. reflexivity. Qed.

Lemma run_pieces (W : Prop) (l1 l2 : string) (schedule : list Pick) :
  (W -> Forall (fun p => (String.length l1 <= S (taken_of p))%nat ∧
                         (String.length l2 <= S (taken_of p))%nat) schedule) ->
  ∀ c,
    pc_inv l1 (thread1 c) -> pc_inv l2 (thread2 c) ->
    (W -> pc_whole l1 (thread1 c)) -> (W -> pc_whole l2 (thread2 c)) ->
    ∀ conn, ∃ pieces,
      received (world (run schedule c)) conn = received (world c) conn ++ pieces ∧
      Forall (fun p => piece_of l1 p ∨ piece_of l2 p) pieces ∧
      (W -> Forall (fun p => p = l1 ∨ p = l2) pieces).
Proof.
  induction schedule as [|p schedule IH]; intros HW c H1 H2 W1 W2 conn.
  - exists []. by rewrite app_nil_r.
  - rewrite run_cons.
    assert (HW' : W -> Forall (fun p => (String.length l1 <= S (taken_of p))%nat ∧
                                (String.length l2 <= S (taken_of p))%nat) schedule).
    { intros HWp. by apply Forall_cons in HW as [_ ?]. }
    assert (Hk : W -> (String.length l1 <= S (taken_of p))%nat ∧
                      (String.length l2 <= S (taken_of p))%nat).
    { intros HWp. by apply Forall_cons in HW as [? _]. }
    destruct p as [k|k]; cbn [step taken_of] in *.
    + destruct (thread_step_pieces W l1 k (thread1 c) (world c) H1 W1
                  (fun HWp => proj1 (Hk HWp))) as (H1' & W1' & Hr).
      destruct (thread_step k (thread1 c) (world c)) as [pc w1]. cbn [fst snd] in *.
      destruct (IH HW' {| thread1 := pc; thread2 := thread2 c; world := w1 |}
                  H1' H2 W1' W2 conn) as (rest & Hrest & Hp & Hw).
      destruct (Hr conn) as (now & Hnow & Hpn & Hwn). cbn [world] in Hrest.
      exists (now ++ rest). split; [by rewrite Hrest, Hnow, app_assoc|]. split.
      * apply Forall_app. split; [|done]. eapply Forall_impl; [exact Hpn|]. by left.
      * intros HWp. apply Forall_app. split; [|by apply Hw].
        eapply Forall_impl; [exact (Hwn HWp)|]. by left.
    + destruct (thread_step_pieces W l2 k (thread2 c) (world c) H2 W2
                  (fun HWp => proj2 (Hk HWp))) as (H2' & W2' & Hr).
      destruct (thread_step k (thread2 c) (world c)) as [pc w1]. cbn [fst snd] in *.
      destruct (IH HW' {| thread1 := thread1 c; thread2 := pc; world := w1 |}
                  H1 H2' W1 W2' conn) as (rest & Hrest & Hp & Hw).
      destruct (Hr conn) as (now & Hnow & Hpn & Hwn). cbn [world] in Hrest.
      exists (now ++ rest). split; [by rewrite Hrest, Hnow, app_assoc|]. split.
      * apply Forall_app. split; [|done]. eapply Forall_impl; [exact Hpn|]. by right.
      * intros HWp. apply Forall_app. split; [|by apply Hw].
        eapply Forall_impl; [exact (Hwn HWp)|]. by right.
Qed.

(** *** The steps and the function

    A thread that runs alone, each [send] taking the whole line, does
    to the world what [broadcast_message] does, and ends as it ends. *)

Lemma line_not_empty (line : string) : ∃ a rest, line +:+ LF = String a rest.
Proof. destruct line as [|a line]; by eexists _, _. Qed.

Lemma for_alone (k : nat) (line : string) (q : Pc) (todo : list Client) :
  (String.length (line +:+ LF) <= S k)%nat ->
  ∀ w, ∃ n,
    run (repeat (First k) n) {| thread1 := AtFor line todo; thread2 := q; world := w |} =
    {| thread1 := Returned; thread2 := q;
       world := (for_each todo (fun client =>
                   except_OSError (send_line (client_conn client) line)) w).1.2 |}.
Proof.
  intros Hk. induction todo as [|cl todo IH]; intros w.
  - by exists 1%nat.
  - destruct (line_not_empty line) as (a & rest & Hdata).
    cbn [for_each]. unfold mbind, M_bind, except_OSError, send_line. cbn zeta.
    destruct (writable w (client_conn cl)) eqn:Hw.
    + destruct (sendall_writable (client_conn cl) (line +:+ LF) w Hw) as (w1 & Hrun & _).
      destruct (IH w1) as (n & Hn). exists (S (S (S n))).
      cbn [repeat]. rewrite !run_cons. cbn [step thread1 thread2 world thread_step].
      rewrite Hdata. cbn [step thread1 thread2 world thread_step].
      rewrite <- Hdata, str_take_all, str_drop_all by exact Hk. rewrite Hrun.
      cbn [step thread1 thread2 world thread_step]. rewrite Hn.
      by destruct (for_each todo _ w1) as [[r w2] t].
    + pose proof (sendall_broken (client_conn cl) (line +:+ LF) w Hw) as Hrun.
      destruct (IH w) as (n & Hn). exists (S (S n)).
      cbn [repeat]. rewrite !run_cons. cbn [step thread1 thread2 world thread_step].
      rewrite Hdata. cbn [step thread1 thread2 world thread_step].
      rewrite <- Hdata, str_take_all by exact Hk. rewrite Hrun.
      cbn [step thread1 thread2 world thread_step]. rewrite Hn.
      by destruct (for_each todo _ w) as [[r w2] t].
Qed.

Lemma thread_alone (k : nat) (s c : string) (q : Pc) (w : World) :
  (String.length (broadcast_line s c) <= S k)%nat ->
  ∃ n,
    run (repeat (First k) n) {| thread1 := AtSave s c; thread2 := q; world := w |} =
    {| thread1 := match (broadcast_message s c w).1.1 with
                | Ok _ => Returned
                | Raise e => Raised e
                end;
       thread2 := q;
       world := (broadcast_message s c w).1.2 |}.
Proof.
  intros Hk. unfold broadcast_message, mbind, M_bind, emit. cbn zeta.
  destruct (call_save_message s c w) as [[[[]|e] w1] t] eqn:Hsave.
  - destruct (for_alone k ("[" +:+ s +:+ "] " +:+ c) q (clients w1) Hk w1) as (n & Hn).
    exists (S (S n)). cbn [repeat]. rewrite !run_cons.
    cbn [step thread1 thread2 world thread_step]. rewrite Hsave.
    cbn [step thread1 thread2 world thread_step]. rewrite Hn.
    destruct (fanout_run ("[" +:+ s +:+ "] " +:+ c) (clients w1) w1) as (w2 & -> & _).
    reflexivity.
  - exists 1%nat. cbn [repeat]. rewrite run_cons.
    cbn [step thread1 thread2 world thread_step]. by rewrite Hsave.
Qed.

(** C9, as the code has it. Two calls of [broadcast_message] that
    overlap, under every schedule and at every moment of the run: what
    has reached a socket since the start are pieces of the two lines,
    each a run of bytes cut out of one of them. When every [send] takes
    all it is given, each piece is one of the two lines, so the peer
    reads whole lines only. No lock of the code makes it so: with a
    [send] that takes less, pieces of the two lines alternate. *)
Theorem broadcast_message_overlapping (w : World) (s1 c1 s2 c2 : string)
    (schedule : list Pick) (conn : nat) :
  let l1 := broadcast_line s1 c1 in
  let l2 := broadcast_line s2 c2 in
  let c' := run schedule (two_broadcasts s1 c1 s2 c2 w) in
  ∃ pieces,
    received (world c') conn = received w conn ++ pieces ∧
    stream (world c') conn = stream w conn +:+ join pieces ∧
    Forall (fun p => piece_of l1 p ∨ piece_of l2 p) pieces ∧
    (Forall (fun p => (String.length l1 <= S (taken_of p))%nat ∧
                      (String.length l2 <= S (taken_of p))%nat) schedule ->
     Forall (fun p => p = l1 ∨ p = l2) pieces ∧ whole_lines [l1; l2] (join pieces)).
Proof.
  cbn zeta.
  destruct (run_pieces
    (Forall (fun p => (String.length (broadcast_line s1 c1) <= S (taken_of p))%nat ∧
                      (String.length (broadcast_line s2 c2) <= S (taken_of p))%nat) schedule)
    (broadcast_line s1 c1) (broadcast_line s2 c2) schedule (fun HW => HW)
    (two_broadcasts s1 c1 s2 c2 w) eq_refl eq_refl (fun _ => I) (fun _ => I) conn)
    as (pieces & Hr & Hp & Hw).
  exists pieces. split; [exact Hr|]. split; [|split; [exact Hp|]].
  - unfold stream. by rewrite Hr, join_app.
  - intros HW. split; [by apply Hw|]. exists pieces. split; [|done].
    eapply Forall_impl; [exact (Hw HW)|]. intros p [-> | ->].
    + apply list_elem_of_here.
    + apply list_elem_of_further, list_elem_of_here.
Qed.

(** C9 as stated fails. alice's and bob's messages are broadcast at the
    same time to a socket whose first [send] takes six bytes: the peer
    reads the beginning of alice's line, bob's line, then the rest of
    alice's. Both calls return. *)
Lemma broadcast_message_writes_are_torn :
  let c' := run torn_schedule (two_broadcasts "alice" "hi" "bob" "yo" demo_world) in
  thread1 c' = Returned ∧ thread2 c' = Returned ∧
  received (world c') 1 = ["[alice"; "[bob] yo" +:+ LF; "] hi" +:+ LF] ∧
  ¬ whole_lines [broadcast_line "alice" "hi"; broadcast_line "bob" "yo"]
      (stream (world c') 1) ∧
  ¬ writes_serialized.
Proof.
  cbn zeta.
  set (c' := run torn_schedule _) in *.
  assert (H1 : thread1 c' = Returned) by (vm_compute; reflexivity).
  assert (H2 : thread2 c' = Returned) by (vm_compute; reflexivity).
  assert (Hr : received (world c') 1 = ["[alice"; "[bob] yo" +:+ LF; "] hi" +:+ LF])
    by (vm_compute; reflexivity).
  assert (Hs : stream (world c') 1 = "[alice[bob] yo" +:+ LF +:+ "] hi" +:+ LF)
    by (vm_compute; reflexivity).
  assert (Hno : ∀ s, ¬ whole_lines [broadcast_line "alice" "hi"; broadcast_line "bob" "yo"]
                        (("[alice[bob] yo" +:+ LF +:+ "] hi" +:+ LF) +:+ s)).
  { intros s (ls & Hls & E). destruct ls as [|l ls]; [vm_compute in E; discriminate|].
    apply Forall_cons in Hls as [Hl _].
    apply elem_of_cons in Hl as [->|Hl].
    - vm_compute in E. discriminate.
    - apply list_elem_of_singleton in Hl as ->. vm_compute in E. discriminate. }
  split; [exact H1|]. split; [exact H2|]. split; [exact Hr|]. split.
  - rewrite Hs. rewrite <- (str_app_empty_r (_ +:+ _)). apply Hno.
  - intros Hser.
    pose proof (Hser demo_world "alice" "hi" "bob" "yo" torn_schedule 1%nat) as Hat.
    cbn zeta in Hat. fold c' in Hat. rewrite H1, H2, Hs in Hat.
    destruct (Hat eq_refl eq_refl) as (new & Hnew & Hwl).
    vm_compute in Hnew. subst new.
    apply (Hno ""). by rewrite str_app_empty_r.
Qed.

(** * The theorems at work *)

(** The scenario of the specification: alice registers, registers again,
    logs in with the right and with a wrong password. *)
Example scenario_accounts :
  let '(log, db) :=
    @run_ops demo_lib [OpCreateUser (repeat x00 16) "alice" "secret";
                       OpCreateUser (repeat x01 16) "alice" "secret"] fresh_db in
  map (fun c => match c with Created _ _ _ _ r => Some r | _ => None end) log =
    [Some (Ok true); Some (Ok false)] ∧
  @authenticate_user demo_lib "alice" "secret" db = Ok true ∧
  @authenticate_user demo_lib "alice" "wrong" db = Ok false.
Proof. vm_compute. done. Qed.

Example hex_example :
  hex [x00; x1f; xff] = "001fff" ∧ fromhex "00 1F ff" = Some [x00; x1f; xff] ∧
  fromhex "0g" = None.
Proof. vm_compute. done. Qed.

(** A client that says "login", gives its name and password and hangs up:
    the whole trace of its handler. *)
Example scenario_login_then_eof :
  let line (s : string) := {| before := fun w => w; got := Ok (s +:+ LF) |} in
  let db := (@create_user demo_lib (repeat x00 16) "carol" "pw" fresh_db).2 in
  let w := set_sockets (<[3%nat := open_socket]> (sockets demo_world))
             (set_engine db demo_world) in
  (@handle_client demo_lib 3 "10.0.0.3" [line "login"; line "carol"; line "pw"] w).2 =
  [EvSendall 3 ("Welcome to the chat server!" +:+ LF);
   EvSendall 3 ("Type 'register' to create an account or 'login' to sign in:" +:+ LF);
   EvSendall 3 ("Username:" +:+ LF);
   EvSendall 3 ("Password:" +:+ LF);
   EvAuthenticate "carol" "pw" (Ok true);
   EvSendall 3 ("Login successful. Welcome, carol!" +:+ LF);
   EvAppend 3 "carol";
   EvSendall 3 ("--- Recent messages ---" +:+ LF);
   EvRecentMessages 20;
   EvSendall 3 ("--- End of history ---" +:+ LF);
   EvBroadcast "SYSTEM" "carol has joined the chat.";
   EvSaveMessage "SYSTEM" "carol has joined the chat." (Ok tt);
   EvSendall 1 (broadcast_line "SYSTEM" "carol has joined the chat.");
   EvSendall 2 (broadcast_line "SYSTEM" "carol has joined the chat.");
   EvSendall 3 (broadcast_line "SYSTEM" "carol has joined the chat.");
   EvSendall 3 ("You are now in the chatroom. Type messages and press Enter." +:+ LF);
   EvSendall 3 ("Type '/quit' to exit." +:+ LF);
   EvRemove 3;
   EvBroadcast "SYSTEM" "carol has left the chat.";
   EvSaveMessage "SYSTEM" "carol has left the chat." (Ok tt);
   EvSendall 1 (broadcast_line "SYSTEM" "carol has left the chat.");
   EvSendall 2 (broadcast_line "SYSTEM" "carol has left the chat.");
   EvClose 3].
Proof. vm_compute. reflexivity. Qed.

Lemma broadcast_message_fanout_witness :
  online (engine demo_world) = true ∧
  NoDup (map client_conn (clients demo_world)) ∧
  ∃ w',
    broadcast_message "alice" "hi" demo_world =
    (Ok tt, w',
     [EvBroadcast "alice" "hi"; EvSaveMessage "alice" "hi" (Ok tt);
      EvSendall 1 (broadcast_line "alice" "hi");
      EvSendall 2 (broadcast_line "alice" "hi")]) ∧
    received w' 1 = [broadcast_line "alice" "hi"].
Proof.
  assert (Hon : online (engine demo_world) = true) by reflexivity.
  assert (Hnd : NoDup (map client_conn (clients demo_world))).
  { apply (bool_decide_unpack _). vm_compute. exact I. }
  split; [exact Hon|]. split; [exact Hnd|].
  destruct (broadcast_message_fanout "alice" "hi" demo_world Hon Hnd)
    as (w' & tr & Hrun & -> & _ & Hall).
  exists w'. split; [exact Hrun|].
  apply (proj2 (Hall alice (list_elem_of_here _ _))). reflexivity.
Defined.

Lemma broadcast_message_save_raises_witness :
  call_save_message "alice" "hi" demo_world_offline =
    (Raise OperationalError, demo_world_offline,
     [EvSaveMessage "alice" "hi" (Raise OperationalError)]) ∧
  broadcast_message "alice" "hi" demo_world_offline =
    (Raise OperationalError, demo_world_offline,
     [EvBroadcast "alice" "hi"; EvSaveMessage "alice" "hi" (Raise OperationalError)]) ∧
  ∀ c, received demo_world_offline c = received demo_world_offline c.
Proof.
  assert (Hsave : call_save_message "alice" "hi" demo_world_offline =
            (Raise OperationalError, demo_world_offline,
             [EvSaveMessage "alice" "hi" (Raise OperationalError)])) by reflexivity.
  split; [exact Hsave|].
  destruct (broadcast_message_save_raises _ _ _ _ _ _ Hsave) as (Hrun & _ & _ & _ & Hrecv).
  split; [exact Hrun|exact Hrecv].
Defined.

Lemma broadcast_message_skips_failed_writes_witness :
  online (engine demo_world) = true ∧
  writable demo_world 1 = true ∧ writable demo_world 2 = false ∧
  ∃ w',
    (broadcast_message "bob" "hello" demo_world).1 = (Ok tt, w') ∧
    received w' 2 = [] ∧
    received w' 1 = [broadcast_line "bob" "hello"].
Proof.
  assert (Hon : online (engine demo_world) = true) by reflexivity.
  split; [exact Hon|]. split; [reflexivity|]. split; [reflexivity|].
  destruct (broadcast_message_skips_failed_writes "bob" "hello" demo_world Hon)
    as (w' & Hrun & Hall).
  exists w'. split; [by rewrite Hrun|]. split.
  - apply (proj1 (Hall bob (list_elem_of_further _ _ _ (list_elem_of_here _ _)))).
    reflexivity.
  - destruct (proj2 (Hall alice (list_elem_of_here _ _)) eq_refl) as (k & _ & -> & Hr).
    exact Hr.
Defined.

Lemma create_user_at_most_once_witness :
  let log := (@run_ops demo_lib [OpCreateUser (repeat x00 16) "alice" "secret";
                                 OpCreateUser (repeat x01 16) "alice" "other"] fresh_db).1 in
  (List.length (filter (fun c => created_ok "alice" c = true) log) <= 1)%nat.
Proof. exact (proj1 (@create_user_at_most_once demo_lib _ fresh_db) "alice"). Defined.

Lemma authenticate_user_correct_witness :
  let db := (@run_ops demo_lib [OpCreateUser (repeat x00 16) "alice" "secret"] fresh_db).2 in
  online db = true ∧
  @authenticate_user demo_lib "alice" "secret" db = Ok true ∧
  @authenticate_user demo_lib "bob" "secret" db = Ok false.
Proof.
  cbn zeta.
  assert (Hon : online (@run_ops demo_lib
            [OpCreateUser (repeat x00 16) "alice" "secret"] fresh_db).2 = true)
    by reflexivity.
  split; [exact Hon|]. split.
  - destruct (@authenticate_user_correct demo_lib _ fresh_db "alice" "secret" Hon)
      as [Hcreated _].
    refine (proj1 (proj2 (Hcreated (repeat x00 16) "secret" fresh_db _)) eq_refl).
    vm_compute. left.
  - destruct (@authenticate_user_correct demo_lib _ fresh_db "bob" "secret" Hon)
      as [_ Hnever].
    apply Hnever; [reflexivity|]. by repeat constructor.
Defined.

Lemma get_recent_messages_history_witness :
  let ops := [OpSaveMessage "2025-01-01 12:00:00" "alice" "one";
              OpSaveMessage "2025-01-01 12:00:01" "bob" "two"] in
  online (@run_ops demo_lib ops fresh_db).2 = true ∧
  - 2 ^ 63 <= 1 < 2 ^ 63 ∧
  get_recent_messages 1 (@run_ops demo_lib ops fresh_db).2 =
    Ok [("bob", "two", "2025-01-01 12:00:01")] ∧
  get_recent_messages (2 ^ 63) (@run_ops demo_lib ops fresh_db).2 = Raise OverflowError.
Proof.
  cbn zeta.
  assert (Hon : online (@run_ops demo_lib
            [OpSaveMessage "2025-01-01 12:00:00" "alice" "one";
             OpSaveMessage "2025-01-01 12:00:01" "bob" "two"] fresh_db).2 = true)
    by reflexivity.
  assert (Hn : - 2 ^ 63 <= 1 < 2 ^ 63) by lia.
  split; [exact Hon|]. split; [exact Hn|]. split.
  - destruct (proj1 (@get_recent_messages_history demo_lib _ 1 Hon) Hn)
      as (items & Hget & -> & _).
    exact Hget.
  - apply (proj2 (@get_recent_messages_history demo_lib _ (2 ^ 63) Hon)). right. lia.
Defined.

Lemma clients_append_adds_entry_witness :
  (3%nat ∉ map client_conn (clients demo_world)) ∧
  NoDup (map client_conn (clients demo_world)) ∧
  NoDup (map client_conn (clients (clients_append 3 "carol" demo_world).1.2)).
Proof.
  assert (Hnew : 3%nat ∉ map client_conn (clients demo_world)).
  { apply (bool_decide_unpack _). vm_compute. exact I. }
  assert (Hnd : NoDup (map client_conn (clients demo_world))).
  { apply (bool_decide_unpack _). vm_compute. exact I. }
  split; [exact Hnew|]. split; [exact Hnd|].
  pose proof (clients_append_adds_entry 3 "carol" demo_world) as Ht.
  unfold post, clients_append in Ht. cbn beta iota in Ht.
  destruct Ht as (_ & _ & _ & _ & Hdistinct).
  exact (proj1 (Hdistinct Hnew Hnd)).
Defined.


Lemma verify_password_malformed_salt_witness :
  In "g"%char (list_ascii_of_string "0g") ∧
  hex_value "g" = None ∧ is_ascii_space "g" = false ∧
  @verify_password demo_lib "secret" "0g" "00" = Raise ValueError.
Proof.
  assert (Hin : In "g"%char (list_ascii_of_string "0g")) by (right; left; reflexivity).
  split; [exact Hin|]. split; [reflexivity|]. split; [reflexivity|].
  exact (@verify_password_malformed_salt demo_lib "secret" "0g" "00" "g" Hin eq_refl eq_refl).
Defined.

Lemma get_recent_messages_limits_witness :
  let db := (@run_ops demo_lib [OpSaveMessage "2025-01-01 12:00:00" "alice" "one";
                                OpSaveMessage "2025-01-01 12:00:01" "bob" "two"] fresh_db).2 in
  wf_messages db ∧ online db = true ∧
  get_recent_messages 0 db = Ok [] ∧
  get_recent_messages 5 db =
    Ok [("alice", "one", "2025-01-01 12:00:00"); ("bob", "two", "2025-01-01 12:00:01")] ∧
  (∃ some, get_recent_messages 1 db = Ok some ∧
           last some = Some ("bob", "two", "2025-01-01 12:00:01")) ∧
  get_recent_messages (2 ^ 63) db = Raise OverflowError ∧
  get_recent_messages (- 2 ^ 63 - 1) db = Raise OverflowError.
Proof.
  cbn zeta.
  set (db := (@run_ops demo_lib [OpSaveMessage "2025-01-01 12:00:00" "alice" "one";
                OpSaveMessage "2025-01-01 12:00:01" "bob" "two"] fresh_db).2).
  assert (Hwf : wf_messages db) by apply (@run_ops_wf demo_lib), fresh_db_wf.
  assert (Hon : online db = true) by reflexivity.
  split; [exact Hwf|]. split; [exact Hon|].
  destruct (get_recent_messages_limits db 1 5 Hwf Hon) as (Hzero & _ & _ & Hlast & _).
  destruct (get_recent_messages_limits db 5 5 Hwf Hon) as (_ & Hall & _ & _ & _).
  destruct (get_recent_messages_limits db (2 ^ 63) 0 Hwf Hon) as (_ & _ & _ & _ & Hbig).
  destruct (get_recent_messages_limits db (- 2 ^ 63 - 1) 0 Hwf Hon)
    as (_ & _ & _ & _ & Hsmall).
  split; [exact Hzero|]. split; [|split; [|split]].
  - rewrite Hall; [reflexivity|]. split; [vm_compute; discriminate|lia].
  - apply (Hlast ltac:(lia)
             {| message_id := 2; msg_username := "bob"; msg_content := "two";
                created_at := "2025-01-01 12:00:01" |}).
    reflexivity.
  - apply Hbig. right. lia.
  - apply Hsmall. left. lia.
Defined.

Lemma broadcast_message_twice_witness :
  wf_messages (engine demo_world) ∧
  online (engine demo_world) = true ∧
  post (broadcast_message "alice" "hi" ;; broadcast_message "bob" "ho") demo_world
    (fun r w' _ =>
       r = Ok tt ∧
       get_recent_messages 2 (engine w') =
         Ok [("alice", "hi", "2025-01-01 12:00:00"); ("bob", "ho", "2025-01-01 12:00:00")]).
Proof.
  split; [exact fresh_db_wf|]. split; [reflexivity|].
  pose proof (broadcast_message_twice "alice" "hi" "bob" "ho" demo_world
                fresh_db_wf eq_refl) as Ht.
  unfold post in *.
  destruct ((broadcast_message "alice" "hi" ;; broadcast_message "bob" "ho") demo_world)
    as [[r w'] tr].
  destruct Ht as (Hr & _ & (items & Hget & ->) & _).
  split; [exact Hr|exact Hget].
Defined.

Lemma teardown_notifies_the_others_witness :
  online (engine demo_world) = true ∧
  NoDup (map client_conn (clients demo_world)) ∧
  post (finally_block 2 (Some "bob")) demo_world (fun r w' tr =>
    r = Ok tt ∧ clients w' = [alice] ∧ writable w' 2 = false ∧
    received w' 1 = [broadcast_line "SYSTEM" "bob has left the chat."]).
Proof.
  assert (Hon : online (engine demo_world) = true) by reflexivity.
  assert (Hnd : NoDup (map client_conn (clients demo_world))).
  { apply (bool_decide_unpack _). vm_compute. exact I. }
  split; [exact Hon|]. split; [exact Hnd|].
  pose proof (teardown_notifies_the_others 2 "bob" demo_world Hon Hnd) as Ht.
  unfold post in *.
  destruct (finally_block 2 (Some "bob") demo_world) as [[r w'] tr].
  destruct Ht as (Hr & Hc & _ & Hclosed & _ & Hall & _).
  split; [exact Hr|]. split; [rewrite Hc; reflexivity|]. split; [exact Hclosed|].
  exact (Hall alice (list_elem_of_here _ _) ltac:(cbn; lia) eq_refl).
Defined.

(** A user logs in and the store goes down before the client hangs up:
    the handler raises out of its [finally] block and leaves the socket
    open. *)
Lemma handle_client_end_state_witness :
  let line (s : string) := {| before := fun w => w; got := Ok (s +:+ LF) |} in
  let hang_up :=
    {| before := fun w => set_engine (set_online false (engine w)) w; got := Ok "" |} in
  let db := (@create_user demo_lib (repeat x00 16) "carol" "pw" fresh_db).2 in
  let w := set_sockets (<[3%nat := open_socket]> (sockets demo_world))
             (set_engine db demo_world) in
  post (@handle_client demo_lib 3 "10.0.0.3"
          [line "login"; line "carol"; line "pw"; hang_up]) w
    (fun r w' tr =>
       r = Raise OperationalError ∧
       (3%nat ∉ map client_conn (clients w')) ∧
       ∀ c, EvClose c ∉ tr).
Proof.
  cbn zeta.
  set (input := [_; _; _; _]). set (w := set_sockets _ _).
  pose proof (@handle_client_end_state demo_lib 3 "10.0.0.3" input w) as Ht.
  unfold post in *.
  destruct (@handle_client demo_lib 3 "10.0.0.3" input w) as [[r w'] tr] eqn:Hrun.
  assert (Hr : r = Raise OperationalError).
  { vm_compute in Hrun. by injection Hrun as <- _ _. }
  destruct Ht as (_ & Hgone & Hraise).
  destruct (Hraise ltac:(by rewrite Hr)) as (_ & Ha & _ & Hnone).
  split; [exact Hr|]. split; [by apply Hgone|exact Hnone].
Defined.

Lemma handle_client_teardown_witness :
  let line (s : string) := {| before := fun w => w; got := Ok (s +:+ LF) |} in
  let db := (@create_user demo_lib (repeat x00 16) "carol" "pw" fresh_db).2 in
  let w := set_sockets (<[3%nat := open_socket]> (sockets demo_world))
             (set_engine db demo_world) in
  post (@handle_client demo_lib 3 "10.0.0.3" [line "login"; line "carol"; line "pw"]) w
    (fun r w' tr =>
       authenticated tr ∧ leave_notice_at_teardown 3 "carol" tr ∧ r = Ok tt ∧
       (3%nat ∉ map client_conn (clients w')) ∧
       last (received w' 1) = Some (broadcast_line "SYSTEM" "carol has left the chat.") ∧
       writable w' 3 = false).
Proof.
  cbn zeta.
  set (input := [_; _; _]). set (w := set_sockets _ _).
  pose proof (@handle_client_teardown demo_lib 3 "10.0.0.3" input w) as Ht.
  unfold post in *.
  destruct (@handle_client demo_lib 3 "10.0.0.3" input w) as [[r w'] tr] eqn:Hrun.
  destruct Ht as (Hiff & _ & Hleave & _).
  assert (Hfacts : r = Ok tt ∧ EvAuthenticate "carol" "pw" (Ok true) ∈ tr ∧
                   alice ∈ clients w' ∧ writable w' 1 = true).
  { vm_compute in Hrun. injection Hrun as <- <- <-.
    split; [reflexivity|]. split; [|split; [|reflexivity]].
    - do 4 apply list_elem_of_further. apply list_elem_of_here.
    - apply list_elem_of_here. }
  destruct Hfacts as (Hr & Hin & Halice & Hw).
  assert (Hnotice : leave_notice_at_teardown 3 "carol" tr).
  { apply Hiff. by exists "pw". }
  destruct (Hleave "carol" Hnotice) as [Hgone [(_ & _ & _ & Hrecv & Hclosed)|(Hraise & _)]];
    [|congruence].
  split; [by exists "carol", "pw"|]. split; [exact Hnotice|]. split; [exact Hr|].
  split; [exact Hgone|]. split; [exact (Hrecv alice Halice Hw)|exact Hclosed].
Defined.

Lemma broadcast_message_overlapping_witness :
  let l1 := broadcast_line "alice" "hi" in
  let l2 := broadcast_line "bob" "yo" in
  let c' := run fair_schedule (two_broadcasts "alice" "hi" "bob" "yo" demo_world) in
  Forall (fun p => (String.length l1 <= S (taken_of p))%nat ∧
                   (String.length l2 <= S (taken_of p))%nat) fair_schedule ∧
  thread1 c' = Returned ∧ thread2 c' = Returned ∧
  received (world c') 1 = [l1; l2] ∧
  whole_lines [l1; l2] (stream (world c') 1).
Proof.
  cbn zeta.
  assert (Hall : Forall (fun p =>
            (String.length (broadcast_line "alice" "hi") <= S (taken_of p))%nat ∧
            (String.length (broadcast_line "bob" "yo") <= S (taken_of p))%nat)
            fair_schedule).
  { unfold fair_schedule. repeat (constructor; [split; vm_compute; lia|]). constructor. }
  split; [exact Hall|]. split; [by vm_compute|]. split; [by vm_compute|].
  split; [by vm_compute|].
  destruct (broadcast_message_overlapping demo_world "alice" "hi" "bob" "yo"
              fair_schedule 1) as (pieces & _ & Hs & _ & Hw).
  rewrite Hs. exact (proj2 (Hw Hall)).
Defined.
